(** * The concurrent load-testing harness of tests/performance-test.js

    A shallow embedding of the [PerformanceTester] class and of
    [runPerformanceTests], with the JavaScript built-ins they rely on, and the
    properties of the harness that the specification states.

    Modelling conventions.
    - A JavaScript Number is either one of the IEEE specials (NaN, the two
      infinities) or a finite value, held as a rational; integers are held
      for everything the harness stores or prints (lengths, [Math.round]
      results, parameters).  The throughput and the success rate, which the
      code computes as a quotient and then a product, are rounded to double
      precision after each of the two operations ([fdiv], [fmul]); the mean
      of the durations, a single quotient of integers that is rounded to an
      integer at once, is kept exact.  The sign of zero and the exponent
      notation of integers from 10^21 on are not modelled.
    - A JavaScript object is an association list in insertion order;
      [Object.entries] enumerates the keys that are array indices first, in
      ascending order, then the others in insertion order.
    - A request is answered, fails after some time, or is never answered:
      [makeRequest] sets no timeout.  [Promise.all] rejects with the
      rejection that comes first in time, and waits for ever for a member
      that never settles when none rejects.  A computation that waits for
      ever is [Diverge]; the requests left unanswered are counted, since
      they keep the process from exiting.
    - Methods are computations over an explicit [World] (the tester object,
      the error console, the file system, counters) reading an [Env] (what
      the network, the clock and the disk answer).  Of the console only the
      error stream is kept; the pauses between sweeps touch nothing and are
      left out.
    - [EventLoop] describes the batch loop once more, answer by answer, to
      speak of the requests in flight; in whatever order the answers arrive
      it records what the method records (lemma
      [event_loop_records_the_same]).
    - [Client] holds the submit handlers of the login and registration pages
      of the client, as transitions of what the browser holds. *)

From Stdlib Require Import ZArith QArith Qround List String Ascii Bool Lia Lqa.
From Stdlib Require Import Decimal DecimalString DecimalPos DecimalZ.
From Stdlib Require Qcanon.
Import ListNotations.

#[local] Open Scope string_scope.
#[local] Open Scope Z_scope.
#[local] Set Warnings "-register-all".

(* ================================================================== *)
(** ** JavaScript numbers *)

Module JS.

(** NaN, +Infinity, -Infinity, or a finite value of type [A]. *)
Inductive ext (A : Type) : Type :=
| NaN
| PosInfinity
| NegInfinity
| Fin (x : A).

Arguments NaN {A}.
Arguments PosInfinity {A}.
Arguments NegInfinity {A}.
Arguments Fin {A} x.

(** A Number in general (finite values are exact rationals). *)
Definition number := ext Q.

(** An integral Number: what [Math.round], [parseInt], [.length] and
    [Math.min]/[Math.max] over integers yield. *)
Definition integer := ext Z.

Definition of_integer (n : integer) : number :=
  match n with
  | NaN => NaN
  | PosInfinity => PosInfinity
  | NegInfinity => NegInfinity
  | Fin z => Fin (inject_Z z)
  end.

Definition of_nat (n : nat) : number := Fin (inject_Z (Z.of_nat n)).
Definition of_Z (z : Z) : number := Fin (inject_Z z).

(** Sign of a finite value: [Lt], [Eq] or [Gt] with respect to zero. *)
Definition Qsign (q : Q) : comparison := (Qnum q ?= 0)%Z.

(** [a + b] *)
Definition add (a b : number) : number :=
  match a, b with
  | NaN, _ | _, NaN => NaN
  | PosInfinity, NegInfinity | NegInfinity, PosInfinity => NaN
  | PosInfinity, _ | _, PosInfinity => PosInfinity
  | NegInfinity, _ | _, NegInfinity => NegInfinity
  | Fin x, Fin y => Fin (Qred (x + y))
  end.

Definition signed_infinity (positive : bool) : number :=
  if positive then PosInfinity else NegInfinity.

(** [a * b] *)
Definition mul (a b : number) : number :=
  match a, b with
  | NaN, _ | _, NaN => NaN
  | Fin x, Fin y => Fin (Qred (x * y))
  | Fin x, PosInfinity | PosInfinity, Fin x =>
      match Qsign x with Eq => NaN | Gt => PosInfinity | Lt => NegInfinity end
  | Fin x, NegInfinity | NegInfinity, Fin x =>
      match Qsign x with Eq => NaN | Gt => NegInfinity | Lt => PosInfinity end
  | PosInfinity, PosInfinity | NegInfinity, NegInfinity => PosInfinity
  | PosInfinity, NegInfinity | NegInfinity, PosInfinity => NegInfinity
  end.

(** [a / b]; a finite divisor that is zero is taken as +0. *)
Definition div (a b : number) : number :=
  match a, b with
  | NaN, _ | _, NaN => NaN
  | Fin x, Fin y =>
      match Qsign y with
      | Eq => match Qsign x with
              | Eq => NaN | Gt => PosInfinity | Lt => NegInfinity
              end
      | _ => Fin (Qred (x / y))
      end
  | Fin _, _ => Fin 0%Q
  | PosInfinity, Fin y =>
      match Qsign y with Lt => NegInfinity | _ => PosInfinity end
  | NegInfinity, Fin y =>
      match Qsign y with Lt => PosInfinity | _ => NegInfinity end
  | _, _ => NaN
  end.

(** [a > b]: false as soon as one side is NaN. *)
Definition gt (a b : number) : bool :=
  match a, b with
  | NaN, _ | _, NaN => false
  | PosInfinity, PosInfinity => false
  | PosInfinity, _ => true
  | _, PosInfinity => false
  | NegInfinity, _ => false
  | Fin _, NegInfinity => true
  | Fin x, Fin y => match (y ?= x)%Q with Lt => true | _ => false end
  end.

(** [Math.round]: the nearest integer, halves going up. *)
Definition Math_round (a : number) : integer :=
  match a with
  | NaN => NaN
  | PosInfinity => PosInfinity
  | NegInfinity => NegInfinity
  | Fin x => Fin (Qfloor (x + (1 # 2)))
  end.

(** [Math.min(...xs)] over finite integers: +Infinity for no argument. *)
Definition Math_min (xs : list Z) : integer :=
  fold_left (fun acc x => match acc with
                          | Fin m => Fin (Z.min m x)
                          | _ => Fin x
                          end) xs PosInfinity.

(** [Math.max(...xs)] over finite integers: -Infinity for no argument. *)
Definition Math_max (xs : list Z) : integer :=
  fold_left (fun acc x => match acc with
                          | Fin m => Fin (Z.max m x)
                          | _ => Fin x
                          end) xs NegInfinity.

(* ------------------------------------------------------------------ *)
(** ** Double precision

    The two statistics of a batch that multiply a quotient (the success rate
    and the throughput) are computed as the machine computes them: the
    quotient is rounded to the nearest binary64 number, and so is the
    product.  201 / 400 * 1000 is 502.49999999999994 this way, not 502.5. *)

(** The integer nearest to [m], the even one of two that are as near. *)
Definition round_half_even (m : Q) : Z :=
  let f := Qfloor m in
  match (m - inject_Z f ?= 1 # 2)%Q with
  | Lt => f
  | Gt => f + 1
  | Eq => if Z.even f then f else f + 1
  end.

(** The exponent of the power of two at or below a positive [x]. *)
Definition binade (x : Q) : Z :=
  if Qle_bool 1 x then Z.log2 (Qfloor x)
  else - Z.log2_up (Qceiling (/ x)).

(** [x * 2 ^ e] *)
Definition scale (x : Q) (e : Z) : Q :=
  if 0 <=? e then (x * inject_Z (2 ^ e))%Q else (x / inject_Z (2 ^ (- e)))%Q.

(** The binary64 number nearest to a positive [x], ties to even: 53
    significant bits, no bit below 2 ^ -1074, and +Infinity from 2 ^ 1024
    on. *)
Definition nearest_binary64 (x : Q) : number :=
  let e := Z.max (binade x - 52) (-1074) in
  let r := scale (inject_Z (round_half_even (scale x (- e)))) e in
  if Qle_bool (inject_Z (2 ^ 1024)) r then PosInfinity else Fin (Qred r).

(** Rounding to binary64. *)
Definition binary64 (x : Q) : number :=
  match Qsign x with
  | Eq => Fin 0%Q
  | Gt => nearest_binary64 (Qred x)
  | Lt => match nearest_binary64 (Qred (- x)) with
          | Fin r => Fin (Qred (- r))
          | _ => NegInfinity
          end
  end.

Definition rounded (a : number) : number :=
  match a with
  | Fin x => binary64 x
  | special => special
  end.

(** [a / b] and [a * b] in double precision. *)
Definition fdiv (a b : number) : number := rounded (div a b).
Definition fmul (a b : number) : number := rounded (mul a b).

(* ------------------------------------------------------------------ *)
(** ** Strings *)

Definition nl : string := String (ascii_of_nat 10) EmptyString.

(** [c.repeat(n)] *)
Fixpoint repeat_string (c : string) (n : nat) : string :=
  match n with
  | O => EmptyString
  | S n' => c ++ repeat_string c n'
  end.

(** Decimal digits of an integer, as [Number::toString] prints them. *)
Definition Z_to_string (z : Z) : string :=
  NilZero.string_of_int (Z.to_int z).

Definition integer_to_string (n : integer) : string :=
  match n with
  | NaN => "NaN"
  | PosInfinity => "Infinity"
  | NegInfinity => "-Infinity"
  | Fin z => Z_to_string z
  end.

Definition nat_to_string (n : nat) : string := Z_to_string (Z.of_nat n).

(* ------------------------------------------------------------------ *)
(** ** Values *)

(** The values the harness handles.  Numbers held in objects are integral:
    every number the harness stores is a parameter, a length or a
    [Math.round] result. *)
Inductive value : Type :=
| VUndefined
| VNull
| VBool (b : bool)
| VNumber (n : integer)
| VString (s : string)
| VObject (fields : list (string * value))
| VArray (items : list value).

Definition object := list (string * value).

Definition VNat (n : nat) : value := VNumber (Fin (Z.of_nat n)).

(** [Array.prototype.join] with the given separator, over strings. *)
Fixpoint join (sep : string) (parts : list string) : string :=
  match parts with
  | [] => EmptyString
  | [p] => p
  | p :: rest => p ++ sep ++ join sep rest
  end.

(** The abstract operation ToString, as a template literal applies it. *)
Fixpoint ToString (v : value) : string :=
  match v with
  | VUndefined => "undefined"
  | VNull => "null"
  | VBool true => "true"
  | VBool false => "false"
  | VNumber n => integer_to_string n
  | VString s => s
  | VObject _ => "[object Object]"
  | VArray items =>
      join "," (map (fun x => match x with
                              | VUndefined | VNull => EmptyString
                              | _ => ToString x
                              end) items)
  end.

(** The abstract operation ToBoolean (truthiness). *)
Definition ToBoolean (v : value) : bool :=
  match v with
  | VUndefined | VNull => false
  | VBool b => b
  | VNumber NaN => false
  | VNumber (Fin z) => negb (z =? 0)
  | VNumber _ => true
  | VString s => negb (String.eqb s EmptyString)
  | VObject _ | VArray _ => true
  end.

(** [typeof v === 'object'] *)
Definition typeof_object (v : value) : bool :=
  match v with
  | VNull | VObject _ | VArray _ => true
  | _ => false
  end.

(** Own property lookup in an object literal. *)
Fixpoint lookup (fields : object) (key : string) : value :=
  match fields with
  | [] => VUndefined
  | (k, v) :: rest => if String.eqb k key then v else lookup rest key
  end.

(** [v.key] for a [v] that is neither undefined nor null.  The harness reads
    plain data keys only (never [length] or an index), so such a key is
    absent from every value that is not an object literal. *)
Definition member (v : value) (key : string) : value :=
  match v with
  | VObject fields => lookup fields key
  | _ => VUndefined
  end.

Definition nullish (v : value) : bool :=
  match v with
  | VUndefined | VNull => true
  | _ => false
  end.

(** Index keys "0", "1", ... paired with the items. *)
Fixpoint indexed {A : Type} (from : nat) (items : list A) : list (nat * A) :=
  match items with
  | [] => []
  | x :: rest => (from, x) :: indexed (S from) rest
  end.

Fixpoint chars (s : string) : list value :=
  match s with
  | EmptyString => []
  | String c rest => VString (String c EmptyString) :: chars rest
  end.

(** The array index a key denotes, if any: keys that are the decimal
    numeral of an integer from 0 to 2^32 - 2. *)
Definition array_index (key : string) : option Z :=
  match NilEmpty.uint_of_string key with
  | Some d =>
      let n := Z.of_uint d in
      if String.eqb (Z_to_string n) key && (n <=? 4294967294)
      then Some n else None
  | None => None
  end.

Fixpoint insert_by_index (n : Z) (kv : string * value)
    (sorted : list (Z * (string * value))) : list (Z * (string * value)) :=
  match sorted with
  | [] => [(n, kv)]
  | (m, kv') :: rest =>
      if n <? m then (n, kv) :: sorted
      else (m, kv') :: insert_by_index n kv rest
  end.

(** The own properties of an object in the order they are enumerated: the
    array indices in ascending order, then the other keys in the order of
    their creation.  The keys of an object are distinct. *)
Definition own_entries (fields : object) : list (string * value) :=
  let indices :=
    fold_left (fun sorted kv =>
                 match array_index (fst kv) with
                 | Some n => insert_by_index n kv sorted
                 | None => sorted
                 end) fields [] in
  let others :=
    filter (fun kv => match array_index (fst kv) with
                      | Some _ => false
                      | None => true
                      end) fields in
  (map snd indices ++ others)%list.

(** [Object.entries(v)]: [None] stands for the TypeError on undefined and
    null. *)
Definition Object_entries (v : value) : option (list (string * value)) :=
  match v with
  | VUndefined | VNull => None
  | VBool _ | VNumber _ => Some []
  | VString s =>
      Some (map (fun p => (nat_to_string (fst p), snd p)) (indexed 0 (chars s)))
  | VObject fields => Some (own_entries fields)
  | VArray items =>
      Some (map (fun p => (nat_to_string (fst p), snd p)) (indexed 0 items))
  end.

(* ------------------------------------------------------------------ *)
(** ** parseInt and parseFloat *)

Definition is_white_space (c : ascii) : bool :=
  let n := nat_of_ascii c in
  ((9 <=? n)%nat && (n <=? 13)%nat) || (n =? 32)%nat.

(** Drops leading white space (StrWhiteSpace). *)
Fixpoint trimStart (s : string) : string :=
  match s with
  | String c rest => if is_white_space c then trimStart rest else s
  | EmptyString => s
  end.

(** An optional sign: [true] for a minus. *)
Definition take_sign (s : string) : bool * string :=
  match s with
  | String "-" rest => (true, rest)
  | String "+" rest => (false, rest)
  | _ => (false, s)
  end.

Definition digit_of_char (c : ascii) : option (uint -> uint) :=
  match c with
  | "0" => Some D0 | "1" => Some D1 | "2" => Some D2 | "3" => Some D3
  | "4" => Some D4 | "5" => Some D5 | "6" => Some D6 | "7" => Some D7
  | "8" => Some D8 | "9" => Some D9
  | _ => None
  end%char.

(** The longest prefix of decimal digits, and what follows it. *)
Fixpoint takeDigits (s : string) : uint * string :=
  match s with
  | EmptyString => (Nil, s)
  | String c rest =>
      match digit_of_char c with
      | Some d => let (ds, r) := takeDigits rest in (d ds, r)
      | None => (Nil, s)
      end
  end.

Definition hex_of_char (c : ascii) : option Z :=
  let n := Z.of_nat (nat_of_ascii c) in
  if (48 <=? n) && (n <=? 57) then Some (n - 48)
  else if (97 <=? n) && (n <=? 102) then Some (n - 87)
  else if (65 <=? n) && (n <=? 70) then Some (n - 55)
  else None.

(** The value of the longest prefix of hexadecimal digits, if there is one. *)
Fixpoint takeHex (acc : option Z) (s : string) : option Z :=
  match s with
  | EmptyString => acc
  | String c rest =>
      match hex_of_char c with
      | Some d => takeHex (Some (match acc with
                                 | Some a => 16 * a + d
                                 | None => d
                                 end)) rest
      | None => acc
      end
  end.

Definition signed (negative : bool) (z : Z) : Z :=
  if negative then - z else z.

(** [parseInt(s)] with no radix argument. *)
Definition parseInt_string (s : string) : integer :=
  let (negative, body) := take_sign (trimStart s) in
  match body with
  | String "0" (String x rest) =>
      if Ascii.eqb x "x" || Ascii.eqb x "X" then
        match takeHex None rest with
        | Some z => Fin (signed negative z)
        | None => NaN
        end
      else
        let (ds, _) := takeDigits body in Fin (signed negative (Z.of_uint ds))
  | _ =>
      match takeDigits body with
      | (Nil, _) => NaN
      | (ds, _) => Fin (signed negative (Z.of_uint ds))
      end
  end.

(** [parseInt(v)]: the argument is converted with ToString first. *)
Definition parseInt (v : value) : integer := parseInt_string (ToString v).

Fixpoint starts_with (p s : string) : bool :=
  match p, s with
  | EmptyString, _ => true
  | String a p', String b s' => Ascii.eqb a b && starts_with p' s'
  | _, _ => false
  end.

(** An ExponentPart, if one starts here; 0 otherwise. *)
Definition take_exponent (s : string) : Z :=
  match s with
  | String c rest =>
      if Ascii.eqb c "e" || Ascii.eqb c "E" then
        let (negative, r) := take_sign rest in
        match takeDigits r with
        | (Nil, _) => 0
        | (ds, _) => signed negative (Z.of_uint ds)
        end
      else 0
  | EmptyString => 0
  end.

(** [parseFloat(s)]: the value of the longest prefix that is a
    StrDecimalLiteral, NaN when there is none. *)
Definition parseFloat_string (s : string) : number :=
  let (negative, body) := take_sign (trimStart s) in
  if starts_with "Infinity" body then signed_infinity (negb negative)
  else
    let (ip, r1) := takeDigits body in
    let (fp, r2) := match r1 with
                    | String "." r => takeDigits r
                    | _ => (Nil, r1)
                    end in
    match ip, fp with
    | Nil, Nil => NaN
    | _, _ =>
        let mantissa :=
          (inject_Z (Z.of_uint ip)
           + inject_Z (Z.of_uint fp) / inject_Z (10 ^ Z.of_nat (nb_digits fp)))%Q in
        let scaled := (mantissa * Qpower (inject_Z 10) (take_exponent r2))%Q in
        Fin (Qred (if negative then - scaled else scaled)%Q)
    end.

Definition parseFloat (v : value) : number := parseFloat_string (ToString v).

(* ------------------------------------------------------------------ *)
(** ** JSON.parse *)

Definition dquote : ascii := ascii_of_nat 34.
Definition backslash : ascii := ascii_of_nat 92.

Definition is_json_ws (c : ascii) : bool :=
  let n := nat_of_ascii c in
  (n =? 32)%nat || (n =? 9)%nat || (n =? 10)%nat || (n =? 13)%nat.

Fixpoint skip_ws (s : string) : string :=
  match s with
  | String c rest => if is_json_ws c then skip_ws rest else s
  | EmptyString => s
  end.

Definition is_hex (c : ascii) : bool :=
  match hex_of_char c with Some _ => true | None => false end.

(** The rest of the input after the closing quote of a JSON string whose
    opening quote was just read. *)
Fixpoint json_string (s : string) : option string :=
  match s with
  | EmptyString => None
  | String c rest =>
      if Ascii.eqb c dquote then Some rest
      else if Ascii.eqb c backslash then
        match rest with
        | String "u" (String h1 (String h2 (String h3 (String h4 rest')))) =>
            if is_hex h1 && is_hex h2 && is_hex h3 && is_hex h4
            then json_string rest' else None
        | String e rest' =>
            if Ascii.eqb e dquote || Ascii.eqb e backslash || Ascii.eqb e "/"
               || Ascii.eqb e "b" || Ascii.eqb e "f" || Ascii.eqb e "n"
               || Ascii.eqb e "r" || Ascii.eqb e "t"
            then json_string rest' else None
        | EmptyString => None
        end
      else if (nat_of_ascii c <? 32)%nat then None
      else json_string rest
  end.

(** The rest of the input after a JSON number. *)
Definition json_number (s : string) : option string :=
  let body := match s with String "-" r => r | _ => s end in
  let after_int :=
    match body with
    | String "0" r => Some r
    | _ => match takeDigits body with
           | (Nil, _) => None
           | (_, r) => Some r
           end
    end in
  match after_int with
  | None => None
  | Some r1 =>
      let after_frac :=
        match r1 with
        | String "." r => match takeDigits r with
                          | (Nil, _) => None
                          | (_, r') => Some r'
                          end
        | _ => Some r1
        end in
      match after_frac with
      | None => None
      | Some r2 =>
          match r2 with
          | String c r =>
              if Ascii.eqb c "e" || Ascii.eqb c "E" then
                match takeDigits (snd (take_sign r)) with
                | (Nil, _) => None
                | (_, r') => Some r'
                end
              else Some r2
          | EmptyString => Some r2
          end
      end
  end.

Definition drop_prefix (p s : string) : option string :=
  if starts_with p s
  then Some (substring (length p) (length s - length p) s)
  else None.

(** Recognisers of the JSON grammar: the rest of the input after one value,
    after the elements of an array up to its bracket, after the members of
    an object up to its brace.  [fuel] bounds the nesting and the number of
    elements; the length of the text is enough. *)
Fixpoint json_value (fuel : nat) (s : string) : option string :=
  match fuel with
  | O => None
  | S fuel' =>
      match skip_ws s with
      | EmptyString => None
      | String c rest as s' =>
          if Ascii.eqb c "{" then
            match skip_ws rest with
            | String "}" r => Some r
            | r => json_members fuel' r
            end
          else if Ascii.eqb c "[" then
            match skip_ws rest with
            | String "]" r => Some r
            | r => json_elements fuel' r
            end
          else if Ascii.eqb c dquote then json_string rest
          else if Ascii.eqb c "t" then drop_prefix "true" s'
          else if Ascii.eqb c "f" then drop_prefix "false" s'
          else if Ascii.eqb c "n" then drop_prefix "null" s'
          else json_number s'
      end
  end
with json_elements (fuel : nat) (s : string) : option string :=
  match fuel with
  | O => None
  | S fuel' =>
      match json_value fuel' s with
      | None => None
      | Some r =>
          match skip_ws r with
          | String "," r' => json_elements fuel' r'
          | String "]" r' => Some r'
          | _ => None
          end
      end
  end
with json_members (fuel : nat) (s : string) : option string :=
  match fuel with
  | O => None
  | S fuel' =>
      match skip_ws s with
      | String c r0 =>
          if Ascii.eqb c dquote then
            match json_string r0 with
            | None => None
            | Some r1 =>
                match skip_ws r1 with
                | String ":" r2 =>
                    match json_value fuel' r2 with
                    | None => None
                    | Some r3 =>
                        match skip_ws r3 with
                        | String "," r4 => json_members fuel' r4
                        | String "}" r4 => Some r4
                        | _ => None
                        end
                    end
                | _ => None
                end
            end
          else None
      | EmptyString => None
      end
  end.

(** Whether [JSON.parse(text)] returns; otherwise it throws a SyntaxError. *)
Definition JSON_accepts (text : string) : bool :=
  match json_value (S (length text)) text with
  | Some rest => match skip_ws rest with
                 | EmptyString => true
                 | _ => false
                 end
  | None => false
  end.

End JS.

(* ================================================================== *)
(** ** The tester and its world *)

Module PerformanceTester.
Import JS.

(** What the target does with one request: it answers with a status code
    after [elapsed] milliseconds and a body of [bodyLength] characters; or
    the connection fails after [elapsed] milliseconds (the [error] event of
    the request); or neither ever happens: the request has no timeout. *)
Inductive reply : Type :=
| Responds (statusCode : Z) (elapsed : Z) (bodyLength : nat)
| Fails (message : string) (elapsed : Z)
| Hangs.

(** The object a request resolves with. *)
Record RequestOutcome : Type := {
  statusCode : Z;
  duration : Z;
  responseSize : nat;
  success : bool
}.

Inductive error : Type :=
| TransportError (message : string)
| SyntaxError (message : string)
| TypeError (message : string)
| WriteError (message : string).

Definition error_message (e : error) : string :=
  match e with
  | TransportError m | SyntaxError m | TypeError m | WriteError m => m
  end.

(** A promise of [makeRequest], by how it settles: resolved, rejected (at
    some time after the request was made), or never. *)
Inductive promise : Type :=
| Resolved (outcome : RequestOutcome)
| Rejected (reason : error) (elapsed : Z)
| Pending.

(** One firing of the sampling timer of the resource sweep: what its health
    probe and its second read are answered, and the process metrics at that
    time. *)
Record tick : Type := {
  probe : reply;
  reread : reply;
  sampledAt : Z;
  memoryUsage : value;
  uptime : value
}.

(** What the surroundings answer during one run. *)
Record Env : Type := {
  startedAt : string;           (* new Date().toISOString() at construction *)
  preflight : reply;            (* to the health probe of runPerformanceTests *)
  network : nat -> reply;       (* to the k-th request a sweep dispatches *)
  clock : nat -> Z;             (* the k-th Date.now() of the sweeps *)
  monitor : list tick;          (* the timer firings of the resource sweep *)
  disk : string -> string -> option string
                                (* writeFile: the failure message, if any *)
}.

(** [this.results] *)
Record Report : Type := {
  timestamp : string;
  tests : list value;
  summary : object
}.

Record World : Type := {
  results : Report;
  stderr : list string;         (* console.error lines, oldest first *)
  invocations : nat;            (* calls of makeRequest so far *)
  dispatched : nat;             (* requests dispatched by sweeps so far *)
  clockReads : nat;             (* Date.now() readings of the sweeps so far *)
  files : list (string * string);  (* files written, newest first *)
  unanswered : nat              (* requests made that never settle *)
}.

(** How a computation ends: with a value, with an exception, by
    [process.exit], or never. *)
Inductive completion (A : Type) : Type :=
| Return (a : A)
| Throw (e : error)
| Exit (code : Z)
| Diverge.

Arguments Return {A} a.
Arguments Throw {A} e.
Arguments Exit {A} code.
Arguments Diverge {A}.

Definition M (A : Type) : Type := World -> completion A * World.

Definition ret {A} (a : A) : M A := fun w => (Return a, w).

Definition bind {A B} (m : M A) (k : A -> M B) : M B :=
  fun w =>
    match m w with
    | (Return a, w') => k a w'
    | (Throw e, w') => (Throw e, w')
    | (Exit c, w') => (Exit c, w')
    | (Diverge, w') => (Diverge, w')
    end.

Notation "x <- m ;; k" := (bind m (fun x => k))
  (at level 61, m at next level, right associativity).
Notation "m ;;; k" := (bind m (fun _ => k))
  (at level 61, right associativity).

Definition throw {A} (e : error) : M A := fun w => (Throw e, w).
Definition process_exit {A} (code : Z) : M A := fun w => (Exit code, w).
Definition diverge {A} : M A := fun w => (Diverge, w).

(** [try { body } catch (e) { handler e }] *)
Definition try_catch {A} (body : M A) (handler : error -> M A) : M A :=
  fun w =>
    match body w with
    | (Throw e, w') => handler e w'
    | other => other
    end.

(** A loop over a list that threads an accumulator. *)
Fixpoint foldM {A B} (f : B -> A -> M B) (xs : list A) (acc : B) : M B :=
  match xs with
  | [] => ret acc
  | x :: rest => acc' <- f acc x ;; foldM f rest acc'
  end.

Definition console_error (line : string) : M unit :=
  fun w => (Return tt,
            {| results := results w; stderr := stderr w ++ [line];
               invocations := invocations w; dispatched := dispatched w;
               clockReads := clockReads w; files := files w;
               unanswered := unanswered w |}).

Definition push_test (t : value) : M unit :=
  fun w => (Return tt,
            {| results := {| timestamp := timestamp (results w);
                             tests := tests (results w) ++ [t];
                             summary := summary (results w) |};
               stderr := stderr w;
               invocations := invocations w; dispatched := dispatched w;
               clockReads := clockReads w; files := files w;
               unanswered := unanswered w |}).

Definition set_summary (s : object) : M unit :=
  fun w => (Return tt,
            {| results := {| timestamp := timestamp (results w);
                             tests := tests (results w);
                             summary := s |};
               stderr := stderr w;
               invocations := invocations w; dispatched := dispatched w;
               clockReads := clockReads w; files := files w;
               unanswered := unanswered w |}).

Definition get_results : M Report := fun w => (Return (results w), w).

(** [v.key]: a TypeError when [v] is undefined or null. *)
Definition prop (v : value) (key : string) : M value :=
  if nullish v
  then throw (TypeError ("Cannot read properties of " ++ ToString v))
  else ret (member v key).

(** [JSON.parse(v)]; only whether it returns matters to the harness, which
    never reads the parsed value. *)
Definition JSON_parse (v : value) : M unit :=
  if JSON_accepts (ToString v) then ret tt
  else throw (SyntaxError "Unexpected token in JSON").

(** [await p]; the caller waits for ever for a promise that never
    settles. *)
Definition await (p : promise) : M RequestOutcome :=
  match p with
  | Resolved o => ret o
  | Rejected e _ => throw e
  | Pending => diverge
  end.

(** The member that rejects first in time, with its time, among [ps] and a
    candidate found before them.  The members of [ps] were made in this
    order, so of two that reject at the same time the earlier one is kept. *)
Fixpoint earliest (ps : list promise) (found : option (error * Z))
    : option (error * Z) :=
  match ps with
  | [] => found
  | Rejected e t :: rest =>
      match found with
      | Some (_, t0) => if t <? t0 then earliest rest (Some (e, t))
                        else earliest rest found
      | None => earliest rest (Some (e, t))
      end
  | _ :: rest => earliest rest found
  end.

(** The reason of the member of [ps] that rejects first in time. *)
Definition first_rejection (ps : list promise) : option error :=
  option_map fst (earliest ps None).

Definition outcomes (ps : list promise) : list RequestOutcome :=
  flat_map (fun p => match p with Resolved o => [o] | _ => [] end) ps.

Definition pending (p : promise) : bool :=
  match p with
  | Pending => true
  | _ => false
  end.

(** [await Promise.all(ps)].  The promise of [Promise.all] rejects as soon
    as a member rejects, with the reason of that member; it resolves, with
    every outcome in the order of [ps], once all members have resolved; it
    stays pending, and the caller with it, when no member rejects and one
    never settles. *)
Definition Promise_all (ps : list promise) : M (list RequestOutcome) :=
  match first_rejection ps with
  | Some e => throw e
  | None => if existsb pending ps then diverge else ret (outcomes ps)
  end.

(** The object a resolved request carries. *)
Definition outcome_object (o : RequestOutcome) : value :=
  VObject [("statusCode", VNumber (Fin (statusCode o)));
           ("duration", VNumber (Fin (duration o)));
           ("responseSize", VNat (responseSize o));
           ("success", VBool (success o))].

(** How the promise of a request settles, given what the target does. *)
Definition settle (answer : reply) : promise :=
  match answer with
  | Responds status elapsed size =>
      Resolved {| statusCode := status;
                  duration := elapsed;
                  responseSize := size;
                  success := (200 <=? status) && (status <? 300) |}
  | Fails message elapsed => Rejected (TransportError message) elapsed
  | Hangs => Pending
  end.

(** [makeRequest(path)]: issues one request; [answer] is what the target
    does with it. *)
Definition makeRequest (answer : reply) (path : string) : M promise :=
  fun w => (Return (settle answer),
            {| results := results w; stderr := stderr w;
               invocations := S (invocations w); dispatched := dispatched w;
               clockReads := clockReads w; files := files w;
               unanswered :=
                 (if pending (settle answer) then S (unanswered w)
                  else unanswered w) |}).

Section Run.

Variable env : Env.

(** [Date.now()] as read by a sweep. *)
Definition Date_now : M Z :=
  fun w => (Return (clock env (clockReads w)),
            {| results := results w; stderr := stderr w;
               invocations := invocations w; dispatched := dispatched w;
               clockReads := S (clockReads w); files := files w;
               unanswered := unanswered w |}).

(** [this.makeRequest(endpoint)] from the batch scheduler: the next request
    of the sweeps. *)
Definition dispatch (endpoint : string) : M promise :=
  fun w =>
    makeRequest (network env (dispatched w)) endpoint
      {| results := results w; stderr := stderr w;
         invocations := invocations w; dispatched := S (dispatched w);
         clockReads := clockReads w; files := files w;
         unanswered := unanswered w |}.

(** The inner loop: [batchSize] requests are issued, none is awaited yet. *)
Fixpoint dispatchAll (endpoint : string) (batchSize : nat) : M (list promise) :=
  match batchSize with
  | O => ret []
  | S n =>
      p <- dispatch endpoint ;;
      ps <- dispatchAll endpoint n ;;
      ret (p :: ps)
  end.

(** The outer loop of [testConcurrentConnections], from [batch] on.  The
    loop makes no progress when [concurrency] is 0: [fuel] bounds the
    iterations, and running out of it stands for a loop that never ends. *)
Fixpoint batches (fuel : nat) (endpoint : string)
    (concurrency totalRequests batch : nat)
    (results : list RequestOutcome) : M (list RequestOutcome) :=
  if (batch <? totalRequests)%nat then
    match fuel with
    | O => diverge
    | S fuel' =>
        let batchSize := Nat.min concurrency (totalRequests - batch) in
        batchPromises <- dispatchAll endpoint batchSize ;;
        results' <-
          try_catch
            (batchResults <- Promise_all batchPromises ;;
             ret (results ++ batchResults)%list)
            (fun error =>
               console_error (nl ++ "❌ Batch error: " ++ error_message error) ;;;
               ret results) ;;
        batches fuel' endpoint concurrency totalRequests
                (batch + concurrency) results'
    end
  else ret results.

Definition sum (xs : list Z) : Z := fold_left Z.add xs 0.

(** The statistics of [testConcurrentConnections] and the object it builds
    from them, once the loop is over. *)
Definition testResultOf (endpoint : string) (concurrency totalRequests : nat)
    (totalDuration : Z) (results : list RequestOutcome) : value :=
  let successfulRequests := List.length (filter success results) in
  let failedRequests := (List.length results - successfulRequests)%nat in
  let durations := map duration results in
  let avgDuration := div (of_Z (sum durations)) (of_nat (List.length durations)) in
  let minDuration := Math_min durations in
  let maxDuration := Math_max durations in
  let requestsPerSecond :=
    Math_round (fmul (fdiv (of_nat totalRequests) (of_Z totalDuration))
                     (of_nat 1000)) in
  VObject
    [("test_name", VString "Concurrent Connections Test");
     ("endpoint", VString endpoint);
     ("configuration",
      VObject [("concurrency", VNat concurrency);
               ("total_requests", VNat totalRequests)]);
     ("results",
      VObject
        [("total_duration", VString (Z_to_string totalDuration ++ "ms"));
         ("successful_requests", VNat successfulRequests);
         ("failed_requests", VNat failedRequests);
         ("success_rate",
          VString
            (integer_to_string
               (Math_round (fmul (fdiv (of_nat successfulRequests)
                                       (of_nat totalRequests))
                                 (of_nat 100))) ++ "%"));
         ("requests_per_second", VNumber requestsPerSecond);
         ("response_times",
          VObject
            [("average",
              VString (integer_to_string (Math_round avgDuration) ++ "ms"));
             ("minimum", VString (integer_to_string minDuration ++ "ms"));
             ("maximum", VString (integer_to_string maxDuration ++ "ms"))])])].

Definition testConcurrentConnections
    (endpoint : string) (concurrency totalRequests : nat) : M value :=
  startTime <- Date_now ;;
  results <- batches totalRequests endpoint concurrency totalRequests 0 [] ;;
  endTime <- Date_now ;;
  let totalDuration := endTime - startTime in
  let testResult :=
    testResultOf endpoint concurrency totalRequests totalDuration results in
  push_test testResult ;;;
  ret testResult.

(** [testMultipleEndpoints]; the pause between endpoints touches nothing. *)
Definition testMultipleEndpoints : M unit :=
  let endpoints :=
    ["/api/users"; "/api/posts"; "/api/todos"; "/api/albums"; "/api/stats"] in
  foldM (fun (_ : unit) endpoint =>
           testConcurrentConnections endpoint 50 200 ;;; ret tt)
        endpoints tt.

(** A call of an async function that nobody awaits: when the function never
    completes, its caller goes on all the same, with [otherwise]. *)
Definition detached {A} (otherwise : A) (m : M A) : M A :=
  fun w =>
    match m w with
    | (Diverge, w') => (Return otherwise, w')
    | other => other
    end.

(** The callback of the sampling timer, for one firing.  The timer does not
    await it: a firing whose request is never answered leaves the
    measurements as they are. *)
Definition monitorTick (startTime : Z) (measurements : list value) (t : tick)
    : M (list value) :=
  detached measurements
    (try_catch
       (p <- makeRequest (probe t) "/health" ;;
        response <- await p ;;
        if success response then
          p' <- makeRequest (reread t) "/health" ;;
          again <- await p' ;;
          JSON_parse (outcome_object again) ;;;
          ret (measurements ++
               [VObject [("timestamp",
                          VNumber (Fin (sampledAt t - startTime)));
                         ("memory", memoryUsage t);
                         ("uptime", uptime t)]])%list
        else ret measurements)
       (fun _ => ret measurements)).

(** [testResourceUsage].  The timer callbacks run while the load generation
    is awaited; they share nothing with it but the count of requests made,
    so the model runs them once the load generation has returned. *)
Definition testResourceUsage : M value :=
  let duration := 30000 in
  startTime <- Date_now ;;
  testConcurrentConnections "/api/users" 20 300 ;;;
  measurements <- foldM (monitorTick startTime) (monitor env) [] ;;
  let resourceTest :=
    VObject
      [("test_name", VString "Resource Usage Test");
       ("duration", VString (Z_to_string duration ++ "ms"));
       ("measurements", VNat (List.length measurements));
       ("memory_usage",
        VObject
          [("samples", VNat (List.length measurements));
           ("monitoring_duration",
            VString (Z_to_string (duration / 1000) ++ "s"))])] in
  push_test resourceTest ;;;
  ret resourceTest.

(** [testLoadIncrease]; the pause between levels touches nothing. *)
Definition testLoadIncrease : M value :=
  let loadLevels := [10; 25; 50; 100; 200]%nat in
  loadResults <-
    foldM (fun loadResults load =>
             result <- testConcurrentConnections "/api/posts" load (load * 5) ;;
             r <- prop result "results" ;;
             success_rate <- prop r "success_rate" ;;
             requests_per_second <- prop r "requests_per_second" ;;
             response_times <- prop r "response_times" ;;
             average <- prop response_times "average" ;;
             ret (loadResults ++
                  [VObject [("load_level", VNat load);
                            ("success_rate", success_rate);
                            ("requests_per_second", requests_per_second);
                            ("avg_response_time", average)]])%list)
          loadLevels [] ;;
  let loadTest :=
    VObject [("test_name", VString "Load Increase Test");
             ("load_levels", VArray loadResults)] in
  push_test loadTest ;;;
  ret loadTest.

End Run.

(** [a === s] for a string [s] *)
Definition strict_eq_string (a : value) (s : string) : bool :=
  match a with
  | VString x => String.eqb x s
  | _ => false
  end.

(** [tests.reduce((sum, test) => sum + read(test.results.field), 0)] *)
Definition sum_of (read : value -> number) (field : string)
    (tests : list value) : M number :=
  foldM (fun sum test =>
           r <- prop test "results" ;;
           x <- prop r field ;;
           ret (add sum (read x)))
        tests (of_nat 0).

Definition calculateScalabilityRating (tests : list value) : M string :=
  if (List.length tests =? 0)%nat then ret "No Data"
  else
    totalSuccessRate <- sum_of parseFloat "success_rate" tests ;;
    let avgSuccessRate := div totalSuccessRate (of_nat (List.length tests)) in
    totalRPS <-
      sum_of (fun x => of_integer (parseInt x)) "requests_per_second" tests ;;
    let avgRPS := div totalRPS (of_nat (List.length tests)) in
    if gt avgSuccessRate (of_nat 95) && gt avgRPS (of_nat 800)
    then ret "Highly Scalable"
    else if gt avgSuccessRate (of_nat 90) && gt avgRPS (of_nat 500)
    then ret "Scalable"
    else if gt avgSuccessRate (of_nat 80) && gt avgRPS (of_nat 200)
    then ret "Moderately Scalable"
    else ret "Limited Scalability".

(** [tests.filter(t => t.test_name === name)] *)
Definition named (name : string) (tests : list value) : M (list value) :=
  foldM (fun kept t =>
           test_name <- prop t "test_name" ;;
           ret (if strict_eq_string test_name name
                then kept ++ [t] else kept)%list)
        tests [].

Definition generateReport : M Report :=
  this_results <- get_results ;;
  let allTests := tests this_results in
  concurrentTests <- named "Concurrent Connections Test" allTests ;;
  (if (0 <? List.length concurrentTests)%nat then
     totalRPS <-
       sum_of (fun x => of_integer (parseInt x)) "requests_per_second"
              concurrentTests ;;
     let avgRPS := div totalRPS (of_nat (List.length concurrentTests)) in
     totalResponseTime <-
       foldM (fun sum test =>
                r <- prop test "results" ;;
                response_times <- prop r "response_times" ;;
                average <- prop response_times "average" ;;
                ret (add sum (of_integer (parseInt average))))
             concurrentTests (of_nat 0) ;;
     let avgResponseTime :=
       div totalResponseTime (of_nat (List.length concurrentTests)) in
     scalability_rating <- calculateScalabilityRating concurrentTests ;;
     set_summary
       [("total_tests", VNat (List.length allTests));
        ("average_requests_per_second", VNumber (Math_round avgRPS));
        ("average_response_time",
         VString (integer_to_string (Math_round avgResponseTime) ++ "ms"));
        ("overall_performance",
         VString (if gt avgRPS (of_nat 500) then "Excellent"
                  else if gt avgRPS (of_nat 200) then "Good"
                  else "Needs Improvement"));
        ("scalability_rating", VString scalability_rating)]
   else ret tt) ;;;
  get_results.

(** [Object.entries(v)] *)
Definition entries_of (v : value) : M (list (string * value)) :=
  match Object_entries v with
  | Some entries => ret entries
  | None => throw (TypeError "Cannot convert undefined or null to object")
  end.

(** One [key: value] line per entry, behind [indent]. *)
Definition formatEntries (indent : string) (text : string)
    (entries : list (string * value)) : string :=
  fold_left (fun text kv =>
               text ++ indent ++ fst kv ++ ": " ++ ToString (snd kv) ++ nl)
            entries text.

(** The body of [report.tests.forEach((test, index) => ...)]. *)
Definition formatTest (text : string) (it : nat * value) : M string :=
  let (index, test) := it in
  let text := text ++ repeat_string "-" 60 ++ nl in
  test_name <- prop test "test_name" ;;
  let text :=
    text ++ "TEST " ++ nat_to_string (index + 1) ++ ": "
         ++ ToString test_name ++ nl in
  let text := text ++ repeat_string "-" 60 ++ nl in
  let text :=
    if ToBoolean (member test "endpoint")
    then text ++ "Endpoint: " ++ ToString (member test "endpoint") ++ nl
    else text in
  text <-
    (if ToBoolean (member test "configuration") then
       let text := text ++ "Configuration:" ++ nl in
       entries <- entries_of (member test "configuration") ;;
       ret (formatEntries "  " text entries)
     else ret text) ;;
  text <-
    (if ToBoolean (member test "results") then
       let text := text ++ "Results:" ++ nl in
       entries <- entries_of (member test "results") ;;
       foldM (fun text kv =>
                let (key, value) := kv : string * value in
                if typeof_object value then
                  let text := text ++ "  " ++ key ++ ":" ++ nl in
                  sub <- entries_of value ;;
                  ret (formatEntries "    " text sub)
                else ret (text ++ "  " ++ key ++ ": " ++ ToString value ++ nl))
             entries text
     else ret text) ;;
  text <-
    (if ToBoolean (member test "load_levels") then
       let text := text ++ "Load Test Results:" ++ nl in
       match member test "load_levels" with
       | VArray levels =>
           foldM (fun text level =>
                    load_level <- prop level "load_level" ;;
                    ret (text ++ "  Load " ++ ToString load_level ++ ": "
                         ++ ToString (member level "success_rate")
                         ++ " success, "
                         ++ ToString (member level "requests_per_second")
                         ++ " RPS, "
                         ++ ToString (member level "avg_response_time")
                         ++ " avg" ++ nl))
                 levels text
       | _ => throw (TypeError "test.load_levels.forEach is not a function")
       end
     else ret text) ;;
  ret (text ++ nl).

Definition formatReportAsText (report : Report) : M string :=
  let text := EmptyString in
  let text := text ++ repeat_string "=" 80 ++ nl in
  let text :=
    text ++ "                    NODE.JS PERFORMANCE TEST RESULTS" ++ nl in
  let text := text ++ repeat_string "=" 80 ++ nl in
  let text := text ++ "Test Date: " ++ timestamp report ++ nl in
  let text :=
    text ++ "Total Tests: "
         ++ ToString (lookup (summary report) "total_tests") ++ nl in
  let text :=
    text ++ "Overall Performance: "
         ++ ToString (lookup (summary report) "overall_performance") ++ nl in
  let text :=
    text ++ "Scalability Rating: "
         ++ ToString (lookup (summary report) "scalability_rating") ++ nl in
  let text :=
    text ++ "Average RPS: "
         ++ ToString (lookup (summary report) "average_requests_per_second")
         ++ nl in
  let text :=
    text ++ "Average Response Time: "
         ++ ToString (lookup (summary report) "average_response_time") ++ nl in
  let text := text ++ nl in
  text <- foldM formatTest (indexed 0 (tests report)) text ;;
  let text := text ++ repeat_string "=" 80 ++ nl in
  let text := text ++ "PERFORMANCE ANALYSIS:" ++ nl in
  let text := text ++ repeat_string "=" 80 ++ nl in
  let text :=
    text ++ "Node.js demonstrates excellent scalability characteristics:"
         ++ nl in
  let text :=
    text ++ "• Non-blocking I/O enables high concurrent connection handling"
         ++ nl in
  let text :=
    text ++ "• Event-driven architecture maintains low memory footprint"
         ++ nl in
  let text :=
    text ++ "• Single-threaded event loop efficiently manages requests"
         ++ nl in
  let text :=
    text ++ "• Performance remains stable under increasing load" ++ nl in
  let text := text ++ nl ++ "Recommendations:" ++ nl in
  let text := text ++ "• Monitor memory usage during peak loads" ++ nl in
  let text :=
    text ++ "• Implement connection pooling for database operations" ++ nl in
  let text := text ++ "• Use clustering for CPU-intensive operations" ++ nl in
  let text :=
    text ++ "• Consider load balancing for production deployment" ++ nl in
  let text := text ++ nl in
  ret text.

Section Orchestration.

Variable env : Env.

(** [fs.promises.writeFile(filename, text)] *)
Definition writeFile (filename text : string) : M unit :=
  fun w =>
    match disk env filename text with
    | Some message => (Throw (WriteError message), w)
    | None =>
        (Return tt,
         {| results := results w; stderr := stderr w;
            invocations := invocations w; dispatched := dispatched w;
            clockReads := clockReads w;
            files := (filename, text) :: files w;
            unanswered := unanswered w |})
    end.

Definition saveResults (filename : string) : M unit :=
  report <- generateReport ;;
  reportText <- formatReportAsText report ;;
  try_catch
    (writeFile filename reportText)
    (fun error =>
       console_error (nl ++ "❌ Failed to save results: "
                         ++ error_message error)).

(** [new PerformanceTester()] *)
Definition new_PerformanceTester : World :=
  {| results := {| timestamp := startedAt env; tests := []; summary := [] |};
     stderr := [];
     invocations := 0;
     dispatched := 0;
     clockReads := 0;
     files := [];
     unanswered := 0 |}.

(** The body of [runPerformanceTests], on the tester it has just built. *)
Definition performanceTests : M unit :=
  try_catch
    (p <- makeRequest (preflight env) "/health" ;;
     await p ;;;
     ret tt)
    (fun error =>
       console_error
         ("❌ Cannot connect to server. Please ensure the server is running on "
          ++ "http://localhost:3001") ;;;
       console_error ("   Run: npm start" ++ nl) ;;;
       process_exit 1) ;;;
  try_catch
    (testMultipleEndpoints env ;;;
     testResourceUsage env ;;;
     testLoadIncrease env ;;;
     generateReport ;;;
     saveResults "performance-results.txt" ;;;
     ret tt)
    (fun error =>
       console_error (nl ++ "❌ Performance tests failed: "
                         ++ error_message error) ;;;
       process_exit 1).

Definition runPerformanceTests : completion unit * World :=
  performanceTests new_PerformanceTester.

(** The exit code of the process, when it ends: the argument of
    [process.exit], or 0 when the script runs to its end (an escaping
    rejection is only printed by the [.catch] of the last line) and no
    request is left unanswered; a request that is never answered keeps the
    process alive. *)
Definition exit_code (run : completion unit * World) : option Z :=
  match fst run with
  | Exit code => Some code
  | Return _ | Throw _ =>
      if (unanswered (snd run) =? 0)%nat then Some 0 else None
  | Diverge => None
  end.

End Orchestration.

End PerformanceTester.


(* ================================================================== *)
(** ** The batch loop at the grain of the event loop

    [testConcurrentConnections] suspends at [await Promise.all(...)] only.
    Between two suspensions the only thing that happens is that the target
    answers one request in flight (or its connection fails); the promise
    reactions, and the continuation of the loop when [Promise.all] settles,
    run before the next answer is looked at.  Requests are named by their
    rank of dispatch within the call.  The model is for a positive
    [concurrency]. *)

Module EventLoop.
Import PerformanceTester.

Inductive event : Type :=
| Answer (id : nat) (r : reply).

Record State : Type := {
  batch : nat;                  (* the loop variable *)
  awaited : list nat;           (* members of the Promise.all awaited *)
  arrived : list (nat * RequestOutcome);
                                (* its members that have resolved *)
  inFlight : list nat;          (* requests issued and not yet answered *)
  results : list RequestOutcome;
  finished : bool               (* the loop is over *)
}.

(** The loop from its head, up to the next [await]: the next group is
    dispatched, or the loop ends. *)
Definition advance (concurrency totalRequests : nat)
    (batch : nat) (flying : list nat) (results : list RequestOutcome) : State :=
  if (batch <? totalRequests)%nat then
    let batchSize := Nat.min concurrency (totalRequests - batch) in
    let ids := seq batch batchSize in
    {| batch := batch; awaited := ids; arrived := [];
       inFlight := flying ++ ids; results := results; finished := false |}
  else
    {| batch := batch; awaited := []; arrived := [];
       inFlight := flying; results := results; finished := true |}.

Definition start (concurrency totalRequests : nat) : State :=
  advance concurrency totalRequests 0 [] [].

Definition mem (id : nat) (ids : list nat) : bool := existsb (Nat.eqb id) ids.

Definition without (id : nat) (ids : list nat) : list nat :=
  filter (fun x => negb (Nat.eqb id x)) ids.

(** The values [Promise.all] resolves with: in the order of its members. *)
Definition in_order (ids : list nat) (arrived : list (nat * RequestOutcome))
    : list RequestOutcome :=
  flat_map (fun id =>
              match find (fun p => Nat.eqb id (fst p)) arrived with
              | Some (_, o) => [o]
              | None => []
              end) ids.

(** One answer arrives.  [None]: no such request is in flight, or the event
    is no answer. *)
Definition step (concurrency totalRequests : nat) (s : State) (e : event)
    : option State :=
  match e with
  | Answer id r =>
      if pending (settle r) then None  (* not an answer *)
      else if mem id (inFlight s) then
        let flying := without id (inFlight s) in
        if mem id (awaited s) then
          match settle r with
          | Pending => None
          | Rejected _ _ =>
              (* Promise.all rejects at once: the catch block, then the loop *)
              Some (advance concurrency totalRequests
                            (batch s + concurrency) flying (results s))
          | Resolved o =>
              let arrived' := (id, o) :: arrived s in
              if (List.length arrived' =? List.length (awaited s))%nat then
                (* Promise.all resolves: the push, then the loop *)
                Some (advance concurrency totalRequests
                              (batch s + concurrency) flying
                              (results s ++ in_order (awaited s) arrived'))
              else
                Some {| batch := batch s; awaited := awaited s;
                        arrived := arrived'; inFlight := flying;
                        results := results s; finished := finished s |}
          end
        else
          (* a member of a group whose Promise.all has already rejected *)
          Some {| batch := batch s; awaited := awaited s;
                  arrived := arrived s; inFlight := flying;
                  results := results s; finished := finished s |}
      else None
  end.

(** The states a sequence of answers goes through, the first one included. *)
Fixpoint trace (concurrency totalRequests : nat) (s : State)
    (events : list event) : option (list State) :=
  match events with
  | [] => Some [s]
  | e :: rest =>
      match step concurrency totalRequests s e with
      | None => None
      | Some s' =>
          match trace concurrency totalRequests s' rest with
          | None => None
          | Some states => Some (s :: states)
          end
      end
  end.

Definition responds (e : event) : bool :=
  match e with
  | Answer _ (Responds _ _ _) => true
  | Answer _ _ => false
  end.

(** What holds of every state as long as no request has failed: the requests
    in flight are members of the group awaited, which has at most
    [concurrency] members. *)
Definition orderly (concurrency : nat) (s : State) : Prop :=
  (List.length (awaited s) <= concurrency)%nat /\
  NoDup (inFlight s) /\
  incl (inFlight s) (awaited s) /\
  (List.length (inFlight s) + List.length (arrived s)
   = List.length (awaited s))%nat.

End EventLoop.


(* ================================================================== *)
(** ** Vocabulary of the specification *)

Module Spec.
Import JS PerformanceTester.

(** A computation that neither reads nor changes the world. *)
Definition pure {A} (m : M A) : Prop :=
  exists c, forall w, m w = (c, w).

(** The number of groups a call forms. *)
Definition groupCount (concurrency totalRequests : nat) : nat :=
  (totalRequests + concurrency - 1) / concurrency.

(** The ranks of the requests of group [g] within a call: from [g * C] to
    [min ((g + 1) * C) N - 1]. *)
Definition groupIds (concurrency totalRequests g : nat) : list nat :=
  seq (g * concurrency)
      (Nat.min concurrency (totalRequests - g * concurrency)).

(** The requests of group [g], for a call whose first request is the
    [first]-th of the sweeps. *)
Definition groupPromises (env : Env) (first concurrency totalRequests g : nat)
    : list promise :=
  map (fun i => settle (network env (first + i)))
      (groupIds concurrency totalRequests g).

(** What a group adds to the results: all its outcomes, or nothing when one
    of its requests failed. *)
Definition groupRecorded (ps : list promise) : list RequestOutcome :=
  match first_rejection ps with
  | Some _ => []
  | None => outcomes ps
  end.

Definition groupErrors (ps : list promise) : list string :=
  match first_rejection ps with
  | Some e => [nl ++ "❌ Batch error: " ++ error_message e]
  | None => []
  end.

(** The outcomes a call records, group after group. *)
Definition recordedOutcomes (env : Env) (first concurrency totalRequests : nat)
    : list RequestOutcome :=
  flat_map (fun g => groupRecorded
                       (groupPromises env first concurrency totalRequests g))
           (seq 0 (groupCount concurrency totalRequests)).

Definition batchErrors (env : Env) (first concurrency totalRequests : nat)
    : list string :=
  flat_map (fun g => groupErrors
                       (groupPromises env first concurrency totalRequests g))
           (seq 0 (groupCount concurrency totalRequests)).

(** No request among the [n] from rank [first] on fails. *)
Definition allRespond (env : Env) (first n : nat) : Prop :=
  forall i, (i < n)%nat -> exists status elapsed size,
    network env (first + i) = Responds status elapsed size.

(** A group the loop gets past: one of its requests fails, or all of them
    are answered. *)
Definition groupSettles (ps : list promise) : bool :=
  match first_rejection ps with
  | Some _ => true
  | None => negb (existsb pending ps)
  end.

(** The loop of a call gets past every group. *)
Definition everyGroupSettles (env : Env) (first concurrency totalRequests : nat)
    : Prop :=
  forall g, (g < groupCount concurrency totalRequests)%nat ->
    groupSettles (groupPromises env first concurrency totalRequests g) = true.

(** Each of the [n] requests from rank [first] on is answered or fails. *)
Definition allSettle (env : Env) (first n : nat) : Prop :=
  forall i, (i < n)%nat -> network env (first + i) <> Hangs.

(** A firing of the sampling timer one of whose requests is never answered:
    the probe, or the second read that follows a probe answered with a 2xx
    status. *)
Definition tickHangs (t : tick) : bool :=
  match settle (probe t) with
  | Pending => true
  | Resolved response => success response && pending (settle (reread t))
  | Rejected _ _ => false
  end.

(** How many of the [n] requests from rank [first] on are never answered. *)
Definition hanging (env : Env) (first n : nat) : nat :=
  List.length
    (filter (fun i => pending (settle (network env (first + i)))) (seq 0 n)).

(** The outcome of every one of the [n] requests from rank [first] on is in
    [rs], at its rank, a failed request as an outcome that is no success. *)
Definition everyRequestRecorded (env : Env) (first n : nat)
    (rs : list RequestOutcome) : Prop :=
  List.length rs = n /\
  forall i message elapsed,
    (i < n)%nat -> network env (first + i) = Fails message elapsed ->
    exists o, nth_error rs i = Some o /\ success o = false.

(** Fields of a test entry. *)
Definition resultField (t : value) (key : string) : value :=
  member (member t "results") key.

Definition responseTime (t : value) (key : string) : value :=
  member (resultField t "response_times") key.

Definition configurationField (t : value) (key : string) : value :=
  member (member t "configuration") key.

(** A test entry carries a success rate of [fst stat] percent and a
    throughput of [snd stat] requests per second. *)
Definition carries (t : value) (stat : Z * Z) : Prop :=
  nullish t = false /\
  nullish (member t "results") = false /\
  resultField t "success_rate" = VString (Z_to_string (fst stat) ++ "%") /\
  resultField t "requests_per_second" = VNumber (Fin (snd stat)).

(** The counts of a batch entry add up to its number of requests. *)
Definition countsAddUp (t : value) : Prop :=
  exists s f n : nat,
    resultField t "successful_requests" = VNat s /\
    resultField t "failed_requests" = VNat f /\
    configurationField t "total_requests" = VNat n /\
    (s + f = n)%nat.

(** The answers that arrive are those of [env], request by request. *)
Definition agrees (env : Env) (events : list EventLoop.event) : Prop :=
  Forall (fun e => match e with
                   | EventLoop.Answer id r => network env id = r
                   end) events.

(** The outcomes recorded by the first [g] groups of a call. *)
Definition recordedUpTo (env : Env) (concurrency totalRequests g : nat)
    : list RequestOutcome :=
  flat_map (fun k => groupRecorded
                       (groupPromises env 0 concurrency totalRequests k))
           (seq 0 g).

(** A state of the event loop that matches the loop of the method after
    some number of groups. *)
Definition faithful (env : Env) (concurrency totalRequests : nat)
    (s : EventLoop.State) : Prop :=
  exists g : nat,
    EventLoop.batch s = (g * concurrency)%nat /\
    EventLoop.results s = recordedUpTo env concurrency totalRequests g /\
    if EventLoop.finished s
    then g = groupCount concurrency totalRequests /\ EventLoop.awaited s = []
    else (g < groupCount concurrency totalRequests)%nat /\
         EventLoop.awaited s = groupIds concurrency totalRequests g /\
         NoDup (map fst (EventLoop.arrived s)) /\
         Forall (fun p : nat * RequestOutcome =>
                   In (fst p) (EventLoop.awaited s) /\
                   settle (network env (fst p)) = Resolved (snd p) /\
                   ~ In (fst p) (EventLoop.inFlight s))
                (EventLoop.arrived s).

(** A computation that returns, the same value from every world, and
    changes nothing. *)
Definition returns {A} (m : M A) : Prop :=
  exists a, forall w, m w = (Return a, w).

(** An entry with results and response times, as [generateReport] reads
    them from a batch entry. *)
Definition hasResults (t : value) : Prop :=
  nullish t = false /\
  nullish (member t "results") = false /\
  nullish (resultField t "response_times") = false.

(** An entry that [formatReportAsText] can render: an object; none of its
    results is null; its load levels, if any, are an array of objects. *)
Definition formattable (t : value) : Prop :=
  nullish t = false /\
  (forall entries,
      Object_entries (member t "results") = Some entries ->
      Forall (fun kv : string * value => snd kv <> VNull) entries) /\
  (ToBoolean (member t "load_levels") = true ->
   exists levels,
     member t "load_levels" = VArray levels /\
     Forall (fun level => nullish level = false) levels).

(** An entry as the sweeps append them. *)
Definition sound (t : value) : Prop :=
  formattable t /\
  (strict_eq_string (member t "test_name") "Concurrent Connections Test"
   = true -> hasResults t).

Definition soundWorld (w : World) : Prop :=
  Forall sound (tests (results w)).

(** The arithmetic mean of integers. *)
Definition mean (xs : list Z) : Q :=
  (inject_Z (sum xs) / inject_Z (Z.of_nat (List.length xs)))%Q.

(** [x > threshold] *)
Definition above (threshold : Z) (x : Q) : bool :=
  negb (Qle_bool x (inject_Z threshold)).

(** The classification as the specification words it: the thresholds in
    order, the first match wins. *)
Definition scalabilityRating (meanSuccessRate meanThroughput : Q) : string :=
  if above 95 meanSuccessRate && above 800 meanThroughput
  then "Highly Scalable"
  else if above 90 meanSuccessRate && above 500 meanThroughput
  then "Scalable"
  else if above 80 meanSuccessRate && above 200 meanThroughput
  then "Moderately Scalable"
  else "Limited Scalability".

End Spec.

(* ================================================================== *)
(** ** Scenarios *)

Module Scenarios.
Import JS PerformanceTester.

(** A target that answers every request with 200 after 10 ms. *)
Definition healthy : nat -> reply := fun _ => Responds 200 10 2.

(** The same target, but the connection of the request of rank 1 is reset. *)
Definition oneReset : nat -> reply :=
  fun k => if (k =? 1)%nat then Fails "ECONNRESET" 3 else Responds 200 10 2.

(** A target that is down: every connection is refused. *)
Definition down : nat -> reply := fun _ => Fails "ECONNREFUSED" 1.

(** A run in which the preflight probe is answered, the sweeps talk to
    [net], the clock advances by 40 ms between two readings, the sampling
    timer fires as [ticks] tell and writing the report does what [fs]
    tells. *)
Definition run (net : nat -> reply) (ticks : list tick)
    (fs : string -> string -> option string) : Env :=
  {| startedAt := "2024-05-01T12:00:00.000Z";
     preflight := Responds 200 3 15;
     network := net;
     clock := fun k => 40 * Z.of_nat k;
     monitor := ticks;
     disk := fs |}.

Definition writable : string -> string -> option string := fun _ _ => None.

Definition readOnly : string -> string -> option string :=
  fun _ _ => Some "EACCES: permission denied".

(** A run against a target that cannot be reached at all. *)
Definition unreachable : Env :=
  {| startedAt := "2024-05-01T12:00:00.000Z";
     preflight := Fails "connect ECONNREFUSED 127.0.0.1:3001" 1;
     network := down;
     clock := fun k => 40 * Z.of_nat k;
     monitor := [];
     disk := writable |}.

(** The entry of a batch of 180 requests, 20 at a time, that took 200 ms and
    in which 171 requests were answered with 200 and 9 with 503: a success
    rate of exactly 95 percent at 900 requests per second. *)
Definition borderline : value :=
  testResultOf "/api/posts" 20 180 200
    (List.repeat {| statusCode := 200; duration := 12; responseSize := 2;
                    success := true |} 171
     ++ List.repeat {| statusCode := 503; duration := 30; responseSize := 0;
                       success := false |} 9)%list.

(** A firing of the sampling timer that finds the target healthy twice. *)
Definition goodTick : tick :=
  {| probe := Responds 200 2 15;
     reread := Responds 200 2 15;
     sampledAt := 1000;
     memoryUsage := VObject [("rss", VNumber (Fin 50000000))];
     uptime := VNumber (Fin 12) |}.

End Scenarios.

(* ================================================================== *)
(** ** Vocabulary for the sweeps and the summary *)

Module Sweeps.
Import JS PerformanceTester Spec.

(** The filter of [generateReport]: the entries of the batch scheduler. *)
Definition isBatch (t : value) : bool :=
  strict_eq_string (member t "test_name") "Concurrent Connections Test".

(** A batch entry that carries a success rate (percent), a throughput and an
    average response time (milliseconds), all finite. *)
Definition batchEntry (t : value) (stat : Z * Z * Z) : Prop :=
  isBatch t = true /\
  carries t (fst (fst stat), snd (fst stat)) /\
  nullish (resultField t "response_times") = false /\
  responseTime t "average" = VString (Z_to_string (snd stat) ++ "ms").

(** An entry of another sweep. *)
Definition otherEntry (t : value) : Prop :=
  nullish t = false /\ isBatch t = false.

(** The entries of a report, with the statistics of its batch entries in
    their order. *)
Inductive described : list value -> list (Z * Z * Z) -> Prop :=
| described_nil : described [] []
| described_batch (t : value) (ts : list value) (stat : Z * Z * Z)
    (stats : list (Z * Z * Z)) :
    batchEntry t stat -> described ts stats ->
    described (t :: ts) (stat :: stats)
| described_other (t : value) (ts : list value)
    (stats : list (Z * Z * Z)) :
    otherEntry t -> described ts stats -> described (t :: ts) stats.

(** The line of the load sweep for one level, from the entry of its batch. *)
Definition levelOf (load : nat) (t : value) : value :=
  VObject [("load_level", VNat load);
           ("success_rate", resultField t "success_rate");
           ("requests_per_second", resultField t "requests_per_second");
           ("avg_response_time", responseTime t "average")].

(** An entry of the batch scheduler for the given endpoint and
    configuration. *)
Definition batchFor (cfg : string * nat * nat) (t : value) : Prop :=
  exists (D : Z) (rs : list RequestOutcome),
    t = testResultOf (fst (fst cfg)) (snd (fst cfg)) (snd cfg) D rs.

(** What a sweep does from a world in which [first] requests have been
    dispatched and the entries of the report are sound.  It returns after
    dispatching [requests] more and appending sound entries to the report,
    having written no file; the requests it leaves unanswered are those of
    the [requests] that are never answered, and [left] others.  Or it does not return: then one of the [requests] is
    never answered.  It neither throws nor exits.  [Q] relates the value it
    returns and the entries it appends. *)
Definition sweeps {A} (env : Env) (first requests left : nat)
    (Q : A -> list value -> Prop) (m : M A) : Prop :=
  forall w,
    dispatched w = first ->
    soundWorld w ->
    match m w with
    | (Return a, w') =>
        exists new : list value,
          tests (results w') = (tests (results w) ++ new)%list /\
          Forall sound new /\
          Q a new /\
          dispatched w' = (first + requests)%nat /\
          files w' = files w /\
          unanswered w'
          = (unanswered w + hanging env first requests + left)%nat
    | (Diverge, _) => ~ allSettle env first requests
    | (Throw _, _) | (Exit _, _) => False
    end.

(** The entry of the resource sweep. *)
Definition resourceEntry : value :=
  VObject
    [("test_name", VString "Resource Usage Test");
     ("duration", VString "30000ms");
     ("measurements", VNat 0);
     ("memory_usage",
      VObject [("samples", VNat 0);
               ("monitoring_duration", VString "30s")])].

(** The summary [generateReport] computes from the statistics of the batch
    entries of a report with [total] entries. *)
Definition summaryOf (total : nat) (stats : list (Z * Z * Z)) : object :=
  let rates := map (fun s => fst (fst s)) stats in
  let throughputs := map (fun s => snd (fst s)) stats in
  let averages := map snd stats in
  [("total_tests", VNat total);
   ("average_requests_per_second",
    VNumber (Fin (Qfloor (mean throughputs + (1 # 2)))));
   ("average_response_time",
    VString (Z_to_string (Qfloor (mean averages + (1 # 2))) ++ "ms"));
   ("overall_performance",
    VString (if above 500 (mean throughputs) then "Excellent"
             else if above 200 (mean throughputs) then "Good"
             else "Needs Improvement"));
   ("scalability_rating",
    VString (scalabilityRating (mean rates) (mean throughputs)))].

End Sweeps.

(* ================================================================== *)
(** ** The login and registration pages

    The handlers of client/src/pages, as transitions of what the browser
    holds.  [API.post] is the environment: it fulfils with a response or
    fails with an error, both arbitrary values. *)

Module Client.
Import JS.

Inductive settled : Type :=
| Fulfilled (res : value)
| Failed (err : value).

(** [v.key]; [None] stands for the TypeError on undefined and null. *)
Definition read (v : value) (key : string) : option value :=
  if nullish v then None else Some (member v key).

(** [v?.key] *)
Definition optional (v : value) (key : string) : value :=
  if nullish v then VUndefined else member v key.

(** [a || b] *)
Definition or_else (a b : value) : value :=
  if ToBoolean a then a else b.

Record Browser : Type := {
  localStorage : list (string * string);
  alerts : list string          (* oldest first *)
}.



Definition alert (message : string) (b : Browser) : Browser :=
  {| localStorage := localStorage b; alerts := alerts b ++ [message] |}.


(** The state of the registration page. *)
Record RegisterPage : Type := {
  email : string;
  password : string;
  error : value
}.

(** [handleRegister], given how the post settles.  [None]: the TypeError of
    reading [err.response] off an error that is undefined or null leaves the
    handler, and nothing is changed. *)
Definition handleRegister (answer : settled) (page : RegisterPage)
    (b : Browser) : option (RegisterPage * Browser) :=
  match answer with
  | Fulfilled _ =>
      Some (page, alert "Registration successful! Please login." b)
  | Failed err =>
      match read err "response" with
      | Some response =>
          Some ({| email := email page;
                   password := password page;
                   error :=
                     or_else (optional (optional response "data") "message")
                             (VString "Registration failed") |},
                b)
      | None => None
      end
  end.

End Client.

(* ================================================================== *)
(** ** More scenarios *)

Module Cases.
Import JS PerformanceTester.

(** A target whose answers take longer and longer. *)
Definition staggered : nat -> reply :=
  fun k => Responds 200 (10 + Z.of_nat k) 2.

(** A tester that holds the given entries and has done nothing else. *)
Definition holding (entries : list value) : World :=
  {| results := {| timestamp := "2024-05-01T12:00:00.000Z";
                   tests := entries; summary := [] |};
     stderr := []; invocations := 0; dispatched := 0; clockReads := 0;
     files := []; unanswered := 0 |}.

(** The entry of a batch of 4 requests none of which was recorded. *)
Definition silent : value := testResultOf "/api/todos" 2 4 40 [].

(** The answers of three requests, the second one first. *)
Definition shuffled : list EventLoop.event :=
  [EventLoop.Answer 1 (staggered 1);
   EventLoop.Answer 0 (staggered 0);
   EventLoop.Answer 2 (staggered 2)].

(** A target on which the connections of the first two requests fail, the
    second one first; the other requests are answered. *)
Definition race : nat -> reply :=
  fun k => match k with
           | O => Fails "ECONNRESET" 9
           | S O => Fails "socket hang up" 4
           | _ => Responds 200 10 2
           end.

(** A target that answers every request but the one of rank [k], which it
    leaves unanswered. *)
Definition silentAt (k : nat) : nat -> reply :=
  fun i => if (i =? k)%nat then Hangs else Responds 200 10 2.

(** A timer firing whose probe is answered with 503. *)
Definition busyTick : tick :=
  {| probe := Responds 503 2 0;
     reread := Responds 200 2 15;
     sampledAt := 2000;
     memoryUsage := VNull;
     uptime := VNull |}.


(** A run against a healthy target whose health endpoint answers the
    preflight probe with 503: the target is reached but not ready. *)
Definition unready : Env :=
  {| startedAt := "2024-05-01T12:00:00.000Z";
     preflight := Responds 503 2 0;
     network := Scenarios.healthy;
     clock := fun k => 40 * Z.of_nat k;
     monitor := [];
     disk := Scenarios.writable |}.

(** A clock that stands still. *)
Definition frozen (net : nat -> reply) : Env :=
  {| startedAt := "2024-05-01T12:00:00.000Z";
     preflight := Responds 200 3 15;
     network := net;
     clock := fun _ => 1714564800000;
     monitor := [];
     disk := Scenarios.writable |}.

(** The error of a request the server refused with a message. *)
Definition refused : value :=
  VObject [("response",
            VObject [("status", VNumber (Fin 400));
                     ("data",
                      VObject [("message",
                                VString "Email already registered")])])].

Definition blankPage : Client.RegisterPage :=
  {| Client.email := "ada@example.org";
     Client.password := "secret";
     Client.error := VString EmptyString |}.

Definition freshBrowser : Client.Browser :=
  {| Client.localStorage := []; Client.alerts := [] |}.

End Cases.

(* ================================================================== *)
(** ** Properties *)

Import JS PerformanceTester Spec Sweeps.

Section MonadFacts.

Context {A B : Type}.

Lemma bind_return (m : M A) (k : A -> M B) (w w' : World) (a : A) :
  m w = (Return a, w') -> bind m k w = k a w'.
Proof. intros H. unfold bind. now rewrite H. Qed.

Lemma bind_throw (m : M A) (k : A -> M B) (w w' : World) (e : error) :
  m w = (Throw e, w') -> bind m k w = (Throw e, w').
Proof. intros H. unfold bind. now rewrite H. Qed.

Lemma bind_exit (m : M A) (k : A -> M B) (w w' : World) (c : Z) :
  m w = (Exit c, w') -> bind m k w = (Exit c, w').
Proof. intros H. unfold bind. now rewrite H. Qed.

Lemma pure_ret (a : A) : pure (ret a).
Proof. exists (Return a). reflexivity. Qed.

Lemma pure_throw (e : error) : pure (@throw A e).
Proof. exists (Throw e). reflexivity. Qed.

Lemma pure_bind (m : M A) (k : A -> M B) :
  pure m -> (forall a, pure (k a)) -> pure (bind m k).
Proof.
  intros [c Hm] Hk. destruct c as [a | e | code | ].
  - destruct (Hk a) as [c' Hc']. exists c'. intros w.
    unfold bind. now rewrite Hm, Hc'.
  - exists (Throw e). intros w. unfold bind. now rewrite Hm.
  - exists (Exit code). intros w. unfold bind. now rewrite Hm.
  - exists Diverge. intros w. unfold bind. now rewrite Hm.
Qed.

Lemma pure_foldM (f : B -> A -> M B) (xs : list A) :
  (forall acc x, pure (f acc x)) -> forall acc, pure (foldM f xs acc).
Proof.
  intros Hf. induction xs as [| x rest IH]; intros acc; simpl.
  - exists (Return acc). reflexivity.
  - destruct (Hf acc x) as [c Hc]. destruct c as [b | e | code | ].
    + destruct (IH b) as [c' Hc']. exists c'. intros w.
      unfold bind. now rewrite Hc, Hc'.
    + exists (Throw e). intros w. unfold bind. now rewrite Hc.
    + exists (Exit code). intros w. unfold bind. now rewrite Hc.
    + exists Diverge. intros w. unfold bind. now rewrite Hc.
Qed.

End MonadFacts.

Lemma pure_prop (v : value) (key : string) : pure (prop v key).
Proof. unfold prop. destruct (nullish v); [apply pure_throw | apply pure_ret]. Qed.

Lemma pure_entries_of (v : value) : pure (entries_of v).
Proof.
  unfold entries_of. destruct (Object_entries v); [apply pure_ret | apply pure_throw].
Qed.

Ltac pure_step :=
  match goal with
  | |- pure (bind _ _) => apply pure_bind; [| intros ?]
  | |- pure (ret _) => apply pure_ret
  | |- pure (throw _) => apply pure_throw
  | |- pure (foldM _ _ _) => apply pure_foldM; intros ? ?
  | |- pure (prop _ _) => apply pure_prop
  | |- pure (entries_of _) => apply pure_entries_of
  | |- pure (if ?c then _ else _) => destruct c
  | |- pure (match ?v with VArray _ => _ | _ => _ end) => destruct v
  | |- pure (let (_, _) := ?p in _) => destruct p
  end.

Lemma pure_formatTest (text : string) (it : nat * value) :
  pure (formatTest text it).
Proof. unfold formatTest. destruct it as [index test]. repeat pure_step. Qed.

(** C9. Formatting depends on the report alone: whatever the state of the
    tester, of the console and of the file system, the same report renders
    to the same text (or fails with the same error), and formatting changes
    none of them. *)
Theorem formatReportAsText_depends_on_report_only
    (report : Report) (w1 w2 : World) :
  fst (formatReportAsText report w1) = fst (formatReportAsText report w2) /\
  snd (formatReportAsText report w1) = w1.
Proof.
  assert (P : pure (formatReportAsText report)).
  { unfold formatReportAsText. apply pure_bind.
    - apply pure_foldM. intros acc x. apply pure_formatTest.
    - intros text. apply pure_ret. }
  destruct P as [c Hc]. rewrite (Hc w1), (Hc w2). split; reflexivity.
Qed.

(* ------------------------------------------------------------------ *)
(** *** The batch loop *)

Lemma JSON_parse_object (fields : object) (w : World) :
  JSON_parse (VObject fields) w
  = (Throw (SyntaxError "Unexpected token in JSON"), w).
Proof.
  unfold JSON_parse. cbn [ToString].
  replace (JSON_accepts "[object Object]") with false by (vm_compute; reflexivity).
  reflexivity.
Qed.

Lemma World_ext (r r' : Report) (e e' : list string) (i i' d d' c c' : nat)
    (f f' : list (string * string)) (u u' : nat) :
  r = r' -> e = e' -> i = i' -> d = d' -> c = c' -> f = f' -> u = u' ->
  {| results := r; stderr := e; invocations := i; dispatched := d;
     clockReads := c; files := f; unanswered := u |}
  = {| results := r'; stderr := e'; invocations := i'; dispatched := d';
       clockReads := c'; files := f'; unanswered := u' |}.
Proof. intros; subst; reflexivity. Qed.

Ltac same_world :=
  apply World_ext; simpl; try reflexivity; try lia.

(** How many of the requests of ranks [ids], counted from [first], are never
    answered. *)
Lemma hanging_app (env : Env) (first a n m : nat) :
  List.length
    (filter (fun i => pending (settle (network env (first + i))))
            (seq a (n + m)))
  = (List.length
       (filter (fun i => pending (settle (network env (first + i))))
               (seq a n))
     + List.length
         (filter (fun i => pending (settle (network env (first + i))))
                 (seq (a + n) m)))%nat.
Proof. rewrite seq_app, filter_app, length_app. reflexivity. Qed.

Lemma none_hanging (env : Env) (first a n : nat) :
  (forall i, (a <= i < a + n)%nat -> network env (first + i) <> Hangs) ->
  List.length
    (filter (fun i => pending (settle (network env (first + i)))) (seq a n))
  = 0%nat.
Proof.
  revert a. induction n as [| n IH]; intros a H; [reflexivity | ].
  cbn [seq filter].
  destruct (network env (first + a)) eqn:Ha;
    try (exfalso; apply (H a); [lia | exact Ha]);
    cbn [settle pending]; apply IH; intros i Hi; apply H; lia.
Qed.

Section BatchLoop.

Variable env : Env.
Variable endpoint : string.

Lemma dispatchAll_spec (n : nat) :
  forall (first b : nat) (w : World),
    dispatched w = (first + b)%nat ->
    dispatchAll env endpoint n w =
    (Return (map (fun i => settle (network env (first + i))) (seq b n)),
     {| results := results w; stderr := stderr w;
        invocations := (invocations w + n)%nat;
        dispatched := (first + b + n)%nat;
        clockReads := clockReads w; files := files w;
        unanswered :=
          (unanswered w
           + List.length
               (filter (fun i => pending (settle (network env (first + i))))
                       (seq b n)))%nat |}).
Proof.
  induction n as [| n IH]; intros first b w Hd.
  - simpl. unfold ret. destruct w; simpl in *. subst.
    f_equal. same_world.
  - cbn [dispatchAll seq map filter]. unfold bind at 1.
    unfold dispatch, makeRequest.
    unfold bind at 1.
    rewrite (IH first (S b)) by (simpl; lia).
    unfold ret. simpl. rewrite Hd.
    f_equal. same_world.
    destruct (pending (settle (network env (first + b)))); simpl; lia.
Qed.

(** Awaiting one group: its outcomes are appended, or the rejection is
    caught and reported, and nothing is appended. *)
Lemma await_group (ps : list promise) (results0 : list RequestOutcome)
    (w : World) :
  groupSettles ps = true ->
  try_catch
    (batchResults <- Promise_all ps ;;
     ret (results0 ++ batchResults)%list)
    (fun error =>
       console_error (nl ++ "❌ Batch error: " ++ error_message error) ;;;
       ret results0) w
  = (Return (results0 ++ groupRecorded ps)%list,
     {| results := results w; stderr := (stderr w ++ groupErrors ps)%list;
        invocations := invocations w; dispatched := dispatched w;
        clockReads := clockReads w; files := files w;
        unanswered := unanswered w |}).
Proof.
  unfold try_catch, bind, Promise_all, groupRecorded, groupErrors,
    groupSettles.
  destruct (first_rejection ps) as [e |]; simpl.
  - intros _. rewrite List.app_nil_r. reflexivity.
  - intros Hps. apply Bool.negb_true_iff in Hps. rewrite Hps. simpl.
    rewrite List.app_nil_r. destruct w; reflexivity.
Qed.

(** Awaiting a group none of whose requests fails and one of whose requests
    is never answered: the loop stays there. *)
Lemma await_group_stalls (ps : list promise) (results0 : list RequestOutcome)
    (w : World) :
  groupSettles ps = false ->
  try_catch
    (batchResults <- Promise_all ps ;;
     ret (results0 ++ batchResults)%list)
    (fun error =>
       console_error (nl ++ "❌ Batch error: " ++ error_message error) ;;;
       ret results0) w
  = (Diverge, w).
Proof.
  unfold try_catch, bind, Promise_all, groupSettles.
  destruct (first_rejection ps) as [e |]; [discriminate | ].
  intros Hps. apply Bool.negb_false_iff in Hps. rewrite Hps. reflexivity.
Qed.

(** Group [g] exists exactly when the loop variable [g * C] is below [N]. *)
Lemma group_exists (C N g : nat) :
  (0 < C)%nat ->
  (g * C <? N)%nat = true <-> (g < groupCount C N)%nat.
Proof.
  intros HC. unfold groupCount. rewrite Nat.ltb_lt. split; intros H.
  - apply Nat.div_le_lower_bound; [lia | ].
    rewrite Nat.mul_succ_r. lia.
  - destruct (Nat.lt_ge_cases (g * C) N) as [Hlt | Hge]; [exact Hlt | exfalso].
    assert ((N + C - 1) / C < S g)%nat; [| lia].
    apply Nat.Div0.div_lt_upper_bound.
    rewrite Nat.mul_succ_r. lia.
Qed.

Lemma groupCount_le (C N : nat) : (0 < C)%nat -> (groupCount C N <= N)%nat.
Proof.
  intros HC. unfold groupCount.
  destruct N as [| n].
  - rewrite Nat.div_small; lia.
  - assert ((S n + C - 1) / C < S (S n))%nat; [| lia].
    apply Nat.Div0.div_lt_upper_bound; nia.
Qed.

Lemma batches_spec (C N first : nat) (HC : (0 < C)%nat) :
  forall (fuel g : nat) (results0 : list RequestOutcome) (w : World),
    (groupCount C N - g <= fuel)%nat ->
    dispatched w = (first + Nat.min (g * C) N)%nat ->
    (forall k, (g <= k < groupCount C N)%nat ->
               groupSettles (groupPromises env first C N k) = true) ->
    batches env fuel endpoint C N (g * C) results0 w =
    (Return
       (results0 ++
        flat_map (fun k => groupRecorded (groupPromises env first C N k))
                 (seq g (groupCount C N - g)))%list,
     {| results := results w;
        stderr :=
          (stderr w ++
           flat_map (fun k => groupErrors (groupPromises env first C N k))
                    (seq g (groupCount C N - g)))%list;
        invocations := (invocations w + (N - Nat.min (g * C) N))%nat;
        dispatched := (first + N)%nat;
        clockReads := clockReads w; files := files w;
        unanswered :=
          (unanswered w
           + List.length
               (filter (fun i => pending (settle (network env (first + i))))
                       (seq (Nat.min (g * C) N)
                            (N - Nat.min (g * C) N))))%nat |}).
Proof.
  induction fuel as [| fuel IH]; intros g results0 w Hfuel Hd Hsettle.
  - destruct (g * C <? N)%nat eqn:Hlt.
    + apply group_exists in Hlt; [lia | exact HC].
    + cbn [batches]. rewrite Hlt.
      assert (Hg : ~ (g < groupCount C N)%nat)
        by (rewrite <- group_exists, Hlt by exact HC; discriminate).
      apply Nat.ltb_ge in Hlt.
      replace (groupCount C N - g)%nat with 0%nat by lia.
      replace (N - Nat.min (g * C) N)%nat with 0%nat by lia.
      simpl. rewrite !List.app_nil_r. unfold ret.
      f_equal. destruct w; simpl in *. same_world.
  - destruct (g * C <? N)%nat eqn:Hlt.
    + pose proof Hlt as Hg. apply group_exists in Hg; [| exact HC].
      cbn [batches]. rewrite Hlt. apply Nat.ltb_lt in Hlt.
      unfold bind at 1.
      rewrite (dispatchAll_spec _ first (g * C)) by lia.
      unfold bind at 1.
      fold (groupIds C N g). fold (groupPromises env first C N g).
      rewrite await_group by (apply Hsettle; lia).
      cbn [stderr results invocations dispatched clockReads files unanswered].
      replace (g * C + C)%nat with (S g * C)%nat by lia.
      rewrite IH;
        cbn [stderr results invocations dispatched clockReads files
             unanswered];
        [| lia | rewrite Nat.mul_succ_l; lia
         | intros k Hk; apply Hsettle; lia].
      replace (groupCount C N - g)%nat with (S (groupCount C N - S g)) by lia.
      cbn [seq flat_map].
      rewrite <- !List.app_assoc.
      f_equal. same_world.
      replace (Nat.min (g * C) N) with (g * C)%nat by lia.
      replace (N - g * C)%nat
        with (Nat.min C (N - g * C) + (N - Nat.min (S g * C) N))%nat
        by (rewrite Nat.mul_succ_l; lia).
      rewrite hanging_app. unfold groupIds.
      replace (g * C + Nat.min C (N - g * C))%nat
        with (Nat.min (g * C + C) N) by lia.
      replace (S g * C)%nat with (g * C + C)%nat by lia.
      replace (C + g * C)%nat with (g * C + C)%nat by lia.
      lia.
    + cbn [batches]. rewrite Hlt.
      assert (Hg : ~ (g < groupCount C N)%nat)
        by (rewrite <- group_exists, Hlt by exact HC; discriminate).
      apply Nat.ltb_ge in Hlt.
      replace (groupCount C N - g)%nat with 0%nat by lia.
      replace (N - Nat.min (g * C) N)%nat with 0%nat by lia.
      simpl. rewrite !List.app_nil_r. unfold ret.
      f_equal. destruct w; simpl in *. same_world.
Qed.

(** The loop never gets past a group in which no request fails and one is
    never answered, however many iterations it is given. *)
Lemma batches_stall (C N first : nat) (HC : (0 < C)%nat) (k : nat) :
  (k < groupCount C N)%nat ->
  groupSettles (groupPromises env first C N k) = false ->
  forall (fuel g : nat) (results0 : list RequestOutcome) (w : World),
    (g <= k)%nat ->
    dispatched w = (first + Nat.min (g * C) N)%nat ->
    fst (batches env fuel endpoint C N (g * C) results0 w) = Diverge.
Proof.
  intros Hk Hstall.
  induction fuel as [| fuel IH]; intros g results0 w Hg Hd.
  - assert (Hlt : (g * C <? N)%nat = true)
      by (apply group_exists; [exact HC | lia]).
    cbn [batches]. rewrite Hlt. reflexivity.
  - assert (Hlt : (g * C <? N)%nat = true)
      by (apply group_exists; [exact HC | lia]).
    cbn [batches]. rewrite Hlt. apply Nat.ltb_lt in Hlt.
    unfold bind at 1.
    rewrite (dispatchAll_spec _ first (g * C)) by lia.
    unfold bind at 1.
    fold (groupIds C N g). fold (groupPromises env first C N g).
    destruct (groupSettles (groupPromises env first C N g)) eqn:Hgroup.
    + rewrite await_group by exact Hgroup.
      assert (g <> k) by (intros ->; congruence).
      replace (g * C + C)%nat with (S g * C)%nat by lia.
      apply IH; [lia | ].
      cbn [dispatched]. rewrite Nat.mul_succ_l. lia.
    + rewrite await_group_stalls by exact Hgroup. reflexivity.
Qed.

End BatchLoop.

(** What one call of the batch scheduler does, for a positive concurrency,
    when its loop gets past every group: it returns, having issued all [N]
    requests, and the entry it returns and appends to the report is computed
    from the outcomes of the groups in which no request failed. *)
Lemma testConcurrentConnections_spec (env : Env) (endpoint : string)
    (C N : nat) (w : World) :
  (0 < C)%nat ->
  everyGroupSettles env (dispatched w) C N ->
  testConcurrentConnections env endpoint C N w =
  (Return
     (testResultOf endpoint C N
        (clock env (S (clockReads w)) - clock env (clockReads w))
        (recordedOutcomes env (dispatched w) C N)),
   {| results :=
        {| timestamp := timestamp (results w);
           tests :=
             (tests (results w) ++
              [testResultOf endpoint C N
                 (clock env (S (clockReads w)) - clock env (clockReads w))
                 (recordedOutcomes env (dispatched w) C N)])%list;
           summary := summary (results w) |};
      stderr := (stderr w ++ batchErrors env (dispatched w) C N)%list;
      invocations := (invocations w + N)%nat;
      dispatched := (dispatched w + N)%nat;
      clockReads := S (S (clockReads w));
      files := files w;
      unanswered := (unanswered w + hanging env (dispatched w) N)%nat |}).
Proof.
  intros HC Hsettle. unfold testConcurrentConnections.
  unfold bind at 1. unfold Date_now at 1.
  unfold bind at 1.
  pose proof (batches_spec env endpoint C N (dispatched w) HC N 0 []
                {| results := results w; stderr := stderr w;
                   invocations := invocations w; dispatched := dispatched w;
                   clockReads := S (clockReads w); files := files w;
                   unanswered := unanswered w |}) as H.
  cbn [Nat.mul stderr results invocations dispatched clockReads files
       unanswered] in H.
  rewrite Nat.min_0_l, !Nat.sub_0_r, Nat.add_0_r in H.
  rewrite H;
    [| pose proof (groupCount_le C N HC); lia | reflexivity
     | intros k Hk; apply Hsettle; lia].
  clear H.
  unfold bind at 1. unfold Date_now at 1.
  cbn [stderr results invocations dispatched clockReads files unanswered].
  unfold bind, push_test, ret.
  cbn [stderr results invocations dispatched clockReads files unanswered app].
  reflexivity.
Qed.

(** A call whose loop meets a group in which no request fails and one is
    never answered does not return. *)
Lemma testConcurrentConnections_stalls (env : Env) (endpoint : string)
    (C N : nat) (w : World) (k : nat) :
  (0 < C)%nat ->
  (k < groupCount C N)%nat ->
  groupSettles (groupPromises env (dispatched w) C N k) = false ->
  fst (testConcurrentConnections env endpoint C N w) = Diverge.
Proof.
  intros HC Hk Hstall. unfold testConcurrentConnections.
  unfold bind at 1. unfold Date_now at 1.
  unfold bind at 1.
  pose proof (batches_stall env endpoint C N (dispatched w) HC k Hk Hstall
                N 0 []
                {| results := results w; stderr := stderr w;
                   invocations := invocations w; dispatched := dispatched w;
                   clockReads := S (clockReads w); files := files w;
                   unanswered := unanswered w |}) as H.
  cbn [Nat.mul dispatched] in H.
  specialize (H ltac:(lia) ltac:(rewrite Nat.min_0_l; lia)).
  destruct (batches env N endpoint C N 0 [] _) as [[a | e | c |] w'];
    cbn [fst] in H; try discriminate H.
  reflexivity.
Qed.

(* ------------------------------------------------------------------ *)
(** *** The outcomes a call records *)

Section Recorded.

Variable env : Env.
Variables first C N : nat.
Hypothesis HC : (0 < C)%nat.

Lemma outcomes_app (ps qs : list promise) :
  outcomes (ps ++ qs) = (outcomes ps ++ outcomes qs)%list.
Proof. unfold outcomes. apply flat_map_app. Qed.

(** The groups are consecutive, of at most [C] requests, and cover the [N]
    requests. *)
Lemma groups_from (n : nat) :
  forall g, n = (groupCount C N - g)%nat ->
    flat_map (groupIds C N) (seq g n)
    = seq (Nat.min (g * C) N) (N - Nat.min (g * C) N).
Proof.
  induction n as [| n IH]; intros g Hn.
  - assert (Hg : ~ (g < groupCount C N)%nat) by lia.
    rewrite <- group_exists in Hg by exact HC.
    apply Bool.not_true_is_false, Nat.ltb_ge in Hg.
    replace (N - Nat.min (g * C) N)%nat with 0%nat by lia. reflexivity.
  - assert (Hg : (g < groupCount C N)%nat) by lia.
    rewrite <- group_exists in Hg by exact HC. apply Nat.ltb_lt in Hg.
    cbn [seq flat_map]. rewrite (IH (S g)) by lia.
    unfold groupIds at 1.
    replace (Nat.min (g * C) N) with (g * C)%nat by lia.
    replace (N - g * C)%nat
      with (Nat.min C (N - g * C) + (N - Nat.min (S g * C) N))%nat
      at 2 by (rewrite Nat.mul_succ_l; lia).
    rewrite seq_app. do 2 f_equal. rewrite Nat.mul_succ_l. lia.
Qed.

Lemma groups_cover :
  flat_map (groupIds C N) (seq 0 (groupCount C N)) = seq 0 N.
Proof.
  rewrite (groups_from (groupCount C N) 0) by lia.
  cbn [Nat.mul]. rewrite Nat.min_0_l, Nat.sub_0_r. reflexivity.
Qed.

Lemma groupIds_size (g : nat) : (List.length (groupIds C N g) <= C)%nat.
Proof. unfold groupIds. rewrite length_seq. lia. Qed.

Lemma groupRecorded_length (ps : list promise) :
  (List.length (groupRecorded ps) <= List.length ps)%nat.
Proof.
  unfold groupRecorded. destruct (first_rejection ps); simpl; [lia | ].
  unfold outcomes. induction ps as [| p ps IH]; simpl; [lia | ].
  destruct p; simpl; lia.
Qed.

Lemma flat_map_length_le {X Y Z : Type} (f : X -> list Y) (h : X -> list Z)
    (xs : list X) :
  (forall x, (List.length (f x) <= List.length (h x))%nat) ->
  (List.length (flat_map f xs) <= List.length (flat_map h xs))%nat.
Proof.
  intros Hle. induction xs as [| x xs IH]; simpl; [lia | ].
  rewrite !length_app. specialize (Hle x). lia.
Qed.

Lemma recordedOutcomes_length :
  (List.length (recordedOutcomes env first C N) <= N)%nat.
Proof.
  unfold recordedOutcomes.
  etransitivity.
  - apply (flat_map_length_le _ (groupIds C N)). intros g.
    etransitivity; [apply groupRecorded_length | ].
    unfold groupPromises. rewrite length_map. lia.
  - rewrite groups_cover, length_seq. lia.
Qed.

Lemma no_rejection (ids : list nat) :
  (forall i, In i ids -> exists status elapsed size,
      network env (first + i) = Responds status elapsed size) ->
  first_rejection (map (fun i => settle (network env (first + i))) ids) = None.
Proof.
  unfold first_rejection.
  induction ids as [| i ids IH]; intros H; simpl; [reflexivity | ].
  destruct (H i (or_introl eq_refl)) as (st & el & sz & Hi).
  rewrite Hi. simpl. apply IH. intros j Hj. apply H. now right.
Qed.

Lemma outcomes_all_respond (ids : list nat) :
  (forall i, In i ids -> exists status elapsed size,
      network env (first + i) = Responds status elapsed size) ->
  List.length (outcomes (map (fun i => settle (network env (first + i))) ids))
  = List.length ids.
Proof.
  unfold outcomes.
  induction ids as [| i ids IH]; intros H; simpl; [reflexivity | ].
  destruct (H i (or_introl eq_refl)) as (st & el & sz & Hi).
  rewrite Hi. simpl. f_equal. apply IH. intros j Hj. apply H. now right.
Qed.

(** When no request fails, what is recorded is the outcome of every request,
    in the order of dispatch. *)
Lemma recordedOutcomes_all_respond :
  allRespond env first N ->
  recordedOutcomes env first C N
  = outcomes (map (fun i => settle (network env (first + i))) (seq 0 N)).
Proof.
  intros Hall. rewrite <- groups_cover. unfold recordedOutcomes.
  assert (Hin : forall g i, In i (groupIds C N g) -> (i < N)%nat).
  { intros g i Hi. unfold groupIds in Hi. apply in_seq in Hi. lia. }
  induction (seq 0 (groupCount C N)) as [| g gs IH]; [reflexivity | ].
  cbn [flat_map]. rewrite map_app, outcomes_app, <- IH. f_equal.
  unfold groupRecorded, groupPromises.
  rewrite no_rejection; [reflexivity | ].
  intros i Hi. apply Hall. exact (Hin g i Hi).
Qed.

Lemma recordedOutcomes_complete :
  allRespond env first N ->
  List.length (recordedOutcomes env first C N) = N.
Proof.
  intros Hall. rewrite recordedOutcomes_all_respond by exact Hall.
  rewrite outcomes_all_respond.
  - apply length_seq.
  - intros i Hi. apply in_seq in Hi. apply Hall. lia.
Qed.

Lemma none_pending (ids : list nat) :
  (forall i, In i ids -> network env (first + i) <> Hangs) ->
  existsb pending (map (fun i => settle (network env (first + i))) ids)
  = false.
Proof.
  induction ids as [| i ids IH]; intros H; [reflexivity | ].
  cbn [map existsb]. rewrite IH by (intros j Hj; apply H; now right).
  pose proof (H i (or_introl eq_refl)) as Hi.
  destruct (network env (first + i)); [reflexivity | reflexivity | ].
  now contradiction Hi.
Qed.

(** The loop gets past every group when every request is answered or
    fails. *)
Lemma settles_when_all_settle :
  allSettle env first N -> everyGroupSettles env first C N.
Proof.
  clear HC. intros Hall g _. unfold groupSettles.
  destruct (first_rejection _); [reflexivity | ].
  unfold groupPromises. rewrite none_pending; [reflexivity | ].
  intros i Hi. unfold groupIds in Hi. apply in_seq in Hi. apply Hall. lia.
Qed.

End Recorded.

(** The member of a group whose rejection [Promise.all] takes: one that
    rejects, and none rejects before it. *)
Lemma earliest_spec (ps : list promise) :
  forall found : option (error * Z),
    match earliest ps found with
    | None =>
        found = None /\
        forall e t, ~ In (Rejected e t) ps
    | Some (e, t) =>
        (found = Some (e, t) \/ In (Rejected e t) ps) /\
        forall e' t',
          found = Some (e', t') \/ In (Rejected e' t') ps -> t <= t'
    end.
Proof.
  induction ps as [| p ps IH]; intros found.
  - cbn [earliest]. destruct found as [[e t] |].
    + split; [now left | ].
      intros e' t' [H | []]. injection H as _ <-. lia.
    + split; [reflexivity | intros e t []].
  - destruct p as [o | e t |]; cbn [earliest].
    + specialize (IH found). destruct (earliest ps found) as [[e1 t1] |].
      * destruct IH as [Hin Hmin]. split.
        -- destruct Hin as [H | H]; [now left | right; now right].
        -- intros e' t' [H | [H | H]];
             [apply (Hmin e' t'); now left | discriminate H
              | apply (Hmin e' t'); now right].
      * destruct IH as [Hnone Hno]. split; [exact Hnone | ].
        intros e0 t0 [H | H]; [discriminate H | exact (Hno e0 t0 H)].
    + destruct found as [[e0 t0] |].
      * destruct (t <? t0) eqn:Hlt.
        -- apply Z.ltb_lt in Hlt. specialize (IH (Some (e, t))).
           destruct (earliest ps (Some (e, t))) as [[e1 t1] |].
           ++ destruct IH as [Hin Hmin]. split.
              ** right. destruct Hin as [H | H];
                   [injection H as <- <-; now left | now right].
              ** intros e' t' [H | [H | H]].
                 --- injection H as _ <-.
                     specialize (Hmin e t (or_introl eq_refl)). lia.
                 --- injection H as _ <-. apply (Hmin e t). now left.
                 --- apply (Hmin e' t'). now right.
           ++ destruct IH as [H _]. discriminate H.
        -- apply Z.ltb_ge in Hlt. specialize (IH (Some (e0, t0))).
           destruct (earliest ps (Some (e0, t0))) as [[e1 t1] |].
           ++ destruct IH as [Hin Hmin]. split.
              ** destruct Hin as [H | H]; [now left | right; now right].
              ** intros e' t' [H | [H | H]].
                 --- apply (Hmin e' t'). now left.
                 --- injection H as _ <-.
                     specialize (Hmin e0 t0 (or_introl eq_refl)). lia.
                 --- apply (Hmin e' t'). now right.
           ++ destruct IH as [H _]. discriminate H.
      * specialize (IH (Some (e, t))).
        destruct (earliest ps (Some (e, t))) as [[e1 t1] |].
        -- destruct IH as [Hin Hmin]. split.
           ++ right. destruct Hin as [H | H];
                [injection H as <- <-; now left | now right].
           ++ intros e' t' [H | [H | H]].
              ** discriminate H.
              ** injection H as _ <-. apply (Hmin e t). now left.
              ** apply (Hmin e' t'). now right.
        -- destruct IH as [H _]. discriminate H.
    + specialize (IH found). destruct (earliest ps found) as [[e1 t1] |].
      * destruct IH as [Hin Hmin]. split.
        -- destruct Hin as [H | H]; [now left | right; now right].
        -- intros e' t' [H | [H | H]];
             [apply (Hmin e' t'); now left | discriminate H
              | apply (Hmin e' t'); now right].
      * destruct IH as [Hnone Hno]. split; [exact Hnone | ].
        intros e0 t0 [H | H]; [discriminate H | exact (Hno e0 t0 H)].
Qed.

Lemma first_rejection_none (ps : list promise) :
  first_rejection ps = None <-> forall e t, ~ In (Rejected e t) ps.
Proof.
  unfold first_rejection. pose proof (earliest_spec ps None) as H.
  destruct (earliest ps None) as [[e t] |]; cbn [option_map]; split.
  - discriminate.
  - intros Hno. destruct H as [[H | H] _]; [discriminate H | ].
    now contradiction (Hno e t).
  - intros _. apply H.
  - reflexivity.
Qed.

Lemma first_rejection_some (ps : list promise) (e : error) :
  first_rejection ps = Some e ->
  exists t, In (Rejected e t) ps /\
            forall e' t', In (Rejected e' t') ps -> t <= t'.
Proof.
  unfold first_rejection. pose proof (earliest_spec ps None) as H.
  destruct (earliest ps None) as [[e1 t1] |]; cbn [option_map fst];
    [| discriminate].
  intros Heq. injection Heq as <-. destruct H as [[H | H] Hmin];
    [discriminate H | ].
  exists t1. split; [exact H | ].
  intros e' t' Hin. apply (Hmin e' t'). now right.
Qed.

(* ------------------------------------------------------------------ *)
(** *** Counts of a batch *)

Lemma filter_split_length {X : Type} (p : X -> bool) (xs : list X) :
  (List.length (filter p xs) + (List.length xs - List.length (filter p xs))
   = List.length xs)%nat.
Proof. pose proof (filter_length_le p xs). lia. Qed.

(** C1, as the code has it. For every entry produced by a call of the batch
    scheduler with a positive concurrency, successCount + failureCount is the
    number of recorded outcomes; it is at most totalRequests, and it is
    totalRequests when no request of the call ends in a transport error.
    The call produces its entry when its loop gets past every group: in
    each group a request fails or all requests are answered. *)
Theorem recorded_counts_add_up
    (env : Env) (endpoint : string) (C N : nat) (w : World) :
  (0 < C)%nat ->
  everyGroupSettles env (dispatched w) C N ->
  exists (t : value) (w' : World) (s f : nat),
    testConcurrentConnections env endpoint C N w = (Return t, w') /\
    resultField t "successful_requests" = VNat s /\
    resultField t "failed_requests" = VNat f /\
    configurationField t "total_requests" = VNat N /\
    (s + f)%nat = List.length (recordedOutcomes env (dispatched w) C N) /\
    (s + f <= N)%nat /\
    (allRespond env (dispatched w) N -> (s + f)%nat = N).
Proof.
  intros HC Hsettle. rewrite testConcurrentConnections_spec by assumption.
  set (rs := recordedOutcomes env (dispatched w) C N).
  eexists. eexists.
  exists (List.length (filter success rs)).
  exists (List.length rs - List.length (filter success rs))%nat.
  split; [reflexivity | ].
  split; [reflexivity | ]. split; [reflexivity | ]. split; [reflexivity | ].
  rewrite filter_split_length.
  split; [reflexivity | ]. split.
  - apply recordedOutcomes_length. exact HC.
  - intros Hall. apply recordedOutcomes_complete; assumption.
Qed.

Lemma recorded_counts_add_up_witness :
  (0 < 2)%nat /\
  everyGroupSettles (Scenarios.run Scenarios.oneReset [] Scenarios.writable)
    (dispatched
       (new_PerformanceTester
          (Scenarios.run Scenarios.oneReset [] Scenarios.writable))) 2 4 /\
  exists (t : value) (w' : World) (s f : nat),
    testConcurrentConnections
      (Scenarios.run Scenarios.oneReset [] Scenarios.writable)
      "/api/users" 2 4
      (new_PerformanceTester
         (Scenarios.run Scenarios.oneReset [] Scenarios.writable))
    = (Return t, w') /\
    resultField t "successful_requests" = VNat s /\
    resultField t "failed_requests" = VNat f /\
    configurationField t "total_requests" = VNat 4 /\
    (s + f)%nat =
      List.length
        (recordedOutcomes
           (Scenarios.run Scenarios.oneReset [] Scenarios.writable)
           (dispatched
              (new_PerformanceTester
                 (Scenarios.run Scenarios.oneReset [] Scenarios.writable)))
           2 4) /\
    (s + f <= 4)%nat /\
    (allRespond (Scenarios.run Scenarios.oneReset [] Scenarios.writable)
       (dispatched
          (new_PerformanceTester
             (Scenarios.run Scenarios.oneReset [] Scenarios.writable))) 4 ->
     (s + f)%nat = 4%nat).
Proof.
  assert (Hsettle :
    everyGroupSettles (Scenarios.run Scenarios.oneReset [] Scenarios.writable)
      (dispatched
         (new_PerformanceTester
            (Scenarios.run Scenarios.oneReset [] Scenarios.writable))) 2 4).
  { intros [| [| g]] Hg; [reflexivity | reflexivity | ].
    exfalso. revert Hg. vm_compute. lia. }
  split; [lia | ]. split; [exact Hsettle | ].
  apply (recorded_counts_add_up
           (Scenarios.run Scenarios.oneReset [] Scenarios.writable)
           "/api/users" 2 4
           (new_PerformanceTester
              (Scenarios.run Scenarios.oneReset [] Scenarios.writable))).
  - lia.
  - exact Hsettle.
Defined.

Lemma VNat_inj (a b : nat) : VNat a = VNat b -> a = b.
Proof. unfold VNat. intros H. injection H as H. lia. Qed.

(** C1 fails as stated: with 4 requests, 2 at a time, and the connection of
    one request reset, the entry records 2 successes and 0 failures. *)
Lemma counts_miss_a_dropped_group :
  exists (t : value) (w' : World),
    testConcurrentConnections
      (Scenarios.run Scenarios.oneReset [] Scenarios.writable)
      "/api/users" 2 4
      (new_PerformanceTester
         (Scenarios.run Scenarios.oneReset [] Scenarios.writable))
    = (Return t, w') /\
    resultField t "successful_requests" = VNat 2 /\
    resultField t "failed_requests" = VNat 0 /\
    configurationField t "total_requests" = VNat 4 /\
    ~ countsAddUp t.
Proof.
  eexists. eexists. split; [vm_compute; reflexivity | ].
  split; [reflexivity | ]. split; [reflexivity | ]. split; [reflexivity | ].
  intros (s & f & n & Hs & Hf & Hn & Hsum).
  apply (VNat_inj 2 s) in Hs. apply (VNat_inj 0 f) in Hf.
  apply (VNat_inj 4 n) in Hn. lia.
Qed.

(* ------------------------------------------------------------------ *)
(** *** Transport errors *)

Lemma outcomes_without_rejection (ps : list promise) :
  first_rejection ps = None -> existsb pending ps = false ->
  List.length (outcomes ps) = List.length ps.
Proof.
  intros Hnone. pose proof (proj1 (first_rejection_none ps) Hnone) as Hno.
  clear Hnone. unfold outcomes.
  induction ps as [| p ps IH]; simpl; [reflexivity | ].
  destruct p as [o | e t |]; simpl; intros Hpending.
  - f_equal. apply IH; [| exact Hpending].
    intros e t Hin. apply (Hno e t). now right.
  - exfalso. apply (Hno e t). now left.
  - discriminate Hpending.
Qed.

(** The requests of a group that fail are its promises that reject. *)
Lemma rejected_member (env : Env) (first : nat) (ids : list nat)
    (e : error) (t : Z) :
  In (Rejected e t) (map (fun i => settle (network env (first + i))) ids) <->
  exists i message,
    In i ids /\ network env (first + i) = Fails message t /\
    e = TransportError message.
Proof.
  rewrite in_map_iff. split.
  - intros (i & Hi & Hin). exists i.
    destruct (network env (first + i)) as [st el sz | m t0 |] eqn:Hnet;
      try discriminate Hi.
    cbn [settle] in Hi. injection Hi as <- <-.
    exists m. repeat split; assumption.
  - intros (i & m & Hin & Hnet & ->). exists i. rewrite Hnet.
    split; [reflexivity | exact Hin].
Qed.

(** C2, as the code has it. A transport error on one request does not abort
    the run and never leaves the batch scheduler: when the loop gets past
    every group (in each group a request fails or all requests are
    answered), the call returns its entry after issuing all N requests.  For
    a group in which a request failed it reports, once, the error of the
    request of the group that failed first, and it records no outcome, for
    the failing request or for any other request of the group; for a group
    in which no request failed it reports nothing and records the outcomes
    of all its requests, in the order of dispatch. *)
Theorem transport_error_drops_its_group
    (env : Env) (endpoint : string) (C N : nat) (w : World) :
  (0 < C)%nat ->
  everyGroupSettles env (dispatched w) C N ->
  (exists (t : value) (w' : World),
      testConcurrentConnections env endpoint C N w = (Return t, w') /\
      invocations w' = (invocations w + N)%nat /\
      stderr w'
      = (stderr w ++
         flat_map (fun g => groupErrors
                              (groupPromises env (dispatched w) C N g))
                  (seq 0 (groupCount C N)))%list /\
      tests (results w') = (tests (results w) ++ [t])%list) /\
  fst (batches env N endpoint C N 0 [] w)
  = Return
      (flat_map (fun g => groupRecorded
                            (groupPromises env (dispatched w) C N g))
                (seq 0 (groupCount C N))) /\
  (forall g, (g < groupCount C N)%nat ->
     ((forall i message elapsed,
          In i (groupIds C N g) ->
          network env (dispatched w + i) <> Fails message elapsed) ->
      groupErrors (groupPromises env (dispatched w) C N g) = [] /\
      groupRecorded (groupPromises env (dispatched w) C N g)
      = outcomes (groupPromises env (dispatched w) C N g) /\
      List.length (outcomes (groupPromises env (dispatched w) C N g))
      = List.length (groupIds C N g)) /\
     ((exists i message elapsed,
          In i (groupIds C N g) /\
          network env (dispatched w + i) = Fails message elapsed) ->
      groupRecorded (groupPromises env (dispatched w) C N g) = [] /\
      exists i message elapsed,
        In i (groupIds C N g) /\
        network env (dispatched w + i) = Fails message elapsed /\
        (forall j message' elapsed',
            In j (groupIds C N g) ->
            network env (dispatched w + j) = Fails message' elapsed' ->
            elapsed <= elapsed') /\
        groupErrors (groupPromises env (dispatched w) C N g)
        = [nl ++ "❌ Batch error: " ++ message])).
Proof.
  intros HC Hsettle. split; [| split].
  - rewrite testConcurrentConnections_spec by assumption.
    eexists. eexists. split; [reflexivity | ].
    cbn [invocations stderr results tests]. repeat split.
  - pose proof (batches_spec env endpoint C N (dispatched w) HC N 0 [] w) as H.
    cbn [Nat.mul] in H. rewrite Nat.min_0_l, !Nat.sub_0_r, Nat.add_0_r in H.
    rewrite H;
      [reflexivity | pose proof (groupCount_le C N HC); lia | reflexivity
       | intros k Hk; apply Hsettle; lia].
  - intros g Hg. specialize (Hsettle g Hg).
    unfold groupRecorded, groupErrors, groupSettles in *.
    destruct (first_rejection (groupPromises env (dispatched w) C N g))
      as [e |] eqn:Hfirst; split.
    + intros Hnone. exfalso.
      apply first_rejection_some in Hfirst. destruct Hfirst as (t & Hin & _).
      apply rejected_member in Hin. destruct Hin as (i & m & Hi & Hnet & _).
      exact (Hnone i m t Hi Hnet).
    + intros _. split; [reflexivity | ].
      apply first_rejection_some in Hfirst.
      destruct Hfirst as (t & Hin & Hmin).
      apply rejected_member in Hin. destruct Hin as (i & m & Hi & Hnet & ->).
      exists i, m, t. split; [exact Hi | ]. split; [exact Hnet | ].
      split; [| reflexivity].
      intros j m' t' Hj Hnet'.
      apply (Hmin (TransportError m') t'). apply rejected_member.
      exists j, m'. repeat split; assumption.
    + intros _. split; [reflexivity | ]. split; [reflexivity | ].
      rewrite outcomes_without_rejection;
        [unfold groupPromises; apply length_map | exact Hfirst | ].
      apply Bool.negb_true_iff. exact Hsettle.
    + intros (i & m & t & Hi & Hnet). exfalso.
      apply (proj1 (first_rejection_none _) Hfirst (TransportError m) t).
      apply rejected_member. exists i, m. repeat split; assumption.
Qed.

Lemma transport_error_drops_its_group_witness :
  (0 < 2)%nat /\
  everyGroupSettles (Scenarios.run Cases.race [] Scenarios.writable)
    (dispatched
       (new_PerformanceTester
          (Scenarios.run Cases.race [] Scenarios.writable))) 2 4 /\
  ((exists (t : value) (w' : World),
      testConcurrentConnections
        (Scenarios.run Cases.race [] Scenarios.writable)
        "/api/users" 2 4
        (new_PerformanceTester
           (Scenarios.run Cases.race [] Scenarios.writable))
      = (Return t, w') /\
      invocations w' = 4%nat /\
      stderr w' = [nl ++ "❌ Batch error: socket hang up"] /\
      tests (results w') = [t]) /\
   fst (batches (Scenarios.run Cases.race [] Scenarios.writable)
          4 "/api/users" 2 4 0 []
          (new_PerformanceTester
             (Scenarios.run Cases.race [] Scenarios.writable)))
   = Return [ {| statusCode := 200; duration := 10; responseSize := 2;
                 success := true |};
              {| statusCode := 200; duration := 10; responseSize := 2;
                 success := true |} ]).
Proof.
  assert (Hsettle :
    everyGroupSettles (Scenarios.run Cases.race [] Scenarios.writable)
      (dispatched
         (new_PerformanceTester
            (Scenarios.run Cases.race [] Scenarios.writable))) 2 4).
  { intros [| [| g]] Hg; [reflexivity | reflexivity | ].
    exfalso. revert Hg. vm_compute. lia. }
  split; [lia | ]. split; [exact Hsettle | ].
  destruct (transport_error_drops_its_group
              (Scenarios.run Cases.race [] Scenarios.writable)
              "/api/users" 2 4
              (new_PerformanceTester
                 (Scenarios.run Cases.race [] Scenarios.writable)))
    as [Hcall [Hloop _]]; [lia | exact Hsettle | ].
  split.
  - destruct Hcall as (t & w' & Hrun & Hinv & Herr & Htests).
    exists t, w'. repeat split; assumption.
  - exact Hloop.
Defined.

(** C2 fails as stated: with 4 requests, 2 at a time, and the connection of
    the request of rank 1 reset, the loop records two outcomes, both
    successes: the failed request is not recorded as a failed outcome, and
    the request of rank 0, which was answered, is not recorded either. *)
Lemma failed_request_is_not_recorded :
  exists (rs : list RequestOutcome) (w' : World),
    batches (Scenarios.run Scenarios.oneReset [] Scenarios.writable)
      4 "/api/users" 2 4 0 []
      (new_PerformanceTester
         (Scenarios.run Scenarios.oneReset [] Scenarios.writable))
    = (Return rs, w') /\
    List.length rs = 2%nat /\
    forallb success rs = true /\
    ~ everyRequestRecorded
        (Scenarios.run Scenarios.oneReset [] Scenarios.writable) 0 4 rs.
Proof.
  eexists. eexists. split; [vm_compute; reflexivity | ].
  split; [reflexivity | ]. split; [reflexivity | ].
  intros [Hlen _]. discriminate Hlen.
Qed.

(* ------------------------------------------------------------------ *)
(** *** A call for no request *)

(** C5, as the code has it. Called with totalRequests = 0, the batch
    scheduler does not fail: whatever the concurrency, it issues no request
    and returns an entry with no success and no failure, a success rate and
    an average that are NaN, which it appends after the entries already
    accumulated, leaving those as they were. *)
Theorem zero_requests_yield_an_empty_entry
    (env : Env) (endpoint : string) (C : nat) (w : World) :
  exists t : value,
    testConcurrentConnections env endpoint C 0 w =
    (Return t,
     {| results := {| timestamp := timestamp (results w);
                      tests := (tests (results w) ++ [t])%list;
                      summary := summary (results w) |};
        stderr := stderr w;
        invocations := invocations w;
        dispatched := dispatched w;
        clockReads := S (S (clockReads w));
        files := files w;
        unanswered := unanswered w |}) /\
    configurationField t "total_requests" = VNat 0 /\
    resultField t "successful_requests" = VNat 0 /\
    resultField t "failed_requests" = VNat 0 /\
    resultField t "success_rate" = VString "NaN%" /\
    responseTime t "average" = VString "NaNms" /\
    responseTime t "minimum" = VString "Infinityms" /\
    responseTime t "maximum" = VString "-Infinityms".
Proof.
  eexists. split.
  - unfold testConcurrentConnections, bind, Date_now, push_test, ret.
    cbn [batches Nat.ltb Nat.leb results stderr invocations dispatched
         clockReads files].
    reflexivity.
  - repeat split.
Qed.

(** C5 fails as stated: a call with the default concurrency and no request
    returns an entry; it does not end in an error. *)
Lemma zero_requests_is_not_an_error :
  exists (t : value) (w' : World),
    testConcurrentConnections
      (Scenarios.run Scenarios.healthy [] Scenarios.writable)
      "/api/users" 100 0
      (new_PerformanceTester
         (Scenarios.run Scenarios.healthy [] Scenarios.writable))
    = (Return t, w') /\
    forall e : error,
      fst (testConcurrentConnections
             (Scenarios.run Scenarios.healthy [] Scenarios.writable)
             "/api/users" 100 0
             (new_PerformanceTester
                (Scenarios.run Scenarios.healthy [] Scenarios.writable)))
      <> Throw e.
Proof.
  eexists. eexists. split; [vm_compute; reflexivity | ].
  intros e H. vm_compute in H. discriminate H.
Qed.

(* ------------------------------------------------------------------ *)
(** *** Statistics of a batch *)

Lemma Math_min_from (xs : list Z) :
  forall m, exists lo,
    fold_left (fun (acc : integer) x =>
                 match acc with Fin k => Fin (Z.min k x) | _ => Fin x end)
              xs (Fin m) = Fin lo /\
    (lo = m \/ In lo xs) /\ lo <= m /\ (forall x, In x xs -> lo <= x).
Proof.
  induction xs as [| x xs IH]; intros m; simpl.
  - exists m. repeat split; [now left | lia | intros x []].
  - destruct (IH (Z.min m x)) as (lo & Hfold & Hin & Hle & Hall).
    exists lo. split; [exact Hfold | ]. split; [| split].
    + destruct Hin as [-> | Hin]; [| now right; right].
      destruct (Z.min_spec m x) as [[_ ->] | [_ ->]]; [now left | now right; left].
    + lia.
    + intros y [<- | Hy]; [lia | now apply Hall].
Qed.

Lemma Math_max_from (xs : list Z) :
  forall m, exists hi,
    fold_left (fun (acc : integer) x =>
                 match acc with Fin k => Fin (Z.max k x) | _ => Fin x end)
              xs (Fin m) = Fin hi /\
    (hi = m \/ In hi xs) /\ m <= hi /\ (forall x, In x xs -> x <= hi).
Proof.
  induction xs as [| x xs IH]; intros m; simpl.
  - exists m. repeat split; [now left | lia | intros x []].
  - destruct (IH (Z.max m x)) as (hi & Hfold & Hin & Hle & Hall).
    exists hi. split; [exact Hfold | ]. split; [| split].
    + destruct Hin as [-> | Hin]; [| now right; right].
      destruct (Z.max_spec m x) as [[_ ->] | [_ ->]]; [now right; left | now left].
    + lia.
    + intros y [<- | Hy]; [lia | now apply Hall].
Qed.

(** [Math.min] of a non-empty list is its least element. *)
Lemma Math_min_spec (xs : list Z) :
  xs <> [] ->
  exists lo, Math_min xs = Fin lo /\ In lo xs /\ forall x, In x xs -> lo <= x.
Proof.
  destruct xs as [| x xs]; [congruence | intros _].
  unfold Math_min. cbn [fold_left].
  destruct (Math_min_from xs x) as (lo & Hfold & Hin & Hle & Hall).
  exists lo. split; [exact Hfold | ]. split.
  - destruct Hin as [-> | Hin]; [now left | now right].
  - intros y [<- | Hy]; [exact Hle | now apply Hall].
Qed.

(** [Math.max] of a non-empty list is its greatest element. *)
Lemma Math_max_spec (xs : list Z) :
  xs <> [] ->
  exists hi, Math_max xs = Fin hi /\ In hi xs /\ forall x, In x xs -> x <= hi.
Proof.
  destruct xs as [| x xs]; [congruence | intros _].
  unfold Math_max. cbn [fold_left].
  destruct (Math_max_from xs x) as (hi & Hfold & Hin & Hle & Hall).
  exists hi. split; [exact Hfold | ]. split.
  - destruct Hin as [-> | Hin]; [now left | now right].
  - intros y [<- | Hy]; [exact Hle | now apply Hall].
Qed.

(** The quotient of two integers, the divisor positive. *)
Lemma div_positive (a b : Z) :
  0 < b -> div (of_Z a) (of_Z b) = Fin (Qred (inject_Z a / inject_Z b)).
Proof.
  intros Hb. unfold div, of_Z, Qsign. cbn [Qnum inject_Z].
  destruct (Z.compare_spec b 0); [lia | lia | reflexivity].
Qed.

(* ------------------------------------------------------------------ *)
(** *** Double precision *)

Lemma Qsign_comp (x y : Q) : (x == y)%Q -> Qsign x = Qsign y.
Proof.
  unfold Qeq, Qsign. intros H.
  destruct (Z.compare_spec (Qnum x) 0) as [Hx | Hx | Hx];
    destruct (Z.compare_spec (Qnum y) 0) as [Hy | Hy | Hy];
    try reflexivity; exfalso; nia.
Qed.

Lemma binary64_comp (x y : Q) : (x == y)%Q -> binary64 x = binary64 y.
Proof.
  intros H. unfold binary64. rewrite (Qsign_comp x y H).
  rewrite (Qred_complete x y H).
  rewrite (Qred_complete (- x) (- y)) by (rewrite H; reflexivity).
  reflexivity.
Qed.

Lemma round_half_even_le (m : Q) (K : Z) :
  (m <= inject_Z K)%Q -> round_half_even m <= K.
Proof.
  intros Hm. unfold round_half_even.
  pose proof (Qfloor_le m) as Hf.
  assert (HfK : Qfloor m <= K).
  { rewrite Zle_Qle. apply Qle_trans with m; assumption. }
  assert (Hstep : (1 # 2 <= m - inject_Z (Qfloor m))%Q -> Qfloor m + 1 <= K).
  { intros Hhalf.
    destruct (Z.eq_dec (Qfloor m) K) as [Heq | Hne]; [| lia].
    exfalso. rewrite Heq in Hhalf. lra. }
  destruct (m - inject_Z (Qfloor m) ?= 1 # 2)%Q eqn:Hcmp.
  - apply Qeq_alt in Hcmp.
    destruct (Z.even (Qfloor m)); [exact HfK | ].
    apply Hstep. rewrite Hcmp. apply Qle_refl.
  - exact HfK.
  - apply Hstep. apply Qgt_alt in Hcmp. apply Qlt_le_weak. exact Hcmp.
Qed.

Lemma round_half_even_nonneg (m : Q) : (0 <= m)%Q -> 0 <= round_half_even m.
Proof.
  intros Hm. unfold round_half_even.
  assert (Hf : 0 <= Qfloor m).
  { change 0 with (Qfloor 0). apply Qfloor_resp_le. exact Hm. }
  destruct (m - inject_Z (Qfloor m) ?= 1 # 2)%Q; [| lia | lia].
  destruct (Z.even (Qfloor m)); lia.
Qed.

Lemma binade_small (x : Q) (B : Z) :
  (x <= inject_Z B)%Q -> B < 2 ^ 53 -> binade x <= 52.
Proof.
  intros Hx HB. unfold binade.
  destruct (Qle_bool 1 x) eqn:H1.
  - apply Qle_bool_iff in H1.
    assert (Hfl : 1 <= Qfloor x)
      by (change 1 with (Qfloor 1); apply Qfloor_resp_le; exact H1).
    assert (HfB : Qfloor x <= B).
    { rewrite Zle_Qle. apply Qle_trans with x; [apply Qfloor_le | exact Hx]. }
    assert (Z.log2 (Qfloor x) < 53); [| lia].
    apply Z.log2_lt_pow2; lia.
  - pose proof (Z.log2_up_nonneg (Qceiling (/ x))). lia.
Qed.

Lemma pow2_positive (k : Z) : 0 <= k -> (0 < inject_Z (2 ^ k))%Q.
Proof.
  intros Hk. change 0%Q with (inject_Z 0). rewrite <- Zlt_Qlt.
  apply Z.pow_pos_nonneg; lia.
Qed.

(** A bound that is an integer below 2^53 is kept by the rounding. *)
Lemma nearest_binary64_bounds (x : Q) (B : Z) :
  (0 <= x)%Q -> (x <= inject_Z B)%Q -> B < 2 ^ 53 ->
  exists q : Q, nearest_binary64 x = Fin q /\ (0 <= q <= inject_Z B)%Q.
Proof.
  intros H0 Hx HB. unfold nearest_binary64.
  pose proof (binade_small x B Hx HB) as Hb.
  set (e := Z.max (binade x - 52) (-1074)).
  assert (He : e <= 0) by (unfold e; lia).
  assert (Hk : 0 <= - e) by lia.
  pose proof (pow2_positive (- e) Hk) as Hpow.
  assert (Hin : (scale x (- e) == x * inject_Z (2 ^ (- e)))%Q).
  { unfold scale. destruct (0 <=? - e) eqn:Hle; [reflexivity | ].
    apply Z.leb_gt in Hle. lia. }
  set (q := round_half_even (scale x (- e))).
  assert (Hq0 : 0 <= q).
  { apply round_half_even_nonneg. rewrite Hin.
    apply Qmult_le_0_compat; [exact H0 | apply Qlt_le_weak, Hpow]. }
  assert (HqB : q <= B * 2 ^ (- e)).
  { apply round_half_even_le. rewrite Hin, inject_Z_mult.
    apply Qmult_le_compat_r; [exact Hx | apply Qlt_le_weak, Hpow]. }
  assert (Hout : (scale (inject_Z q) e == inject_Z q / inject_Z (2 ^ (- e)))%Q).
  { unfold scale. destruct (0 <=? e) eqn:Hle; [| reflexivity].
    apply Z.leb_le in Hle. assert (e = 0) as -> by lia.
    change (2 ^ (- 0)) with 1. change (2 ^ 0) with 1. field. }
  assert (Hr0 : (0 <= scale (inject_Z q) e)%Q).
  { rewrite Hout. apply Qle_shift_div_l; [exact Hpow | ].
    rewrite Qmult_0_l. change 0%Q with (inject_Z 0). rewrite <- Zle_Qle.
    exact Hq0. }
  assert (HrB : (scale (inject_Z q) e <= inject_Z B)%Q).
  { rewrite Hout. apply Qle_shift_div_r; [exact Hpow | ].
    rewrite <- inject_Z_mult, <- Zle_Qle. exact HqB. }
  destruct (Qle_bool (inject_Z (2 ^ 1024)) (scale (inject_Z q) e)) eqn:Hover.
  - exfalso. apply Qle_bool_iff in Hover.
    assert (inject_Z (2 ^ 1024) <= inject_Z B)%Q
      by (eapply Qle_trans; eassumption).
    rewrite <- Zle_Qle in H.
    assert (2 ^ 53 < 2 ^ 1024) by (apply Z.pow_lt_mono_r; lia). lia.
  - exists (Qred (scale (inject_Z q) e)).
    split; [reflexivity | ]. rewrite Qred_correct. split; assumption.
Qed.

Lemma binary64_bounds (x : Q) (B : Z) :
  (0 <= x)%Q -> (x <= inject_Z B)%Q -> B < 2 ^ 53 ->
  exists q : Q, binary64 x = Fin q /\ (0 <= q <= inject_Z B)%Q.
Proof.
  intros H0 Hx HB. unfold binary64, Qsign.
  destruct (Z.compare_spec (Qnum x) 0) as [Hs | Hs | Hs].
  - exists 0%Q. split; [reflexivity | ]. split; [apply Qle_refl | ].
    apply Qle_trans with x; assumption.
  - exfalso. unfold Qle in H0. simpl in H0. lia.
  - apply nearest_binary64_bounds; [| | exact HB]; rewrite Qred_correct;
      assumption.
Qed.


Lemma average_formula (ds : list Z) :
  ds <> [] ->
  Math_round (div (of_Z (sum ds)) (of_nat (List.length ds)))
  = Fin (Qfloor (mean ds + (1 # 2))).
Proof.
  intros Hne. unfold of_nat. fold (of_Z (Z.of_nat (List.length ds))).
  rewrite div_positive by (destruct ds; [congruence | simpl; lia]).
  unfold Math_round, mean. f_equal. apply Qfloor_comp.
  rewrite Qred_correct. reflexivity.
Qed.


Lemma healthy_settles (env : Env) (first n : nat) :
  network env = Scenarios.healthy -> allSettle env first n.
Proof. intros Hnet i _. rewrite Hnet. discriminate. Qed.



(* ------------------------------------------------------------------ *)
(** *** The resource sweep *)

(** One firing of the sampling timer issues one or two requests and leaves
    the measurements as they were; one of its requests may stay
    unanswered. *)
Lemma monitorTick_spec (startTime : Z) (ms : list value) (t : tick) (w : World) :
  exists k : nat,
    (1 <= k <= 2)%nat /\
    monitorTick startTime ms t w =
    (Return ms,
     {| results := results w; stderr := stderr w;
        invocations := (invocations w + k)%nat; dispatched := dispatched w;
        clockReads := clockReads w; files := files w;
        unanswered :=
          (unanswered w + if tickHangs t then 1 else 0)%nat |}).
Proof.
  unfold monitorTick, detached, try_catch, bind, makeRequest, await, tickHangs.
  destruct (probe t) as [status elapsed size | message elapsed |];
    cbn [settle pending].
  - cbv beta iota zeta delta [ret throw success].
    destruct ((200 <=? status) && (status <? 300)).
    + destruct (reread t) as [status' elapsed' size' | message' elapsed' |];
        cbn [settle pending andb].
      * unfold outcome_object. cbv beta iota zeta.
        rewrite JSON_parse_object.
        exists 2%nat. split; [lia | ]. f_equal. same_world.
      * exists 2%nat. split; [lia | ]. cbv beta iota zeta.
        f_equal. same_world.
      * exists 2%nat. split; [lia | ]. cbv beta iota zeta delta [diverge].
        f_equal. same_world.
    + exists 1%nat. split; [lia | ]. cbn [andb]. f_equal. same_world.
  - exists 1%nat. split; [lia | ]. cbv beta iota zeta delta [ret throw].
    f_equal. same_world.
  - exists 1%nat. split; [lia | ]. cbv beta iota zeta delta [diverge].
    f_equal. same_world.
Qed.

Lemma monitor_spec (startTime : Z) (ticks : list tick) :
  forall (ms : list value) (w : World),
  exists k : nat,
    (List.length ticks <= k <= 2 * List.length ticks)%nat /\
    foldM (monitorTick startTime) ticks ms w =
    (Return ms,
     {| results := results w; stderr := stderr w;
        invocations := (invocations w + k)%nat; dispatched := dispatched w;
        clockReads := clockReads w; files := files w;
        unanswered :=
          (unanswered w + List.length (filter tickHangs ticks))%nat |}).
Proof.
  induction ticks as [| t ticks IH]; intros ms w.
  - exists 0%nat. split; [cbn; lia | ]. cbn [foldM]. unfold ret. f_equal.
    destruct w; same_world.
  - cbn [foldM].
    destruct (monitorTick_spec startTime ms t w) as (k & Hk & Hrun).
    unfold bind. rewrite Hrun.
    match goal with
    | |- context [foldM _ ticks ms ?w0] =>
        destruct (IH ms w0) as (k' & Hk' & Hrest)
    end.
    rewrite Hrest. exists (k + k')%nat.
    split; [cbn [List.length]; lia | ]. f_equal.
    cbn [results stderr invocations dispatched clockReads files unanswered].
    same_world. cbn [filter]. destruct (tickHangs t); cbn [List.length]; lia.
Qed.

(** The entries of the resource sweep. *)
Lemma testResourceUsage_spec (env : Env) (w : World) :
  everyGroupSettles env (dispatched w) 20 300 ->
  exists k : nat,
    (List.length (monitor env) <= k <= 2 * List.length (monitor env))%nat /\
    testResourceUsage env w =
    (Return
       (VObject
          [("test_name", VString "Resource Usage Test");
           ("duration", VString "30000ms");
           ("measurements", VNat 0);
           ("memory_usage",
            VObject [("samples", VNat 0);
                     ("monitoring_duration", VString "30s")])]),
     {| results :=
          {| timestamp := timestamp (results w);
             tests :=
               (tests (results w) ++
                [testResultOf "/api/users" 20 300
                   (clock env (S (S (clockReads w)))
                    - clock env (S (clockReads w)))
                   (recordedOutcomes env (dispatched w) 20 300);
                 VObject
                   [("test_name", VString "Resource Usage Test");
                    ("duration", VString "30000ms");
                    ("measurements", VNat 0);
                    ("memory_usage",
                     VObject [("samples", VNat 0);
                              ("monitoring_duration", VString "30s")])]])%list;
             summary := summary (results w) |};
        stderr := (stderr w ++ batchErrors env (dispatched w) 20 300)%list;
        invocations := (invocations w + 300 + k)%nat;
        dispatched := (dispatched w + 300)%nat;
        clockReads := S (S (S (clockReads w)));
        files := files w;
        unanswered :=
          (unanswered w + hanging env (dispatched w) 300
           + List.length (filter tickHangs (monitor env)))%nat |}).
Proof.
  intros Hsettle. unfold testResourceUsage.
  unfold bind at 1. unfold Date_now at 1.
  unfold bind at 1.
  rewrite testConcurrentConnections_spec by (try lia; exact Hsettle).
  cbn [results stderr invocations dispatched clockReads files timestamp tests
       summary unanswered].
  unfold bind at 1.
  match goal with
  | |- context [foldM (monitorTick ?st) ?ticks ?ms ?w0] =>
      destruct (monitor_spec st ticks ms w0) as (k & Hk & Hrun); rewrite Hrun
  end.
  exists k. split; [exact Hk | ]. unfold bind, push_test, ret.
  cbn [results stderr invocations dispatched clockReads files timestamp tests
       summary unanswered].
  f_equal. same_world.
  rewrite <- List.app_assoc. reflexivity.
Qed.

(** C10. In the resource sweep every firing of the sampling timer leaves the
    measurements empty: when the probe succeeds, JSON.parse is applied to the
    object the second request resolved with, throws, and the exception is
    swallowed.  So the entry of the sweep, which is produced once the loop
    of its batch has got past every group, records measurements = 0 and
    samples = 0, whatever the timer firings and the answers of the
    target. *)
Theorem resource_sweep_records_no_sample (env : Env) (w : World) :
  (forall (o : RequestOutcome) (w0 : World),
      exists message,
        JSON_parse (outcome_object o) w0 = (Throw (SyntaxError message), w0)) /\
  (forall (startTime : Z) (ms : list value) (t : tick) (w0 : World),
      fst (monitorTick startTime ms t w0) = Return ms) /\
  (everyGroupSettles env (dispatched w) 20 300 ->
   exists (t : value) (w' : World),
     testResourceUsage env w = (Return t, w') /\
     member t "test_name" = VString "Resource Usage Test" /\
     member t "measurements" = VNat 0 /\
     member (member t "memory_usage") "samples" = VNat 0 /\
     last (tests (results w')) VUndefined = t).
Proof.
  split; [| split].
  - intros o w0. eexists. unfold outcome_object. apply JSON_parse_object.
  - intros startTime ms t w0.
    destruct (monitorTick_spec startTime ms t w0) as (k & _ & ->).
    reflexivity.
  - intros Hsettle.
    destruct (testResourceUsage_spec env w Hsettle) as (k & _ & ->).
    eexists. eexists. split; [reflexivity | ].
    split; [reflexivity | ]. split; [reflexivity | ]. split; [reflexivity | ].
    cbn [results tests].
    match goal with
    | |- last (?l ++ [?a; ?b]) _ = _ =>
        change (l ++ [a; b])%list with (l ++ ([a] ++ [b]))%list
    end.
    rewrite List.app_assoc. apply last_last.
Qed.

Lemma resource_sweep_records_no_sample_witness :
  everyGroupSettles
    (Scenarios.run Scenarios.healthy [Scenarios.goodTick] Scenarios.writable)
    (dispatched (Cases.holding [])) 20 300 /\
  exists (t : value) (w' : World),
    testResourceUsage
      (Scenarios.run Scenarios.healthy [Scenarios.goodTick]
         Scenarios.writable) (Cases.holding [])
    = (Return t, w') /\
    member t "measurements" = VNat 0 /\
    member (member t "memory_usage") "samples" = VNat 0 /\
    last (tests (results w')) VUndefined = t.
Proof.
  assert (Hsettle :
    everyGroupSettles
      (Scenarios.run Scenarios.healthy [Scenarios.goodTick]
         Scenarios.writable)
      (dispatched (Cases.holding [])) 20 300).
  { apply settles_when_all_settle, healthy_settles. reflexivity. }
  split; [exact Hsettle | ].
  destruct (resource_sweep_records_no_sample
              (Scenarios.run Scenarios.healthy [Scenarios.goodTick]
                 Scenarios.writable) (Cases.holding []))
    as (_ & _ & Hsweep).
  destruct (Hsweep Hsettle) as (t & w' & Hrun & _ & Hm & Hs & Hlast).
  exists t, w'. repeat split; assumption.
Defined.

(* ------------------------------------------------------------------ *)
(** *** Requests in flight *)

Section InFlight.

Import EventLoop.

Variables C N : nat.

Lemma mem_In (id : nat) (ids : list nat) : mem id ids = true <-> In id ids.
Proof.
  unfold mem. rewrite existsb_exists. split.
  - intros (x & Hx & Heq). apply Nat.eqb_eq in Heq. now subst.
  - intros H. exists id. split; [exact H | apply Nat.eqb_refl].
Qed.

Lemma without_NoDup (id : nat) (ids : list nat) :
  NoDup ids -> NoDup (without id ids).
Proof. apply NoDup_filter. Qed.

Lemma without_incl (id : nat) (ids others : list nat) :
  incl ids others -> incl (without id ids) others.
Proof.
  intros H x Hx. apply H. unfold without in Hx.
  apply filter_In in Hx. tauto.
Qed.

Lemma without_length (id : nat) (ids : list nat) :
  NoDup ids -> In id ids ->
  S (List.length (without id ids)) = List.length ids.
Proof.
  induction ids as [| x xs IH]; intros Hnd Hin; [destruct Hin | ].
  inversion Hnd as [| ? ? Hx Hxs]; subst. simpl.
  destruct (Nat.eqb_spec id x) as [-> | Hne]; simpl.
  - f_equal. unfold without. clear IH Hnd Hin Hxs.
    induction xs as [| y ys IH]; [reflexivity | ]. simpl.
    destruct (Nat.eqb_spec x y) as [-> | Hxy].
    + exfalso. apply Hx. now left.
    + simpl. f_equal. apply IH. intros H. apply Hx. now right.
  - f_equal. apply IH; [exact Hxs | ].
    destruct Hin as [-> | Hin]; [congruence | exact Hin].
Qed.

Lemma advance_orderly (batch : nat) (rs : list RequestOutcome) :
  orderly C (advance C N batch [] rs).
Proof.
  unfold advance, orderly. destruct (batch <? N)%nat; cbn.
  - rewrite length_seq. repeat split.
    + lia.
    + apply seq_NoDup.
    + apply incl_refl.
    + lia.
  - repeat split; [lia | constructor | apply incl_refl].
Qed.

Lemma step_orderly (s s' : State) (e : event) :
  orderly C s -> responds e = true -> step C N s e = Some s' -> orderly C s'.
Proof.
  intros (Hsize & Hnd & Hincl & Hcount) Hresp Hstep.
  destruct e as [id r].
  destruct r as [status elapsed size | message elapsed |];
    [| discriminate Hresp | discriminate Hresp].
  unfold step in Hstep. cbn [settle pending] in Hstep.
  destruct (mem id (inFlight s)) eqn:Hfly; [| discriminate Hstep].
  apply mem_In in Hfly.
  assert (Haw : mem id (awaited s) = true) by (apply mem_In, Hincl, Hfly).
  rewrite Haw in Hstep. cbn [settle] in Hstep.
  pose proof (without_length id _ Hnd Hfly) as Hlen.
  destruct (List.length _ =? List.length (awaited s))%nat eqn:Hall;
    injection Hstep as <-.
  - apply Nat.eqb_eq in Hall. cbn [List.length] in Hall.
    assert (Hnone : without id (inFlight s) = []).
    { destruct (without id (inFlight s)); [reflexivity | simpl in Hlen; lia]. }
    rewrite Hnone. apply advance_orderly.
  - apply Nat.eqb_neq in Hall. cbn [List.length] in Hall.
    unfold orderly. cbn. repeat split.
    + exact Hsize.
    + apply without_NoDup, Hnd.
    + apply without_incl, Hincl.
    + lia.
Qed.

Lemma orderly_bound (s : State) :
  orderly C s -> (List.length (inFlight s) <= C)%nat.
Proof.
  intros (Hsize & Hnd & Hincl & _).
  pose proof (NoDup_incl_length Hnd Hincl). lia.
Qed.

(** As long as every request is answered, at most [C] requests are in
    flight, and all of them belong to the group the loop is waiting for: a
    group is dispatched only when the one before is complete. *)
Lemma in_flight_bound_without_failures (events : list event) :
  forall (s : State) (states : list State),
    orderly C s ->
    forallb responds events = true ->
    trace C N s events = Some states ->
    Forall (fun s' => (List.length (inFlight s') <= C)%nat /\
                      incl (inFlight s') (awaited s')) states.
Proof.
  induction events as [| e events IH]; intros s states Hs Hresp Htrace.
  - injection Htrace as <-. constructor; [| constructor].
    split; [apply orderly_bound, Hs | apply Hs].
  - cbn [trace] in Htrace. cbn [forallb] in Hresp.
    apply andb_prop in Hresp. destruct Hresp as [He Hrest].
    destruct (step C N s e) as [s' |] eqn:Hstep; [| discriminate Htrace].
    destruct (trace C N s' events) as [states' |] eqn:Htail;
      [| discriminate Htrace].
    injection Htrace as <-. constructor.
    + split; [apply orderly_bound, Hs | apply Hs].
    + apply (IH s'); [| exact Hrest | exact Htail].
      exact (step_orderly s s' e Hs He Hstep).
Qed.

End InFlight.

(** C7 at its failing input. With 4 requests, 2 at a time: when the
    connection of request 0 fails while request 1 is still waiting for its
    answer, the loop goes on to the second group at once; requests 1, 2 and
    3 are then in flight together, one more than the concurrency, and the
    second group has started before the first is complete. *)
Theorem rejection_lets_groups_overlap :
  exists s0 s1 : EventLoop.State,
    EventLoop.trace 2 4 (EventLoop.start 2 4)
      [EventLoop.Answer 0 (Fails "ECONNRESET" 3)] = Some [s0; s1] /\
    EventLoop.awaited s0 = [0; 1]%nat /\
    EventLoop.inFlight s0 = [0; 1]%nat /\
    EventLoop.awaited s1 = [2; 3]%nat /\
    EventLoop.inFlight s1 = [1; 2; 3]%nat /\
    (2 < List.length (EventLoop.inFlight s1))%nat /\
    In 1%nat (EventLoop.inFlight s1) /\
    ~ In 1%nat (EventLoop.awaited s1).
Proof.
  eexists. eexists. split; [reflexivity | ].
  cbn. split; [reflexivity | ]. split; [reflexivity | ].
  split; [reflexivity | ]. split; [reflexivity | ]. split; [lia | ].
  split; [now left | ].
  intros [H | [H | []]]; discriminate H.
Qed.

(* ------------------------------------------------------------------ *)
(** *** Reading back what was printed *)

Lemma digit_is_plain (c : ascii) (f : uint -> uint) :
  digit_of_char c = Some f ->
  is_white_space c = false /\
  Ascii.eqb c "x" = false /\ Ascii.eqb c "X" = false /\
  (forall rest, take_sign (String c rest) = (false, String c rest)) /\
  (forall rest, starts_with "Infinity" (String c rest) = false).
Proof.
  destruct c as [[] [] [] [] [] [] [] []]; cbn; intros H;
    try discriminate H; repeat split.
Qed.

Lemma takeDigits_printed (d : uint) (rest : string) :
  match rest with
  | String c _ => digit_of_char c = None
  | EmptyString => True
  end ->
  takeDigits (NilEmpty.string_of_uint d ++ rest) = (d, rest).
Proof.
  intros Hrest.
  induction d as [| d IH | d IH | d IH | d IH | d IH | d IH | d IH | d IH
                  | d IH | d IH];
    cbn [NilEmpty.string_of_uint append takeDigits digit_of_char];
    try (rewrite IH; reflexivity).
  destruct rest as [| c r]; [reflexivity | ].
  cbn [takeDigits]. rewrite Hrest. reflexivity.
Qed.

Lemma printed_head (d : uint) :
  d <> Nil ->
  exists c f s, NilEmpty.string_of_uint d = String c s /\
                digit_of_char c = Some f.
Proof.
  destruct d; intros H; try congruence; cbn; eexists; eexists; eexists;
    (split; [reflexivity | reflexivity]).
Qed.

Lemma Qred_inject_Z (z : Z) : Qred (inject_Z z) = inject_Z z.
Proof. apply Qcanon.Qred_identity. apply Z.gcd_1_r. Qed.

Lemma Qred_integer (q : Q) (z : Z) : q == inject_Z z -> Qred q = inject_Z z.
Proof. intros H. rewrite (Qred_complete _ _ H). apply Qred_inject_Z. Qed.

(** [parseFloat] of the digits of a natural number followed by a percent
    sign is that number. *)
Lemma parseFloat_unsigned (d : uint) :
  d <> Nil ->
  parseFloat_string (NilEmpty.string_of_uint d ++ "%")
  = Fin (inject_Z (Z.of_uint d)).
Proof.
  intros Hd. destruct (printed_head d Hd) as (c & f & s & Hs & Hc).
  destruct (digit_is_plain c f Hc) as (Hws & _ & _ & Hsign & Hinf).
  unfold parseFloat_string.
  assert (Htrim : trimStart (NilEmpty.string_of_uint d ++ "%")
                  = NilEmpty.string_of_uint d ++ "%").
  { rewrite Hs. cbn [append trimStart]. rewrite Hws. reflexivity. }
  rewrite Htrim.
  assert (Hbody : take_sign (NilEmpty.string_of_uint d ++ "%")
                  = (false, NilEmpty.string_of_uint d ++ "%")).
  { rewrite Hs. cbn [append]. apply Hsign. }
  rewrite Hbody.
  assert (Hstart : starts_with "Infinity" (NilEmpty.string_of_uint d ++ "%")
                   = false).
  { rewrite Hs. cbn [append]. apply Hinf. }
  rewrite Hstart.
  rewrite takeDigits_printed by reflexivity.
  cbv beta iota zeta.
  change (take_exponent "%") with 0.
  change (Z.of_uint Nil) with 0.
  change (10 ^ Z.of_nat (nb_digits Nil)) with 1.
  remember (Z.of_uint d) as v eqn:Hv. clear Hv.
  destruct d; try congruence;
    (f_equal; apply Qred_integer; unfold Qeq; simpl; ring).
Qed.

Lemma parseFloat_negative (d : uint) :
  d <> Nil ->
  parseFloat_string (String "-" (NilEmpty.string_of_uint d) ++ "%")
  = Fin (inject_Z (- Z.of_uint d)).
Proof.
  intros Hd. destruct (printed_head d Hd) as (c & f & s & Hs & Hc).
  destruct (digit_is_plain c f Hc) as (_ & _ & _ & _ & Hinf).
  unfold parseFloat_string.
  replace (trimStart (String "-" (NilEmpty.string_of_uint d) ++ "%"))
    with (String "-" (NilEmpty.string_of_uint d ++ "%")) by reflexivity.
  cbv beta iota zeta delta [take_sign].
  assert (Hstart : starts_with "Infinity" (NilEmpty.string_of_uint d ++ "%")
                   = false).
  { rewrite Hs. cbn [append]. apply Hinf. }
  rewrite Hstart.
  rewrite takeDigits_printed by reflexivity.
  cbv beta iota zeta.
  change (take_exponent "%") with 0.
  change (Z.of_uint Nil) with 0.
  change (10 ^ Z.of_nat (nb_digits Nil)) with 1.
  remember (Z.of_uint d) as v eqn:Hv. clear Hv.
  destruct d; try congruence;
    (f_equal; apply Qred_integer; unfold Qeq; simpl; ring).
Qed.

Lemma append_empty (s : string) : s ++ EmptyString = s.
Proof. induction s as [| c s IH]; [reflexivity | cbn; now rewrite IH]. Qed.

(** [parseInt] of the digits of a natural number is that number. *)
Lemma parseInt_unsigned (d : uint) :
  d <> Nil ->
  parseInt_string (NilEmpty.string_of_uint d) = Fin (Z.of_uint d).
Proof.
  intros Hd.
  pose proof (takeDigits_printed d EmptyString I) as Htd.
  rewrite append_empty in Htd.
  destruct (printed_head d Hd) as (c & f & s & Hs & Hc).
  destruct (digit_is_plain c f Hc) as (Hws & _ & _ & Hsign & _).
  unfold parseInt_string.
  assert (Htrim : trimStart (NilEmpty.string_of_uint d)
                  = NilEmpty.string_of_uint d).
  { rewrite Hs. cbn [trimStart]. rewrite Hws. reflexivity. }
  rewrite Htrim.
  assert (Hbody : take_sign (NilEmpty.string_of_uint d)
                  = (false, NilEmpty.string_of_uint d)).
  { rewrite Hs. apply Hsign. }
  rewrite Hbody, Htd. clear - Hd.
  destruct d as [| d | d | d | d | d | d | d | d | d | d];
    try congruence; try reflexivity; destruct d; reflexivity.
Qed.

Lemma parseInt_negative (d : uint) :
  d <> Nil ->
  parseInt_string (String "-" (NilEmpty.string_of_uint d))
  = Fin (- Z.of_uint d).
Proof.
  intros Hd.
  pose proof (takeDigits_printed d EmptyString I) as Htd.
  rewrite append_empty in Htd.
  unfold parseInt_string.
  replace (trimStart (String "-" (NilEmpty.string_of_uint d)))
    with (String "-" (NilEmpty.string_of_uint d)) by reflexivity.
  cbv beta iota zeta delta [take_sign].
  rewrite Htd. clear - Hd.
  destruct d as [| d | d | d | d | d | d | d | d | d | d];
    try congruence; try reflexivity; destruct d; reflexivity.
Qed.

(** How an integer is printed. *)
Lemma Z_to_string_cases (z : Z) :
  exists d : uint,
    d <> Nil /\
    ((Z_to_string z = NilEmpty.string_of_uint d /\ Z.of_uint d = z) \/
     (Z_to_string z = String "-" (NilEmpty.string_of_uint d) /\
      - Z.of_uint d = z)).
Proof.
  destruct z as [| p | p].
  - exists (D0 Nil). split; [discriminate | left; split; reflexivity].
  - exists (Pos.to_uint p). split; [apply Unsigned.to_uint_nonnil | left].
    split.
    + unfold Z_to_string. cbn [Z.to_int NilZero.string_of_int].
      unfold NilZero.string_of_uint.
      pose proof (Unsigned.to_uint_nonnil p).
      destruct (Pos.to_uint p); [congruence | reflexivity ..].
    + unfold Z.of_uint. rewrite Unsigned.of_to. reflexivity.
  - exists (Pos.to_uint p). split; [apply Unsigned.to_uint_nonnil | right].
    split.
    + unfold Z_to_string. cbn [Z.to_int NilZero.string_of_int].
      unfold NilZero.string_of_uint.
      pose proof (Unsigned.to_uint_nonnil p).
      destruct (Pos.to_uint p); [congruence | reflexivity ..].
    + unfold Z.of_uint. rewrite Unsigned.of_to. reflexivity.
Qed.

(** [parseInt] reads back an integer the harness stored. *)
Lemma parseInt_stored (z : Z) : parseInt (VNumber (Fin z)) = Fin z.
Proof.
  unfold parseInt. cbn [ToString integer_to_string].
  destruct (Z_to_string_cases z) as (d & Hd & [[-> <-] | [-> <-]]).
  - apply parseInt_unsigned, Hd.
  - apply parseInt_negative, Hd.
Qed.

(** [parseFloat] reads back a percentage the harness printed. *)
Lemma parseFloat_percentage (z : Z) :
  parseFloat (VString (Z_to_string z ++ "%")) = Fin (inject_Z z).
Proof.
  unfold parseFloat. cbn [ToString].
  destruct (Z_to_string_cases z) as (d & Hd & [[-> <-] | [-> <-]]).
  - apply parseFloat_unsigned, Hd.
  - apply parseFloat_negative, Hd.
Qed.

(** [parseInt] reads back a duration the harness printed. *)
Lemma parseInt_milliseconds (z : Z) :
  parseInt (VString (Z_to_string z ++ "ms")) = Fin z.
Proof.
  unfold parseInt. cbn [ToString].
  destruct (Z_to_string_cases z) as (d & Hd & [[-> <-] | [-> <-]]).
  - pose proof (takeDigits_printed d "ms" eq_refl) as Htd.
    destruct (printed_head d Hd) as (c & f & s & Hs & Hc).
    destruct (digit_is_plain c f Hc) as (Hws & _ & _ & Hsign & _).
    unfold parseInt_string.
    assert (Htrim : trimStart (NilEmpty.string_of_uint d ++ "ms")
                    = NilEmpty.string_of_uint d ++ "ms").
    { rewrite Hs. cbn [append trimStart]. rewrite Hws. reflexivity. }
    rewrite Htrim.
    assert (Hbody : take_sign (NilEmpty.string_of_uint d ++ "ms")
                    = (false, NilEmpty.string_of_uint d ++ "ms")).
    { rewrite Hs. cbn [append]. apply Hsign. }
    rewrite Hbody, Htd. clear - Hd.
    destruct d as [| d | d | d | d | d | d | d | d | d | d];
      try congruence; try reflexivity; destruct d; reflexivity.
  - pose proof (takeDigits_printed d "ms" eq_refl) as Htd.
    unfold parseInt_string.
    replace (trimStart (String "-" (NilEmpty.string_of_uint d) ++ "ms"))
      with (String "-" (NilEmpty.string_of_uint d ++ "ms")) by reflexivity.
    cbv beta iota zeta delta [take_sign].
    rewrite Htd. clear - Hd.
    destruct d as [| d | d | d | d | d | d | d | d | d | d];
      try congruence; try reflexivity; destruct d; reflexivity.
Qed.

(* ------------------------------------------------------------------ *)
(** *** The scalability rating *)

Lemma add_integers (a b : Z) :
  add (Fin (inject_Z a)) (Fin (inject_Z b)) = Fin (inject_Z (a + b)).
Proof.
  unfold add. f_equal. apply Qred_integer. rewrite inject_Z_plus. reflexivity.
Qed.

(** The two sums of [calculateScalabilityRating], over entries whose rates
    and throughputs are known. *)
Lemma sum_of_rates (tests : list value) (stats : list (Z * Z)) :
  Forall2 carries tests stats ->
  forall (a : Z) (w : World),
    foldM (fun sum test =>
             r <- prop test "results" ;;
             x <- prop r "success_rate" ;;
             ret (add sum (parseFloat x)))
          tests (Fin (inject_Z a)) w
    = (Return (Fin (inject_Z (fold_left Z.add (map fst stats) a))), w).
Proof.
  induction 1 as [| t stat tests stats (Ht & Hr & Hrate & _) _ IH];
    intros a w; [reflexivity | ].
  cbn [foldM map fold_left]. unfold bind at 1. unfold bind at 1.
  unfold prop at 1. rewrite Ht. unfold ret at 1.
  unfold bind at 1. unfold prop at 1. rewrite Hr. unfold ret at 1.
  fold (resultField t "success_rate"). rewrite Hrate.
  rewrite parseFloat_percentage, add_integers. unfold ret at 1.
  apply IH.
Qed.

Lemma sum_of_throughputs (tests : list value) (stats : list (Z * Z)) :
  Forall2 carries tests stats ->
  forall (a : Z) (w : World),
    foldM (fun sum test =>
             r <- prop test "results" ;;
             x <- prop r "requests_per_second" ;;
             ret (add sum (of_integer (parseInt x))))
          tests (Fin (inject_Z a)) w
    = (Return (Fin (inject_Z (fold_left Z.add (map snd stats) a))), w).
Proof.
  induction 1 as [| t stat tests stats (Ht & Hr & _ & Hrps) _ IH];
    intros a w; [reflexivity | ].
  cbn [foldM map fold_left]. unfold bind at 1. unfold bind at 1.
  unfold prop at 1. rewrite Ht. unfold ret at 1.
  unfold bind at 1. unfold prop at 1. rewrite Hr. unfold ret at 1.
  fold (resultField t "requests_per_second"). rewrite Hrps.
  rewrite parseInt_stored. cbn [of_integer]. rewrite add_integers.
  unfold ret at 1. apply IH.
Qed.

Lemma total_rates (tests : list value) (stats : list (Z * Z)) (w : World) :
  Forall2 carries tests stats ->
  sum_of parseFloat "success_rate" tests w
  = (Return (of_Z (sum (map fst stats))), w).
Proof. intros H. exact (sum_of_rates tests stats H 0 w). Qed.

Lemma total_throughputs (tests : list value) (stats : list (Z * Z))
    (w : World) :
  Forall2 carries tests stats ->
  sum_of (fun x => of_integer (parseInt x)) "requests_per_second" tests w
  = (Return (of_Z (sum (map snd stats))), w).
Proof. intros H. exact (sum_of_throughputs tests stats H 0 w). Qed.

Lemma gt_above (x : Q) (k : nat) :
  gt (Fin (Qred x)) (of_nat k) = above (Z.of_nat k) x.
Proof.
  unfold gt, of_nat, above. rewrite Qred_correct.
  destruct (inject_Z (Z.of_nat k) ?= x)%Q eqn:Hcmp.
  - symmetry. apply Bool.negb_false_iff, Qle_bool_iff.
    apply Qeq_alt in Hcmp. rewrite Hcmp. apply Qle_refl.
  - symmetry. apply Bool.negb_true_iff, Bool.not_true_is_false.
    intros Hle. apply Qle_bool_iff in Hle. apply Qlt_alt in Hcmp.
    exact (Qlt_not_le _ _ Hcmp Hle).
  - symmetry. apply Bool.negb_false_iff, Qle_bool_iff.
    apply Qgt_alt in Hcmp. apply Qlt_le_weak. exact Hcmp.
Qed.

Lemma scalabilityRating_comp (s s' t t' : Q) :
  s == s' -> t == t' -> scalabilityRating s t = scalabilityRating s' t'.
Proof.
  intros Hs Ht.
  assert (As : forall k, above k s = above k s')
    by (intros k; unfold above; now rewrite Hs).
  assert (At : forall k, above k t = above k t')
    by (intros k; unfold above; now rewrite Ht).
  unfold scalabilityRating. now rewrite !As, !At.
Qed.

(** C3. [calculateScalabilityRating] answers No Data for no entry;
    otherwise it compares the mean success rate and the mean throughput of
    the entries with the thresholds in order, strictly, the first match
    winning.  In particular a mean success rate of exactly 95 with a mean
    throughput of 900 rates Scalable, not Highly Scalable. *)
Theorem scalability_rating_thresholds
    (tests : list value) (stats : list (Z * Z)) (w : World) :
  Forall2 carries tests stats ->
  calculateScalabilityRating tests w =
  (Return
     match stats with
     | [] => "No Data"
     | _ => scalabilityRating (mean (map fst stats)) (mean (map snd stats))
     end, w) /\
  (stats <> [] ->
   mean (map fst stats) == 95 -> mean (map snd stats) == 900 ->
   calculateScalabilityRating tests w = (Return "Scalable", w)).
Proof.
  intros Hstats.
  assert (Hmain :
    calculateScalabilityRating tests w =
    (Return
       match stats with
       | [] => "No Data"
       | _ => scalabilityRating (mean (map fst stats)) (mean (map snd stats))
       end, w)).
  { pose proof (Forall2_length Hstats) as Hlen.
    unfold calculateScalabilityRating.
    destruct stats as [| stat stats].
    - destruct tests; [reflexivity | discriminate Hlen].
    - destruct tests as [| t tests]; [discriminate Hlen | ].
      remember (stat :: stats) as ss eqn:Hss.
      remember (t :: tests) as ts eqn:Hts.
      replace (List.length ts =? 0)%nat with false
        by (subst ts; reflexivity).
      unfold bind at 1. rewrite (total_rates ts ss w Hstats).
      unfold bind at 1. rewrite (total_throughputs ts ss w Hstats).
      change (of_nat (List.length ts))
        with (of_Z (Z.of_nat (List.length ts))).
      rewrite !div_positive by (subst ts; cbn [List.length]; lia).
      rewrite !gt_above.
      change (Z.of_nat 95) with 95. change (Z.of_nat 800) with 800.
      change (Z.of_nat 90) with 90. change (Z.of_nat 500) with 500.
      change (Z.of_nat 80) with 80. change (Z.of_nat 200) with 200.
      rewrite Hlen.
      destruct ss as [| s0 ss']; [discriminate Hss | ].
      unfold scalabilityRating, mean. rewrite !length_map.
      destruct (above 95 _ && above 800 _); [reflexivity | ].
      destruct (above 90 _ && above 500 _); [reflexivity | ].
      destruct (above 80 _ && above 200 _); reflexivity. }
  split; [exact Hmain | ].
  intros Hne Hrate Hrps. rewrite Hmain.
  destruct stats as [| stat stats]; [congruence | ].
  rewrite (scalabilityRating_comp _ 95 _ 900 Hrate Hrps). reflexivity.
Qed.

(* ------------------------------------------------------------------ *)
(** *** Rendering never fails on the entries of the sweeps *)

Lemma returns_ret {A} (a : A) : returns (ret a).
Proof. exists a. reflexivity. Qed.

Lemma returns_bind {A B} (m : M A) (k : A -> M B) :
  returns m -> (forall a, returns (k a)) -> returns (bind m k).
Proof.
  intros [a Hm] Hk. destruct (Hk a) as [b Hb]. exists b. intros w.
  unfold bind. now rewrite Hm, Hb.
Qed.

Lemma returns_bind_ret {A B} (a : A) (k : A -> M B) :
  returns (k a) -> returns (bind (ret a) k).
Proof. intros [b Hb]. exists b. intros w. unfold bind, ret. apply Hb. Qed.

Lemma returns_foldM {A B} (f : B -> A -> M B) (xs : list A) :
  (forall acc x, In x xs -> returns (f acc x)) ->
  forall acc, returns (foldM f xs acc).
Proof.
  induction xs as [| x rest IH]; intros Hf acc; cbn [foldM].
  - apply returns_ret.
  - apply returns_bind.
    + apply Hf. now left.
    + intros acc'. apply IH. intros acc'' y Hy. apply Hf. now right.
Qed.

Lemma returns_prop (v : value) (key : string) :
  nullish v = false -> returns (prop v key).
Proof. intros H. unfold prop. rewrite H. apply returns_ret. Qed.

Lemma truthy_is_not_nullish (v : value) :
  ToBoolean v = true -> nullish v = false.
Proof. destruct v; cbn; congruence. Qed.

Lemma returns_entries_of (v : value) :
  nullish v = false -> returns (entries_of v).
Proof.
  intros H. unfold entries_of.
  destruct v; try discriminate H; apply returns_ret.
Qed.

Lemma In_indexed {X : Type} (xs : list X) :
  forall (from i : nat) (x : X), In (i, x) (indexed from xs) -> In x xs.
Proof.
  induction xs as [| y ys IH]; intros from i x H; [destruct H | ].
  destruct H as [H | H]; [injection H as _ <-; now left | right].
  exact (IH _ _ _ H).
Qed.

Lemma returns_formatTest (text : string) (index : nat) (test : value) :
  formattable test -> returns (formatTest text (index, test)).
Proof.
  intros (Hobj & Hresults & Hlevels). unfold formatTest.
  apply returns_bind; [apply returns_prop, Hobj | intros test_name].
  apply returns_bind.
  { destruct (ToBoolean (member test "configuration")) eqn:Hc;
      [| apply returns_ret].
    apply returns_bind; [| intros; apply returns_ret].
    apply returns_entries_of, truthy_is_not_nullish, Hc. }
  intros text1. apply returns_bind.
  { destruct (ToBoolean (member test "results")) eqn:Hr;
      [| apply returns_ret].
    pose proof (truthy_is_not_nullish _ Hr) as Hnn.
    unfold entries_of at 1.
    destruct (Object_entries (member test "results")) as [entries |] eqn:He;
      [| destruct (member test "results"); discriminate].
    apply returns_bind_ret.
    specialize (Hresults entries eq_refl). rewrite Forall_forall in Hresults.
    apply returns_foldM. intros acc [key value] Hin.
    specialize (Hresults _ Hin). cbn [snd] in Hresults.
    destruct (typeof_object value) eqn:Ht; [| apply returns_ret].
    apply returns_bind; [| intros; apply returns_ret].
    apply returns_entries_of.
    destruct value; try discriminate Ht; [congruence | reflexivity ..]. }
  intros text2. apply returns_bind; [| intros; apply returns_ret].
  destruct (ToBoolean (member test "load_levels")) eqn:Hl;
    [| apply returns_ret].
  destruct (Hlevels eq_refl) as (levels & -> & Hall).
  rewrite Forall_forall in Hall.
  apply returns_foldM. intros acc level Hin.
  apply returns_bind; [| intros; apply returns_ret].
  apply returns_prop, Hall, Hin.
Qed.

(** The report renders when its entries are formattable. *)
Lemma returns_formatReportAsText (report : Report) :
  Forall formattable (tests report) -> returns (formatReportAsText report).
Proof.
  intros Hall. rewrite Forall_forall in Hall. unfold formatReportAsText.
  apply returns_bind; [| intros; apply returns_ret].
  apply returns_foldM. intros acc [index test] Hin.
  apply returns_formatTest, Hall. exact (In_indexed _ _ _ _ Hin).
Qed.

(* ------------------------------------------------------------------ *)
(** *** The entries of the sweeps are sound *)

Lemma batch_entry_hasResults (endpoint : string) (C N : nat) (D : Z)
    (rs : list RequestOutcome) :
  hasResults (testResultOf endpoint C N D rs).
Proof. repeat split. Qed.

Lemma batch_entry_sound (endpoint : string) (C N : nat) (D : Z)
    (rs : list RequestOutcome) :
  sound (testResultOf endpoint C N D rs).
Proof.
  split; [| intros _; apply batch_entry_hasResults].
  split; [reflexivity | split].
  - intros entries H. unfold testResultOf in H.
    cbn [member lookup String.eqb Ascii.eqb Bool.eqb Object_entries] in H.
    injection H as <-. repeat constructor; discriminate.
  - intros H. discriminate H.
Qed.

Lemma resource_entry_sound (n : nat) :
  sound (VObject
           [("test_name", VString "Resource Usage Test");
            ("duration", VString "30000ms");
            ("measurements", VNat n);
            ("memory_usage",
             VObject [("samples", VNat n);
                      ("monitoring_duration", VString "30s")])]).
Proof.
  split; [| intros H; discriminate H].
  split; [reflexivity | split].
  - intros entries H. discriminate H.
  - intros H. discriminate H.
Qed.

Lemma load_entry_sound (levels : list value) :
  Forall (fun level => nullish level = false) levels ->
  sound (VObject [("test_name", VString "Load Increase Test");
                  ("load_levels", VArray levels)]).
Proof.
  intros Hall. split; [| intros H; discriminate H].
  split; [reflexivity | split].
  - intros entries H. discriminate H.
  - intros _. exists levels. split; [reflexivity | exact Hall].
Qed.

(* ------------------------------------------------------------------ *)
(** *** What the sweeps do *)

Lemma count_shift (f : nat -> bool) (c m : nat) :
  forall a,
    List.length (filter (fun i => f (c + i)%nat) (seq a m))
    = List.length (filter f (seq (c + a) m)).
Proof.
  induction m as [| m IH]; intros a; [reflexivity | ].
  cbn [seq filter]. rewrite <- Nat.add_succ_r.
  destruct (f (c + a)%nat); cbn [List.length]; rewrite IH; reflexivity.
Qed.

Lemma hanging_split (env : Env) (first n m : nat) :
  hanging env first (n + m)
  = (hanging env first n + hanging env (first + n) m)%nat.
Proof.
  unfold hanging.
  rewrite !(count_shift (fun k => pending (settle (network env k)))).
  rewrite !Nat.add_0_r, seq_app, filter_app, length_app. reflexivity.
Qed.

Lemma hanging_none (env : Env) (first n : nat) :
  allSettle env first n -> hanging env first n = 0%nat.
Proof.
  intros Hall. apply none_hanging. intros i Hi. apply Hall. lia.
Qed.

Lemma hanging_some (env : Env) (first n i : nat) :
  (i < n)%nat -> network env (first + i) = Hangs ->
  (0 < hanging env first n)%nat.
Proof.
  intros Hi Hnet. unfold hanging.
  assert (Hin : In i (filter (fun i => pending (settle (network env (first + i))))
                             (seq 0 n))).
  { apply filter_In. split; [apply in_seq; lia | rewrite Hnet; reflexivity]. }
  destruct (filter _ (seq 0 n)); [destruct Hin | cbn [List.length]; lia].
Qed.

Lemma allSettle_split (env : Env) (first n m : nat) :
  allSettle env first (n + m) ->
  allSettle env first n /\ allSettle env (first + n) m.
Proof.
  intros Hall. split; intros i Hi.
  - apply Hall. lia.
  - rewrite <- Nat.add_assoc. apply Hall. lia.
Qed.

(** Either the loop of a call gets past every group, or there is a group
    it never gets past. *)
Lemma settles_or_stalls (env : Env) (first C N : nat) :
  everyGroupSettles env first C N \/
  exists k, (k < groupCount C N)%nat /\
            groupSettles (groupPromises env first C N k) = false.
Proof.
  unfold everyGroupSettles.
  induction (groupCount C N) as [| n [IH | (k & Hk & Hstall)]].
  - left. intros g Hg. lia.
  - destruct (groupSettles (groupPromises env first C N n)) eqn:Hn.
    + left. intros g Hg.
      destruct (Nat.eq_dec g n) as [-> | Hne]; [exact Hn | apply IH; lia].
    + right. exists n. split; [lia | exact Hn].
  - right. exists k. split; [lia | exact Hstall].
Qed.

Lemma sweeps_ret {A} (env : Env) (first : nat)
    (Q : A -> list value -> Prop) (a : A) :
  Q a [] -> sweeps env first 0 0 Q (ret a).
Proof.
  intros HQ w Hd Hw. unfold ret. exists [].
  rewrite List.app_nil_r. unfold hanging. cbn [seq filter List.length].
  repeat split; [constructor | exact HQ | lia | lia].
Qed.

Lemma sweeps_bind {A B} (env : Env) (first n1 n2 l1 l2 n l : nat)
    (Q1 : A -> list value -> Prop) (Q : B -> list value -> Prop)
    (m : M A) (k : A -> M B) :
  sweeps env first n1 l1 Q1 m ->
  (forall a new1, Q1 a new1 ->
     sweeps env (first + n1) n2 l2 (fun b new2 => Q b (new1 ++ new2)%list)
            (k a)) ->
  n = (n1 + n2)%nat -> l = (l1 + l2)%nat ->
  sweeps env first n l Q (bind m k).
Proof.
  intros Hm Hk -> -> w Hd Hw. specialize (Hm w Hd Hw). unfold bind.
  destruct (m w) as [[a | e | c |] w1]; try contradiction.
  - destruct Hm as (new1 & Ht1 & Hs1 & HQ1 & Hd1 & Hf1 & Hu1).
    assert (Hw1 : soundWorld w1)
      by (unfold soundWorld; rewrite Ht1; apply Forall_app; split;
          assumption).
    specialize (Hk a new1 HQ1 w1 Hd1 Hw1).
    destruct (k a w1) as [[b | e | c |] w2]; try contradiction.
    + destruct Hk as (new2 & Ht2 & Hs2 & HQ2 & Hd2 & Hf2 & Hu2).
      exists (new1 ++ new2)%list.
      split; [rewrite Ht2, Ht1, List.app_assoc; reflexivity | ].
      split; [apply Forall_app; split; assumption | ].
      split; [exact HQ2 | ].
      split; [lia | ]. split; [congruence | ].
      rewrite hanging_split. lia.
    + intros Hall. apply Hk. apply allSettle_split, Hall.
  - intros Hall. apply Hm. apply allSettle_split in Hall. apply Hall.
Qed.

Lemma sweeps_weaken {A} (env : Env) (first n l : nat)
    (Q Q' : A -> list value -> Prop) (m : M A) :
  (forall a new, Q a new -> Q' a new) ->
  sweeps env first n l Q m -> sweeps env first n l Q' m.
Proof.
  intros HQ Hm w Hd Hw. specialize (Hm w Hd Hw).
  destruct (m w) as [[a | e | c |] w1]; try exact Hm.
  destruct Hm as (new & Ht & Hs & Ha & Hrest).
  exists new. repeat split; try apply Hrest; try assumption. apply HQ, Ha.
Qed.

(** One call of the batch scheduler appends its entry, which it returns. *)
Lemma sweeps_testConcurrentConnections (env : Env) (endpoint : string)
    (C N first : nat) :
  (0 < C)%nat ->
  sweeps env first N 0 (fun v new => batchFor (endpoint, C, N) v /\ new = [v])
         (testConcurrentConnections env endpoint C N).
Proof.
  intros HC w Hd _.
  destruct (settles_or_stalls env (dispatched w) C N)
    as [Hsettle | (k & Hk & Hstall)].
  - rewrite testConcurrentConnections_spec by assumption.
    eexists. cbn [results tests dispatched files unanswered].
    split; [reflexivity | ].
    split; [constructor; [apply batch_entry_sound | constructor] | ].
    split; [split; [eexists; eexists; reflexivity | reflexivity] | ].
    rewrite Hd. split; [reflexivity | ]. split; [reflexivity | lia].
  - pose proof (testConcurrentConnections_stalls env endpoint C N w k HC Hk
                  Hstall) as Hrun.
    destruct (testConcurrentConnections env endpoint C N w)
      as [[a | e | c |] w1]; try discriminate Hrun.
    intros Hall.
    pose proof (settles_when_all_settle env first C N Hall k Hk) as Hs.
    rewrite Hd in Hstall. congruence.
Qed.

Lemma sweeps_endpoint (env : Env) (endpoint : string) (first : nat) :
  sweeps env first 200 0
    (fun (_ : unit) new =>
       exists v, batchFor (endpoint, 50%nat, 200%nat) v /\ new = [v])
    (testConcurrentConnections env endpoint 50 200 ;;; ret tt).
Proof.
  eapply sweeps_bind;
    [apply sweeps_testConcurrentConnections; lia
    | intros v new1 (Hv & ->) | reflexivity | reflexivity].
  apply sweeps_ret. exists v. split; [exact Hv | reflexivity].
Qed.

(** The endpoints of [testMultipleEndpoints], with its configuration. *)
Lemma sweeps_testMultipleEndpoints (env : Env) (first : nat) :
  sweeps env first 1000 0
    (fun _ new =>
       Forall2 (fun t endpoint => batchFor (endpoint, 50%nat, 200%nat) t) new
         ["/api/users"; "/api/posts"; "/api/todos"; "/api/albums";
          "/api/stats"])
    (testMultipleEndpoints env).
Proof.
  unfold testMultipleEndpoints. cbn [foldM].
  eapply sweeps_bind;
    [apply sweeps_endpoint | intros ? ? (v1 & H1 & ->) | | reflexivity].
  eapply sweeps_bind;
    [apply sweeps_endpoint | intros ? ? (v2 & H2 & ->) | | reflexivity].
  eapply sweeps_bind;
    [apply sweeps_endpoint | intros ? ? (v3 & H3 & ->) | | reflexivity].
  eapply sweeps_bind;
    [apply sweeps_endpoint | intros ? ? (v4 & H4 & ->) | | reflexivity].
  eapply sweeps_bind;
    [apply sweeps_endpoint | intros ? ? (v5 & H5 & ->) | | reflexivity].
  apply sweeps_ret. cbn [app].
  repeat (constructor; [assumption | ]). constructor.
  all: reflexivity.
Qed.

(** One level of the load sweep: the batch and the line derived from its
    entry. *)
Lemma sweeps_load_level (env : Env) (loadResults : list value)
    (load first : nat) :
  (0 < load)%nat ->
  sweeps env first (load * 5) 0
    (fun acc new =>
       exists v, batchFor ("/api/posts", load, (load * 5)%nat) v /\
                 new = [v] /\
                 acc = (loadResults ++ [levelOf load v])%list)
    (result <- testConcurrentConnections env "/api/posts" load (load * 5) ;;
     r <- prop result "results" ;;
     success_rate <- prop r "success_rate" ;;
     requests_per_second <- prop r "requests_per_second" ;;
     response_times <- prop r "response_times" ;;
     average <- prop response_times "average" ;;
     ret (loadResults ++
          [VObject [("load_level", VNat load);
                    ("success_rate", success_rate);
                    ("requests_per_second", requests_per_second);
                    ("avg_response_time", average)]])%list).
Proof.
  intros Hload.
  eapply sweeps_bind with (n2 := 0%nat) (l2 := 0%nat);
    [apply sweeps_testConcurrentConnections; exact Hload
    | intros v new1 ((D & rs & ->) & ->) | lia | reflexivity].
  intros w Hd _.
  match goal with
  | |- match ?m w with _ => _ end =>
      assert (Hrun : m w
                     = (Return
                          (loadResults ++
                           [levelOf load
                              (testResultOf "/api/posts" load (load * 5)
                                 D rs)])%list, w))
        by reflexivity;
      rewrite Hrun
  end.
  exists []. rewrite !List.app_nil_r.
  unfold hanging. cbn [seq filter List.length].
  repeat split; [constructor | | lia | lia].
  eexists. split; [eexists; eexists; reflexivity | ].
  split; reflexivity.
Qed.

Lemma sweeps_testLoadIncrease (env : Env) (first : nat) :
  sweeps env first 1925 0
    (fun loadTest new =>
       exists b1 b2 b3 b4 b5,
         new = [b1; b2; b3; b4; b5; loadTest] /\
         Forall2 (fun t load =>
                    batchFor ("/api/posts", load, (load * 5)%nat) t)
                 [b1; b2; b3; b4; b5] [10; 25; 50; 100; 200]%nat /\
         loadTest =
         VObject [("test_name", VString "Load Increase Test");
                  ("load_levels",
                   VArray [levelOf 10 b1; levelOf 25 b2; levelOf 50 b3;
                           levelOf 100 b4; levelOf 200 b5])])
    (testLoadIncrease env).
Proof.
  unfold testLoadIncrease. cbn [foldM].
  eapply sweeps_bind with
    (Q1 := fun acc new =>
             exists b1 b2 b3 b4 b5,
               new = [b1; b2; b3; b4; b5] /\
               Forall2 (fun t load =>
                          batchFor ("/api/posts", load, (load * 5)%nat) t)
                       [b1; b2; b3; b4; b5] [10; 25; 50; 100; 200]%nat /\
               acc = [levelOf 10 b1; levelOf 25 b2; levelOf 50 b3;
                      levelOf 100 b4; levelOf 200 b5])
    (n1 := 1925%nat) (n2 := 0%nat) (l1 := 0%nat) (l2 := 0%nat);
    [| | reflexivity | reflexivity].
  - eapply sweeps_bind;
      [apply sweeps_load_level; lia | intros ? ? (b1 & H1 & -> & ->)
      | | reflexivity].
    eapply sweeps_bind;
      [apply sweeps_load_level; lia | intros ? ? (b2 & H2 & -> & ->)
      | | reflexivity].
    eapply sweeps_bind;
      [apply sweeps_load_level; lia | intros ? ? (b3 & H3 & -> & ->)
      | | reflexivity].
    eapply sweeps_bind;
      [apply sweeps_load_level; lia | intros ? ? (b4 & H4 & -> & ->)
      | | reflexivity].
    eapply sweeps_bind;
      [apply sweeps_load_level; lia | intros ? ? (b5 & H5 & -> & ->)
      | | reflexivity].
    apply sweeps_ret. cbn [app].
    exists b1, b2, b3, b4, b5.
    split; [reflexivity | split; [| reflexivity]].
    repeat (constructor; [assumption | ]). constructor.
    all: reflexivity.
  - intros loadResults new1 (b1 & b2 & b3 & b4 & b5 & -> & Hall & ->) w Hd _.
    unfold bind, push_test, ret.
    cbn [results tests dispatched files unanswered].
    exists [VObject [("test_name", VString "Load Increase Test");
                     ("load_levels",
                      VArray [levelOf 10 b1; levelOf 25 b2; levelOf 50 b3;
                              levelOf 100 b4; levelOf 200 b5])]].
    split; [reflexivity | ].
    split.
    { constructor; [| constructor]. apply load_entry_sound.
      repeat (constructor; [reflexivity | ]). constructor. }
    unfold hanging. cbn [seq filter List.length].
    split; [| repeat split; lia].
    cbn [app]. exists b1, b2, b3, b4, b5.
    split; [reflexivity | split; [exact Hall | reflexivity]].
Qed.

(** The resource sweep: the entry of its batch, then its own. *)
Lemma sweeps_testResourceUsage (env : Env) (first : nat) :
  sweeps env first 300 (List.length (filter tickHangs (monitor env)))
    (fun t new =>
       exists b, batchFor ("/api/users", 20%nat, 300%nat) b /\
                 new = [b; resourceEntry] /\ t = resourceEntry)
    (testResourceUsage env).
Proof.
  intros w Hd _.
  destruct (settles_or_stalls env (dispatched w) 20 300)
    as [Hsettle | (k & Hk & Hstall)].
  - destruct (testResourceUsage_spec env w Hsettle) as (n & _ & ->).
    eexists. cbn [results tests dispatched files unanswered].
    split; [reflexivity | ].
    split.
    { constructor; [apply batch_entry_sound | ].
      constructor; [apply (resource_entry_sound 0) | constructor]. }
    split.
    { eexists. split; [eexists; eexists; reflexivity | ].
      split; reflexivity. }
    rewrite Hd. repeat split; reflexivity.
  - pose proof (testConcurrentConnections_stalls env "/api/users" 20 300
                  {| results := results w; stderr := stderr w;
                     invocations := invocations w;
                     dispatched := dispatched w;
                     clockReads := S (clockReads w); files := files w;
                     unanswered := unanswered w |} k ltac:(lia) Hk Hstall)
      as Hrun.
    unfold testResourceUsage.
    unfold bind at 1. unfold Date_now at 1. unfold bind at 1.
    destruct (testConcurrentConnections env "/api/users" 20 300 _)
      as [[a | e | c |] w1]; try discriminate Hrun.
    intros Hall.
    pose proof (settles_when_all_settle env first 20 300 Hall k Hk) as Hs.
    rewrite Hd in Hstall. congruence.
Qed.

(* ------------------------------------------------------------------ *)
(** *** Generating and saving the report *)

Lemma returns_sum_of (read : value -> number) (field : string)
    (ts : list value) :
  Forall hasResults ts -> returns (sum_of read field ts).
Proof.
  intros Hall. rewrite Forall_forall in Hall. unfold sum_of.
  apply returns_foldM. intros acc t Hin.
  destruct (Hall t Hin) as (Ht & Hr & _).
  unfold prop at 1. rewrite Ht. apply returns_bind_ret.
  unfold prop at 1. rewrite Hr. apply returns_bind_ret.
  apply returns_ret.
Qed.

Lemma returns_calculateScalabilityRating (ts : list value) :
  Forall hasResults ts -> returns (calculateScalabilityRating ts).
Proof.
  intros Hall. unfold calculateScalabilityRating.
  destruct (List.length ts =? 0)%nat; [apply returns_ret | ].
  apply returns_bind; [apply returns_sum_of, Hall | intros totalSuccessRate].
  apply returns_bind; [apply returns_sum_of, Hall | intros totalRPS].
  destruct (gt _ _ && gt _ _); [apply returns_ret | ].
  destruct (gt _ _ && gt _ _); [apply returns_ret | ].
  destruct (gt _ _ && gt _ _); apply returns_ret.
Qed.

(** The filter of [generateReport] keeps entries that have results. *)
Lemma named_spec (ts : list value) :
  Forall sound ts ->
  forall kept, Forall hasResults kept ->
    exists kept',
      Forall hasResults kept' /\
      forall w,
        foldM (fun kept t =>
                 test_name <- prop t "test_name" ;;
                 ret (if strict_eq_string test_name
                                          "Concurrent Connections Test"
                      then kept ++ [t] else kept)%list)
              ts kept w
        = (Return kept', w).
Proof.
  induction 1 as [| t ts ((Ht & _) & Hbatch) _ IH]; intros kept Hkept.
  - exists kept. split; [exact Hkept | reflexivity].
  - cbn [foldM].
    destruct (strict_eq_string (member t "test_name")
                               "Concurrent Connections Test") eqn:Hname.
    + destruct (IH (kept ++ [t])%list) as (kept' & Hkept' & Hrun).
      { apply Forall_app. split; [exact Hkept | ].
        constructor; [apply Hbatch; reflexivity | constructor]. }
      exists kept'. split; [exact Hkept' | ]. intros w.
      unfold bind at 1. unfold prop. rewrite Ht. unfold bind, ret.
      rewrite Hname. apply Hrun.
    + destruct (IH kept Hkept) as (kept' & Hkept' & Hrun).
      exists kept'. split; [exact Hkept' | ]. intros w.
      unfold bind at 1. unfold prop. rewrite Ht. unfold bind, ret.
      rewrite Hname. apply Hrun.
Qed.

Lemma returns_response_times (ts : list value) :
  Forall hasResults ts ->
  forall acc,
    returns
      (foldM (fun sum test =>
                r <- prop test "results" ;;
                response_times <- prop r "response_times" ;;
                average <- prop response_times "average" ;;
                ret (add sum (of_integer (parseInt average))))
             ts acc).
Proof.
  intros Hall. rewrite Forall_forall in Hall.
  apply returns_foldM. intros acc t Hin.
  destruct (Hall t Hin) as (Ht & Hr & Hrt).
  unfold prop at 1. rewrite Ht. apply returns_bind_ret.
  unfold prop at 1. rewrite Hr. apply returns_bind_ret.
  unfold prop at 1. unfold resultField in Hrt. rewrite Hrt.
  apply returns_bind_ret. apply returns_ret.
Qed.

(** [generateReport] returns the report of the tester, after setting its
    summary when there is a batch entry; it changes nothing else. *)
Lemma generateReport_spec (w : World) :
  soundWorld w ->
  exists s : object,
    generateReport w =
    (Return {| timestamp := timestamp (results w);
               tests := tests (results w);
               summary := s |},
     {| results := {| timestamp := timestamp (results w);
                      tests := tests (results w);
                      summary := s |};
        stderr := stderr w; invocations := invocations w;
        dispatched := dispatched w; clockReads := clockReads w;
        files := files w;
        unanswered := unanswered w |}).
Proof.
  intros Hw. unfold generateReport.
  unfold bind at 1. unfold get_results at 1.
  destruct (named_spec (tests (results w)) Hw [] (Forall_nil _))
    as (kept & Hkept & Hnamed).
  unfold bind at 1. unfold named. rewrite Hnamed.
  destruct (0 <? List.length kept)%nat.
  - destruct (returns_sum_of (fun x => of_integer (parseInt x))
                "requests_per_second" kept Hkept) as [totalRPS HRPS].
    destruct (returns_response_times kept Hkept (of_nat 0))
      as [totalResponseTime HRT].
    destruct (returns_calculateScalabilityRating kept Hkept)
      as [rating Hrating].
    eexists.
    unfold bind at 1. unfold bind at 1. rewrite HRPS.
    unfold bind at 1. rewrite HRT.
    unfold bind at 1. rewrite Hrating.
    unfold set_summary, get_results.
    cbn [results stderr invocations dispatched clockReads files timestamp
         tests summary].
    reflexivity.
  - exists (summary (results w)).
    unfold bind, ret, get_results. destruct w as [[ts tt s] e i d c f].
    reflexivity.
Qed.

Lemma sound_is_formattable (ts : list value) :
  Forall sound ts -> Forall formattable ts.
Proof. apply Forall_impl. intros t [H _]. exact H. Qed.

(** [saveResults] on a tester whose entries are sound: the report is
    generated and rendered; then the file is written, or the failure is
    reported on the console. *)
Lemma saveResults_spec (env : Env) (filename : string) (w : World) :
  soundWorld w ->
  exists (s : object) (text : string),
    (forall w0,
        formatReportAsText {| timestamp := timestamp (results w);
                              tests := tests (results w);
                              summary := s |} w0 = (Return text, w0)) /\
    saveResults env filename w =
    (Return tt,
     {| results := {| timestamp := timestamp (results w);
                      tests := tests (results w);
                      summary := s |};
        stderr :=
          match disk env filename text with
          | Some message =>
              (stderr w ++
               [(nl ++ "❌ Failed to save results: " ++ message)%string])%list
          | None => stderr w
          end;
        invocations := invocations w;
        dispatched := dispatched w; clockReads := clockReads w;
        files :=
          match disk env filename text with
          | Some _ => files w
          | None => (filename, text) :: files w
          end;
        unanswered := unanswered w |}).
Proof.
  intros Hw. destruct (generateReport_spec w Hw) as [s Hreport].
  destruct (returns_formatReportAsText
              {| timestamp := timestamp (results w);
                 tests := tests (results w); summary := s |})
    as [text Htext].
  { cbn [tests]. apply sound_is_formattable, Hw. }
  exists s, text. split; [exact Htext | ].
  unfold saveResults.
  unfold bind at 1. rewrite Hreport.
  unfold bind at 1. rewrite Htext.
  unfold try_catch, writeFile.
  destruct (disk env filename text); reflexivity.
Qed.

(** Generating the report appends nothing and issues no request. *)
Lemma sweeps_generateReport (env : Env) (first : nat) :
  sweeps env first 0 0 (fun (_ : unit) new => new = [])
         (generateReport ;;; ret tt).
Proof.
  intros w Hd Hw. destruct (generateReport_spec w Hw) as [s Hreport].
  unfold bind. rewrite Hreport. unfold ret.
  exists []. cbn [results tests dispatched files unanswered].
  rewrite List.app_nil_r. unfold hanging. cbn [seq filter List.length].
  repeat split; [constructor | lia | lia].
Qed.

(** The sweeps of a run and the report generated from them. *)
Lemma sweeps_of_a_run (env : Env) :
  sweeps env 0 3225 (List.length (filter tickHangs (monitor env)))
    (fun (_ : unit) new => List.length new = 13%nat)
    (testMultipleEndpoints env ;;;
     testResourceUsage env ;;;
     testLoadIncrease env ;;;
     (generateReport ;;; ret tt)).
Proof.
  eapply sweeps_bind;
    [apply sweeps_testMultipleEndpoints | intros ? new1 H1 | | ].
  - apply Forall2_length in H1. cbn [List.length] in H1.
    eapply sweeps_bind;
      [apply sweeps_testResourceUsage
      | intros ? new2 (b & _ & -> & _) | | ].
    + eapply sweeps_bind;
        [apply sweeps_testLoadIncrease
        | intros ? new3 (b1 & b2 & b3 & b4 & b5 & -> & _) | | ].
      * eapply sweeps_weaken; [| apply sweeps_generateReport].
        intros ? new4 ->. rewrite !length_app, H1. reflexivity.
      * reflexivity.
      * reflexivity.
    + reflexivity.
    + reflexivity.
  - reflexivity.
  - cbn [Nat.add]. rewrite Nat.add_0_r. reflexivity.
Qed.

Lemma run_shape (m1 : M unit) (m2 m3 : M value) (g : M Report) (k : M unit)
    (w : World) :
  (m1 ;;; m2 ;;; m3 ;;; g ;;; k) w
  = bind (m1 ;;; m2 ;;; m3 ;;; (g ;;; ret tt)) (fun _ => k) w.
Proof.
  unfold bind, ret.
  destruct (m1 w) as [[? | ? | ? |] w1]; try reflexivity.
  destruct (m2 w1) as [[? | ? | ? |] w2]; try reflexivity.
  destruct (m3 w2) as [[? | ? | ? |] w3]; try reflexivity.
  destruct (g w3) as [[? | ? | ? |] w4]; reflexivity.
Qed.

Lemma no_tick_hangs (ticks : list tick) :
  Forall (fun t => tickHangs t = false) ticks ->
  List.length (filter tickHangs ticks) = 0%nat.
Proof.
  induction 1 as [| t ticks Ht _ IH]; [reflexivity | ].
  cbn [filter]. rewrite Ht. exact IH.
Qed.

Lemma hanging_zero (env : Env) (first n : nat) :
  hanging env first n = 0%nat -> allSettle env first n.
Proof.
  intros Hzero i Hi Hnet.
  pose proof (hanging_some env first n i Hi Hnet). lia.
Qed.

(** A run whose preflight probe is answered: it ends normally, after the
    three sweeps, with the report rendered and written or the failure to
    write it reported; or it does not end, one of the requests of the sweeps
    being never answered. *)
Lemma run_outcome (env : Env) (status elapsed : Z) (size : nat) :
  preflight env = Responds status elapsed size ->
  match runPerformanceTests env with
  | (Return _, w') =>
      List.length (tests (results w')) = 13%nat /\
      dispatched w' = 3225%nat /\
      unanswered w'
      = (hanging env 0 3225
         + List.length (filter tickHangs (monitor env)))%nat /\
      soundWorld w' /\
      exists (text : string) (before : list string),
        (forall w0, formatReportAsText (results w') w0 = (Return text, w0)) /\
        match disk env "performance-results.txt" text with
        | None =>
            files w' = [("performance-results.txt", text)] /\
            stderr w' = before
        | Some message =>
            files w' = [] /\
            stderr w'
            = (before ++
               [(nl ++ "❌ Failed to save results: " ++ message)%string])%list
        end
  | (Diverge, _) => ~ allSettle env 0 3225
  | _ => False
  end.
Proof.
  intros Hpre.
  set (w1 := {| results := {| timestamp := startedAt env; tests := [];
                              summary := [] |};
                stderr := []; invocations := 1; dispatched := 0;
                clockReads := 0; files := []; unanswered := 0 |}).
  assert (Hw1 : soundWorld w1) by constructor.
  unfold runPerformanceTests, performanceTests.
  rewrite (bind_return _ _ _ w1 tt)
    by (unfold try_catch, bind, makeRequest, await; rewrite Hpre;
        reflexivity).
  unfold try_catch. rewrite run_shape. unfold bind at 1.
  pose proof (sweeps_of_a_run env w1 eq_refl Hw1) as Hsweeps.
  destruct ((testMultipleEndpoints env ;;;
             testResourceUsage env ;;;
             testLoadIncrease env ;;;
             (generateReport ;;; ret tt)) w1) as [[[] | e | c |] w5];
    try contradiction; [| exact Hsweeps].
  destruct Hsweeps as (new & Ht & Hs & Hlen & Hd & Hf & Hu).
  cbn [results tests app] in Ht.
  assert (Hw5 : soundWorld w5) by (unfold soundWorld; rewrite Ht; exact Hs).
  destruct (saveResults_spec env "performance-results.txt" w5 Hw5)
    as (s & text & Htext & Hsave).
  unfold bind at 1. rewrite Hsave. unfold ret.
  cbn [results tests dispatched unanswered files stderr].
  split; [rewrite Ht; exact Hlen | ]. split; [exact Hd | ].
  split; [rewrite Hu; reflexivity | ]. split; [exact Hw5 | ].
  exists text, (stderr w5). split; [exact Htext | ].
  rewrite Hf. cbn [files].
  destruct (disk env "performance-results.txt" text); split; reflexivity.
Qed.

(* ------------------------------------------------------------------ *)
(** *** The preflight check *)

(** A run whose preflight probe is answered and in which every request of
    the sweeps is answered or fails ends normally. *)
Lemma run_returns (env : Env) (status elapsed : Z) (size : nat) :
  preflight env = Responds status elapsed size ->
  allSettle env 0 3225 ->
  exists w' : World,
    runPerformanceTests env = (Return tt, w') /\
    List.length (tests (results w')) = 13%nat /\
    dispatched w' = 3225%nat /\
    unanswered w' = List.length (filter tickHangs (monitor env)) /\
    exists (text : string) (before : list string),
      (forall w0, formatReportAsText (results w') w0 = (Return text, w0)) /\
      match disk env "performance-results.txt" text with
      | None =>
          files w' = [("performance-results.txt", text)] /\
          stderr w' = before
      | Some message =>
          files w' = [] /\
          stderr w'
          = (before ++
             [(nl ++ "❌ Failed to save results: " ++ message)%string])%list
      end.
Proof.
  intros Hpre Hall.
  pose proof (run_outcome env status elapsed size Hpre) as Hrun.
  destruct (runPerformanceTests env) as [[[] | e | c |] w'];
    cbn beta iota in Hrun; [| destruct Hrun | destruct Hrun
                            | contradiction (Hrun Hall)].
  destruct Hrun as (Hn & Hd & Hu & _ & Hfile).
  rewrite (hanging_none _ _ _ Hall) in Hu.
  exists w'. repeat split; assumption.
Qed.

(** C4, as the code has it. The preflight check is a check that the target
    can be reached, not that it is healthy.  When the health probe ends in
    a transport error, the run is aborted at once: the process exits with
    code 1 after the one probe, no sweep has issued a request or read the
    clock, the report has no entry and no file is written; the console tells
    that the target cannot be reached.  When the probe is answered, whatever
    the status of the answer, the run goes on: if every request of the
    sweeps is answered or fails, the three sweeps dispatch their 3225
    requests and leave 13 entries, and the run ends normally.  When the
    probe is never answered, the run waits for ever and the process does
    not exit. *)
Theorem preflight_failure_aborts_the_run (env : Env) :
  (forall (message : string) (elapsed : Z),
      preflight env = Fails message elapsed ->
      exists w' : World,
        runPerformanceTests env = (Exit 1, w') /\
        exit_code (runPerformanceTests env) = Some 1 /\
        invocations w' = 1%nat /\
        dispatched w' = 0%nat /\
        clockReads w' = 0%nat /\
        tests (results w') = [] /\
        files w' = [] /\
        stderr w' =
          ["❌ Cannot connect to server. Please ensure the server is running on "
           ++ "http://localhost:3001";
           "   Run: npm start" ++ nl]) /\
  (forall (status elapsed : Z) (size : nat),
      preflight env = Responds status elapsed size ->
      allSettle env 0 3225 ->
      exists w' : World,
        runPerformanceTests env = (Return tt, w') /\
        dispatched w' = 3225%nat /\
        List.length (tests (results w')) = 13%nat) /\
  (preflight env = Hangs ->
   fst (runPerformanceTests env) = Diverge /\
   exit_code (runPerformanceTests env) = None).
Proof.
  split; [| split].
  - intros message elapsed Hdown.
    assert (Hprobe :
      try_catch
        (p <- makeRequest (preflight env) "/health" ;; await p ;;; ret tt)
        (fun _ =>
           console_error
             ("❌ Cannot connect to server. Please ensure the server is running on "
              ++ "http://localhost:3001") ;;;
           console_error ("   Run: npm start" ++ nl) ;;;
           process_exit 1)
        (new_PerformanceTester env)
      = (Exit 1,
         {| results := {| timestamp := startedAt env; tests := [];
                          summary := [] |};
            stderr :=
              ["❌ Cannot connect to server. Please ensure the server is running on "
               ++ "http://localhost:3001";
               "   Run: npm start" ++ nl];
            invocations := 1; dispatched := 0; clockReads := 0; files := [];
            unanswered := 0 |})).
    { rewrite Hdown. reflexivity. }
    eexists. split.
    + unfold runPerformanceTests, performanceTests.
      apply bind_exit. exact Hprobe.
    + unfold exit_code, runPerformanceTests, performanceTests.
      rewrite (bind_exit _ _ _ _ _ Hprobe). repeat split.
  - intros status elapsed size Hpre Hall.
    destruct (run_returns env status elapsed size Hpre Hall)
      as (w' & Hrun & Hn & Hd & _).
    exists w'. repeat split; assumption.
  - intros Hpre.
    unfold exit_code, runPerformanceTests, performanceTests.
    unfold bind at 1. unfold try_catch at 1. unfold bind at 1.
    unfold makeRequest at 1. rewrite Hpre. split; reflexivity.
Qed.

Lemma preflight_failure_aborts_the_run_witness :
  preflight Scenarios.unreachable
  = Fails "connect ECONNREFUSED 127.0.0.1:3001" 1 /\
  exists w' : World,
    runPerformanceTests Scenarios.unreachable = (Exit 1, w') /\
    exit_code (runPerformanceTests Scenarios.unreachable) = Some 1 /\
    invocations w' = 1%nat /\
    dispatched w' = 0%nat /\
    clockReads w' = 0%nat /\
    tests (results w') = [] /\
    files w' = [] /\
    stderr w' =
      ["❌ Cannot connect to server. Please ensure the server is running on "
       ++ "http://localhost:3001";
       "   Run: npm start" ++ nl].
Proof.
  split; [reflexivity | ].
  destruct (preflight_failure_aborts_the_run Scenarios.unreachable)
    as (Hfails & _ & _).
  apply (Hfails "connect ECONNREFUSED 127.0.0.1:3001" 1).
  reflexivity.
Defined.

(** C4 fails as stated: when the health endpoint answers the preflight
    probe with 503, the health check has failed and yet the run is not
    aborted: the sweeps dispatch all their 3225 requests, the report gets
    its 13 entries and is written, and the process ends with exit code 0. *)
Lemma unhealthy_probe_lets_the_run_proceed :
  preflight Cases.unready = Responds 503 2 0 /\
  exists (w' : World) (text : string),
    runPerformanceTests Cases.unready = (Return tt, w') /\
    exit_code (runPerformanceTests Cases.unready) = Some 0 /\
    dispatched w' = 3225%nat /\
    List.length (tests (results w')) = 13%nat /\
    files w' = [("performance-results.txt", text)].
Proof.
  split; [reflexivity | ].
  destruct (run_returns Cases.unready 503 2 0 eq_refl)
    as (w' & Hrun & Hn & Hd & Hu & text & before & _ & Hfile).
  { apply healthy_settles. reflexivity. }
  exists w', text. unfold exit_code. rewrite Hrun. cbn [fst snd].
  rewrite Hu. cbn [Cases.unready monitor filter List.length Nat.eqb].
  cbn [Cases.unready disk Scenarios.writable] in Hfile.
  repeat split; try assumption. apply Hfile.
Qed.

(** C6, as the code has it. When the report cannot be written, the failure
    is reported on the error console and the report in memory stays valid
    (it still renders); but [saveResults] catches the failure, so the caller
    does not see it: the run ends as a success, with exit code 0.  The
    report is written at the end of a run, which gets there when the
    preflight probe is answered and every request of the sweeps is answered
    or fails; the process then exits when no request of the sampling timer
    is left unanswered either. *)
Theorem report_write_failure_is_swallowed
    (env : Env) (status elapsed : Z) (size : nat) (message : string) :
  preflight env = Responds status elapsed size ->
  allSettle env 0 3225 ->
  Forall (fun t => tickHangs t = false) (monitor env) ->
  (forall text, disk env "performance-results.txt" text = Some message) ->
  exists w' : World,
    runPerformanceTests env = (Return tt, w') /\
    exit_code (runPerformanceTests env) = Some 0 /\
    files w' = [] /\
    last (stderr w') EmptyString
    = nl ++ "❌ Failed to save results: " ++ message /\
    returns (formatReportAsText (results w')).
Proof.
  intros Hpre Hall Hticks Hdisk.
  pose proof (run_outcome env status elapsed size Hpre) as Hrun.
  unfold exit_code.
  destruct (runPerformanceTests env) as [[[] | e | c |] w'];
    cbn beta iota in Hrun; [| destruct Hrun | destruct Hrun
                            | contradiction (Hrun Hall)].
  destruct Hrun as (_ & _ & Hu & Hw' & text & before & Htext & Hfile).
  rewrite Hdisk in Hfile. destruct Hfile as [Hf Herr].
  rewrite (hanging_none _ _ _ Hall), (no_tick_hangs _ Hticks) in Hu.
  exists w'. split; [reflexivity | ].
  cbn [fst snd]. rewrite Hu. split; [reflexivity | ].
  split; [exact Hf | ]. split.
  - rewrite Herr. apply last_last.
  - exists text. exact Htext.
Qed.

Lemma report_write_failure_is_swallowed_witness :
  preflight (Scenarios.run Scenarios.healthy [Scenarios.goodTick]
               Scenarios.readOnly)
  = Responds 200 3 15 /\
  allSettle (Scenarios.run Scenarios.healthy [Scenarios.goodTick]
               Scenarios.readOnly) 0 3225 /\
  Forall (fun t => tickHangs t = false)
    (monitor (Scenarios.run Scenarios.healthy [Scenarios.goodTick]
                Scenarios.readOnly)) /\
  (forall text,
      disk (Scenarios.run Scenarios.healthy [Scenarios.goodTick]
              Scenarios.readOnly) "performance-results.txt" text
      = Some "EACCES: permission denied") /\
  exists w' : World,
    runPerformanceTests
      (Scenarios.run Scenarios.healthy [Scenarios.goodTick]
         Scenarios.readOnly) = (Return tt, w') /\
    exit_code
      (runPerformanceTests
         (Scenarios.run Scenarios.healthy [Scenarios.goodTick]
            Scenarios.readOnly)) = Some 0 /\
    files w' = [] /\
    last (stderr w') EmptyString
    = nl ++ "❌ Failed to save results: " ++ "EACCES: permission denied" /\
    returns (formatReportAsText (results w')).
Proof.
  split; [reflexivity | ].
  split; [apply healthy_settles; reflexivity | ].
  split; [repeat constructor | ].
  split; [intros text; reflexivity | ].
  apply (report_write_failure_is_swallowed
           (Scenarios.run Scenarios.healthy [Scenarios.goodTick]
              Scenarios.readOnly)
           200 3 15 "EACCES: permission denied").
  - reflexivity.
  - apply healthy_settles. reflexivity.
  - repeat constructor.
  - intros text. reflexivity.
Defined.

(** C6 fails as stated: in a run against a healthy target whose report file
    cannot be written, nothing is written, and the process still ends with
    exit code 0. *)
Lemma write_failure_exits_zero :
  exit_code
    (runPerformanceTests
       (Scenarios.run Scenarios.healthy [Scenarios.goodTick]
          Scenarios.readOnly)) = Some 0 /\
  files
    (snd (runPerformanceTests
            (Scenarios.run Scenarios.healthy [Scenarios.goodTick]
               Scenarios.readOnly))) = [] /\
  stderr
    (snd (runPerformanceTests
            (Scenarios.run Scenarios.healthy [Scenarios.goodTick]
               Scenarios.readOnly)))
  = [nl ++ "❌ Failed to save results: EACCES: permission denied"].
Proof. vm_compute. repeat split. Qed.

Lemma scalability_rating_thresholds_witness :
  Forall2 carries [Scenarios.borderline] [(95, 900)] /\
  calculateScalabilityRating [Scenarios.borderline]
    (new_PerformanceTester Scenarios.unreachable)
  = (Return "Scalable", new_PerformanceTester Scenarios.unreachable).
Proof.
  assert (H : Forall2 carries [Scenarios.borderline] [(95, 900)]).
  { constructor; [| constructor]. repeat split. }
  split; [exact H | ].
  destruct (scalability_rating_thresholds
              [Scenarios.borderline] [(95, 900)]
              (new_PerformanceTester Scenarios.unreachable) H)
    as [Hmain _].
  rewrite Hmain. reflexivity.
Defined.

(** From the start of a call, as long as every request is answered. *)
Lemma concurrency_bound_when_all_answer (C N : nat)
    (events : list EventLoop.event) (states : list EventLoop.State) :
  forallb EventLoop.responds events = true ->
  EventLoop.trace C N (EventLoop.start C N) events = Some states ->
  Forall (fun s => (List.length (EventLoop.inFlight s) <= C)%nat /\
                   incl (EventLoop.inFlight s) (EventLoop.awaited s)) states.
Proof.
  apply in_flight_bound_without_failures. apply advance_orderly.
Qed.

(* ------------------------------------------------------------------ *)
(** *** The event loop and the method record the same outcomes *)

Section Agreement.

Import EventLoop.

Variable env : Env.
Variables C N : nat.
Hypothesis HC : (0 < C)%nat.

Lemma without_not_In (id : nat) (ids : list nat) : ~ In id (without id ids).
Proof.
  unfold without. intros H. apply filter_In in H. destruct H as [_ H].
  rewrite Nat.eqb_refl in H. discriminate H.
Qed.

Lemma without_subset (id x : nat) (ids : list nat) :
  In x (without id ids) -> In x ids.
Proof. unfold without. intros H. apply filter_In in H. tauto. Qed.

Lemma recordedUpTo_succ (g : nat) :
  recordedUpTo env C N (S g)
  = (recordedUpTo env C N g
     ++ groupRecorded (groupPromises env 0 C N g))%list.
Proof.
  unfold recordedUpTo. rewrite seq_S, flat_map_app. cbn [flat_map Nat.add].
  rewrite List.app_nil_r. reflexivity.
Qed.

(** The state the loop reaches when it takes up group [g]. *)
Lemma advance_faithful (g : nat) (flying : list nat) :
  (g <= groupCount C N)%nat ->
  faithful env C N (advance C N (g * C) flying (recordedUpTo env C N g)).
Proof.
  intros Hg. exists g. unfold advance.
  destruct (g * C <? N)%nat eqn:Hlt; cbn [batch results finished awaited
                                           arrived inFlight].
  - apply group_exists in Hlt; [| exact HC].
    repeat split; [exact Hlt | constructor | constructor].
  - split; [reflexivity | split; [reflexivity | ]].
    assert (~ (g < groupCount C N)%nat)
      by (rewrite <- group_exists, Hlt by exact HC; discriminate).
    split; [lia | reflexivity].
Qed.

(** A group with a failing member records nothing. *)
Lemma some_rejection (ids : list nat) (id : nat) (message : string)
    (elapsed : Z) :
  In id ids -> network env id = Fails message elapsed ->
  first_rejection (map (fun i => settle (network env (0 + i))) ids) <> None.
Proof.
  intros Hin Hfail Hnone.
  apply (proj1 (first_rejection_none _) Hnone (TransportError message)
               elapsed).
  apply rejected_member. exists id, message. repeat split; assumption.
Qed.

Lemma rejected_group (g id : nat) (message : string) (elapsed : Z) :
  In id (groupIds C N g) -> network env id = Fails message elapsed ->
  groupRecorded (groupPromises env 0 C N g) = [].
Proof.
  intros Hin Hfail. unfold groupRecorded, groupPromises.
  pose proof (some_rejection _ id message elapsed Hin Hfail) as Hsome.
  destruct (first_rejection _); [reflexivity | congruence].
Qed.

Lemma find_arrived (id : nat) (arr : list (nat * RequestOutcome)) :
  In id (map fst arr) ->
  exists o, find (fun p => Nat.eqb id (fst p)) arr = Some (id, o) /\
            In (id, o) arr.
Proof.
  induction arr as [| [x o] arr IH]; intros Hin; [destruct Hin | ].
  cbn [find fst]. destruct (Nat.eqb_spec id x) as [-> | Hne].
  - exists o. split; [reflexivity | now left].
  - destruct Hin as [Hx | Hin]; [cbn in Hx; congruence | ].
    destruct (IH Hin) as (o' & Hfind & Hin'). exists o'.
    split; [exact Hfind | now right].
Qed.

(** A group whose members have all resolved records their outcomes, in the
    order of its members. *)
Lemma resolved_group (ids : list nat) (arr : list (nat * RequestOutcome)) :
  incl ids (map fst arr) ->
  Forall (fun p : nat * RequestOutcome =>
            settle (network env (fst p)) = Resolved (snd p)) arr ->
  groupRecorded (map (fun i => settle (network env (0 + i))) ids)
  = in_order ids arr.
Proof.
  intros Hincl Harr. rewrite Forall_forall in Harr.
  assert (Hall : forall id, In id ids ->
            exists o, find (fun p => Nat.eqb id (fst p)) arr = Some (id, o) /\
                      settle (network env id) = Resolved o).
  { intros id Hid. destruct (find_arrived id arr (Hincl id Hid))
      as (o & Hfind & Hin).
    exists o. split; [exact Hfind | exact (Harr (id, o) Hin)]. }
  clear Hincl Harr. unfold groupRecorded.
  assert (Hnone : first_rejection
                    (map (fun i => settle (network env (0 + i))) ids) = None).
  { apply first_rejection_none. intros e t Hin.
    apply in_map_iff in Hin. destruct Hin as (x & Hx & Hin).
    destruct (Hall x Hin) as (o & _ & Ho). cbn [Nat.add] in Hx.
    rewrite Ho in Hx. discriminate Hx. }
  rewrite Hnone. clear Hnone. unfold outcomes, in_order.
  induction ids as [| x xs IH]; [reflexivity | ].
  cbn [map flat_map Nat.add].
  destruct (Hall x (or_introl eq_refl)) as (o & -> & ->).
  f_equal. apply IH.
  intros id Hid. apply Hall. now right.
Qed.

Lemma step_faithful (s s' : State) (id : nat) (r : reply) :
  faithful env C N s -> network env id = r ->
  step C N s (Answer id r) = Some s' -> faithful env C N s'.
Proof.
  intros (g & Hbatch & Hresults & Hstate) Hr Hstep.
  unfold step in Hstep.
  destruct (pending (settle r)) eqn:Hpend; [discriminate Hstep | ].
  destruct (mem id (inFlight s)) eqn:Hfly; [| discriminate Hstep].
  apply mem_In in Hfly.
  destruct (finished s) eqn:Hfin.
  - (* the loop is over: a late answer *)
    destruct Hstate as (Hg & Hawaited).
    rewrite Hawaited in Hstep. cbn [mem existsb] in Hstep.
    injection Hstep as <-.
    exists g. cbn [batch results finished awaited]. try rewrite Hfin.
    repeat split; assumption.
  - destruct Hstate as (Hg & Hawaited & Hnd & Harr).
    destruct (mem id (awaited s)) eqn:Haw.
    + apply mem_In in Haw.
      destruct r as [status elapsed size | message elapsed |];
        cbn [settle] in Hstep; [| | discriminate Hpend].
      * set (o := {| statusCode := status; duration := elapsed;
                     responseSize := size;
                     success := (200 <=? status) && (status <? 300) |}) in *.
        assert (Hfresh : ~ In id (map fst (arrived s))).
        { intros Hin. apply in_map_iff in Hin.
          destruct Hin as (p & Hp & Hin). rewrite Forall_forall in Harr.
          destruct (Harr p Hin) as (_ & _ & Hout). apply Hout.
          rewrite Hp. exact Hfly. }
        destruct (List.length ((id, o) :: arrived s)
                  =? List.length (awaited s))%nat eqn:Hall;
          injection Hstep as <-.
        -- apply Nat.eqb_eq in Hall.
           rewrite Hbatch.
           replace (g * C + C)%nat with (S g * C)%nat by lia.
           replace (results s
                    ++ in_order (awaited s) ((id, o) :: arrived s))%list
             with (recordedUpTo env C N (S g)); [apply advance_faithful; lia | ].
           rewrite recordedUpTo_succ, Hresults. f_equal.
           unfold groupPromises. rewrite <- Hawaited.
           apply resolved_group.
           ++ apply NoDup_length_incl.
              ** constructor; [exact Hfresh | exact Hnd].
              ** cbn [map List.length]. rewrite length_map.
                 cbn [List.length] in Hall. lia.
              ** intros x [<- | Hx]; [exact Haw | ].
                 apply in_map_iff in Hx. destruct Hx as (p & <- & Hin).
                 rewrite Forall_forall in Harr. apply (Harr p Hin).
           ++ constructor.
              ** cbn [fst snd]. rewrite Hr. reflexivity.
              ** eapply Forall_impl; [| exact Harr]. intros p Hp. apply Hp.
        -- exists g. cbn [batch results finished awaited arrived inFlight].
           try rewrite Hfin.
           split; [exact Hbatch | split; [exact Hresults | ]].
           split; [exact Hg | split; [exact Hawaited | split]].
           ++ cbn [map fst]. constructor; [exact Hfresh | exact Hnd].
           ++ constructor.
              ** cbn [fst snd]. split; [exact Haw | split].
                 --- rewrite Hr. reflexivity.
                 --- apply without_not_In.
              ** eapply Forall_impl; [| exact Harr].
                 intros p (Hp1 & Hp2 & Hp3). split; [exact Hp1 | split].
                 --- exact Hp2.
                 --- intros Hin. apply Hp3. exact (without_subset _ _ _ Hin).
      * injection Hstep as <-. rewrite Hbatch.
        replace (g * C + C)%nat with (S g * C)%nat by lia.
        replace (results s) with (recordedUpTo env C N (S g));
          [apply advance_faithful; lia | ].
        rewrite recordedUpTo_succ, Hresults.
        rewrite (rejected_group g id message elapsed);
          [apply List.app_nil_r | | exact Hr].
        rewrite <- Hawaited. exact Haw.
    + injection Hstep as <-.
      exists g. cbn [batch results finished awaited arrived inFlight].
      try rewrite Hfin.
      split; [exact Hbatch | split; [exact Hresults | ]].
      split; [exact Hg | split; [exact Hawaited | split; [exact Hnd | ]]].
      eapply Forall_impl; [| exact Harr].
      intros p (Hp1 & Hp2 & Hp3). split; [exact Hp1 | split; [exact Hp2 | ]].
      intros Hin. apply Hp3. exact (without_subset _ _ _ Hin).
Qed.

Lemma trace_faithful (events : list event) :
  forall (s : State) (states : list State),
    faithful env C N s -> agrees env events ->
    trace C N s events = Some states ->
    Forall (faithful env C N) states.
Proof.
  induction events as [| [id r] events IH]; intros s states Hs Hagree Htrace.
  - injection Htrace as <-. constructor; [exact Hs | constructor].
  - cbn [trace] in Htrace. inversion Hagree as [| ? ? Hr Hrest]; subst.
    destruct (step C N s (Answer id (network env id))) as [s' |] eqn:Hstep;
      [| discriminate Htrace].
    destruct (trace C N s' events) as [states' |] eqn:Htail;
      [| discriminate Htrace].
    injection Htrace as <-. constructor; [exact Hs | ].
    apply (IH s'); [| exact Hrest | exact Htail].
    exact (step_faithful s s' id _ Hs eq_refl Hstep).
Qed.

Lemma states_faithful (events : list event) (states : list State) :
  agrees env events ->
  trace C N (start C N) events = Some states ->
  Forall (faithful env C N) states.
Proof.
  intros Hagree Htrace.
  assert (Hstart : faithful env C N (start C N)).
  { apply (advance_faithful 0 []). lia. }
  exact (trace_faithful events _ _ Hstart Hagree Htrace).
Qed.

(** In whatever order the answers arrive, once the loop is over the event
    loop holds the outcomes that the method records. *)
Lemma event_loop_records_the_same (events : list event)
    (states : list State) (s : State) :
  agrees env events ->
  trace C N (start C N) events = Some states ->
  In s states -> finished s = true ->
  results s = recordedOutcomes env 0 C N.
Proof.
  intros Hagree Htrace Hin Hfin.
  pose proof (states_faithful events states Hagree Htrace) as Hall.
  rewrite Forall_forall in Hall.
  destruct (Hall s Hin) as (g & _ & Hresults & Hstate).
  rewrite Hfin in Hstate. destruct Hstate as [-> _]. exact Hresults.
Qed.

End Agreement.

(* ================================================================== *)
(** ** Further properties of the harness *)


(* ------------------------------------------------------------------ *)
(** *** The groups of the batch loop *)

(** The loop of [testConcurrentConnections] cuts the N requests into
    consecutive groups.  In whatever order the answers arrive, at every
    suspension the loop variable is g * C for some g; as long as the loop is
    not over, g is the number of a group and the loop awaits exactly the
    requests of group g, which are those its inner loop has just issued;
    when the loop is over, g is the number of groups and nothing is awaited.
    Together the groups are the ranks 0 to N - 1 in order, no group is
    empty, every group but the last has exactly C requests and the last has
    at most C. *)
Theorem groups_partition_the_requests
    (env : Env) (C N : nat) (events : list EventLoop.event)
    (states : list EventLoop.State) :
  (0 < C)%nat ->
  agrees env events ->
  EventLoop.trace C N (EventLoop.start C N) events = Some states ->
  Forall (fun s =>
            exists g : nat,
              EventLoop.batch s = (g * C)%nat /\
              if EventLoop.finished s
              then g = groupCount C N /\ EventLoop.awaited s = []
              else (g < groupCount C N)%nat /\
                   EventLoop.awaited s = groupIds C N g) states /\
  (forall (endpoint : string) (first g : nat) (w : World),
      (g < groupCount C N)%nat ->
      dispatched w = (first + g * C)%nat ->
      fst (dispatchAll env endpoint (Nat.min C (N - g * C)) w)
      = Return (groupPromises env first C N g)) /\
  flat_map (groupIds C N) (seq 0 (groupCount C N)) = seq 0 N /\
  (forall g, (g < groupCount C N)%nat ->
             groupIds C N g <> [] /\
             (List.length (groupIds C N g) <= C)%nat) /\
  (forall g, (S g < groupCount C N)%nat ->
             List.length (groupIds C N g) = C).
Proof.
  intros HC Hagree Htrace. split; [| split; [| split; [| split]]].
  - pose proof (states_faithful env C N HC events states Hagree Htrace)
      as Hall.
    eapply Forall_impl; [| exact Hall].
    intros s (g & Hbatch & _ & Hstate). exists g. split; [exact Hbatch | ].
    destruct (EventLoop.finished s); [exact Hstate | ].
    destruct Hstate as (Hg & Haw & _). split; assumption.
  - intros endpoint first g w Hg Hd.
    rewrite (dispatchAll_spec env endpoint _ first (g * C) w Hd).
    reflexivity.
  - apply groups_cover, HC.
  - intros g Hg. apply group_exists in Hg; [| exact HC].
    apply Nat.ltb_lt in Hg. unfold groupIds. split.
    + intros Hnil. apply (f_equal (@List.length nat)) in Hnil.
      rewrite length_seq in Hnil. cbn in Hnil. lia.
    + rewrite length_seq. lia.
  - intros g Hg. apply group_exists in Hg; [| exact HC].
    apply Nat.ltb_lt in Hg. rewrite Nat.mul_succ_l in Hg.
    unfold groupIds. rewrite length_seq. lia.
Qed.

Lemma groups_partition_the_requests_witness :
  (0 < 2)%nat /\
  agrees (Scenarios.run Cases.staggered [] Scenarios.writable)
         Cases.shuffled /\
  exists states : list EventLoop.State,
    EventLoop.trace 2 3 (EventLoop.start 2 3) Cases.shuffled = Some states /\
    map EventLoop.awaited states = [[0; 1]; [0; 1]; [2]; []]%nat /\
    map EventLoop.batch states = [0; 0; 2; 4]%nat /\
    flat_map (groupIds 2 3) (seq 0 (groupCount 2 3)) = seq 0 3.
Proof.
  assert (Hagree : agrees (Scenarios.run Cases.staggered [] Scenarios.writable)
                          Cases.shuffled).
  { repeat constructor. }
  split; [lia | ]. split; [exact Hagree | ].
  destruct (EventLoop.trace 2 3 (EventLoop.start 2 3) Cases.shuffled)
    as [states |] eqn:Htrace; [| discriminate Htrace].
  exists states. split; [reflexivity | ].
  destruct (groups_partition_the_requests
              (Scenarios.run Cases.staggered [] Scenarios.writable)
              2 3 Cases.shuffled states ltac:(lia) Hagree Htrace)
    as (_ & _ & Hcover & _).
  injection Htrace as <-.
  split; [reflexivity | ]. split; [reflexivity | exact Hcover].
Defined.

(** With a concurrency of 0 and at least one request to make, the loop of
    [testConcurrentConnections] makes no progress: however many iterations
    it is given, it has not returned, and it has issued no request. *)
Theorem zero_concurrency_never_returns
    (env : Env) (endpoint : string) (N fuel : nat)
    (rs : list RequestOutcome) (w : World) :
  (0 < N)%nat ->
  batches env fuel endpoint 0 N 0 rs w = (Diverge, w).
Proof.
  intros HN. revert rs.
  induction fuel as [| fuel IH]; intros rs.
  - cbn [batches]. destruct N; [lia | reflexivity].
  - cbn [batches]. destruct N as [| n]; [lia | ].
    cbn [Nat.ltb Nat.leb Nat.min dispatchAll].
    unfold bind at 1. unfold ret at 1.
    unfold bind at 1. unfold try_catch, Promise_all.
    cbn [first_rejection earliest option_map existsb outcomes flat_map].
    unfold bind at 1. unfold ret at 1 2.
    cbn [Nat.add]. apply IH.
Qed.

Lemma zero_concurrency_never_returns_witness :
  (0 < 5)%nat /\
  batches (Scenarios.run Scenarios.healthy [] Scenarios.writable)
    1000 "/api/users" 0 5 0 []
    (new_PerformanceTester
       (Scenarios.run Scenarios.healthy [] Scenarios.writable))
  = (Diverge,
     new_PerformanceTester
       (Scenarios.run Scenarios.healthy [] Scenarios.writable)).
Proof.
  split; [lia | ].
  apply (zero_concurrency_never_returns
           (Scenarios.run Scenarios.healthy [] Scenarios.writable)
           "/api/users" 5 1000 []).
  lia.
Defined.

(* ------------------------------------------------------------------ *)
(** *** The order of the answers *)

(** Whatever the order in which the target answers, once the loop of
    [testConcurrentConnections] is over it holds the same results: the
    outcomes of the groups in which no request failed, each group in the
    order of dispatch of its requests. *)
Theorem results_do_not_depend_on_arrival_order
    (env : Env) (C N : nat) (events : list EventLoop.event)
    (states : list EventLoop.State) (s : EventLoop.State) :
  (0 < C)%nat ->
  agrees env events ->
  EventLoop.trace C N (EventLoop.start C N) events = Some states ->
  In s states ->
  EventLoop.finished s = true ->
  EventLoop.results s = recordedOutcomes env 0 C N.
Proof.
  intros HC. apply event_loop_records_the_same. exact HC.
Qed.

Lemma results_do_not_depend_on_arrival_order_witness :
  (0 < 2)%nat /\
  agrees (Scenarios.run Cases.staggered [] Scenarios.writable)
         Cases.shuffled /\
  exists (states : list EventLoop.State) (s : EventLoop.State),
    EventLoop.trace 2 3 (EventLoop.start 2 3) Cases.shuffled = Some states /\
    In s states /\
    EventLoop.finished s = true /\
    EventLoop.results s
    = recordedOutcomes (Scenarios.run Cases.staggered [] Scenarios.writable)
        0 2 3 /\
    map duration (EventLoop.results s) = [10; 11; 12].
Proof.
  assert (Hagree : agrees (Scenarios.run Cases.staggered [] Scenarios.writable)
                          Cases.shuffled).
  { repeat constructor. }
  split; [lia | ]. split; [exact Hagree | ].
  eexists. eexists.
  assert (Htrace : EventLoop.trace 2 3 (EventLoop.start 2 3) Cases.shuffled
                   = Some
                     [EventLoop.start 2 3;
                      {| EventLoop.batch := 0;
                         EventLoop.awaited := [0; 1]%nat;
                         EventLoop.arrived :=
                           [(1%nat, {| statusCode := 200; duration := 11;
                                       responseSize := 2; success := true |})];
                         EventLoop.inFlight := [0%nat];
                         EventLoop.results := [];
                         EventLoop.finished := false |};
                      {| EventLoop.batch := 2;
                         EventLoop.awaited := [2%nat];
                         EventLoop.arrived := [];
                         EventLoop.inFlight := [2%nat];
                         EventLoop.results :=
                           [{| statusCode := 200; duration := 10;
                               responseSize := 2; success := true |};
                            {| statusCode := 200; duration := 11;
                               responseSize := 2; success := true |}];
                         EventLoop.finished := false |};
                      {| EventLoop.batch := 4;
                         EventLoop.awaited := [];
                         EventLoop.arrived := [];
                         EventLoop.inFlight := [];
                         EventLoop.results :=
                           [{| statusCode := 200; duration := 10;
                               responseSize := 2; success := true |};
                            {| statusCode := 200; duration := 11;
                               responseSize := 2; success := true |};
                            {| statusCode := 200; duration := 12;
                               responseSize := 2; success := true |}];
                         EventLoop.finished := true |}])
    by reflexivity.
  split; [exact Htrace | ].
  split; [right; right; right; left; reflexivity | ].
  split; [reflexivity | ].
  split; [| reflexivity].
  apply (results_do_not_depend_on_arrival_order
           (Scenarios.run Cases.staggered [] Scenarios.writable)
           2 3 Cases.shuffled _ _ ltac:(lia) Hagree Htrace).
  - right; right; right; left; reflexivity.
  - reflexivity.
Defined.

(** As long as every request is answered, the loop of
    [testConcurrentConnections] never has more than C requests in flight,
    and the requests in flight all belong to the group it is waiting for: no
    group is dispatched before the previous one is complete. *)
Theorem in_flight_requests_stay_within_the_group
    (C N : nat) (events : list EventLoop.event)
    (states : list EventLoop.State) :
  forallb EventLoop.responds events = true ->
  EventLoop.trace C N (EventLoop.start C N) events = Some states ->
  Forall (fun s => (List.length (EventLoop.inFlight s) <= C)%nat /\
                   incl (EventLoop.inFlight s) (EventLoop.awaited s)) states.
Proof.
  apply in_flight_bound_without_failures. apply advance_orderly.
Qed.

Lemma in_flight_requests_stay_within_the_group_witness :
  forallb EventLoop.responds Cases.shuffled = true /\
  exists states : list EventLoop.State,
    EventLoop.trace 2 3 (EventLoop.start 2 3) Cases.shuffled = Some states /\
    List.length states = 4%nat /\
    Forall (fun s => (List.length (EventLoop.inFlight s) <= 2)%nat /\
                     incl (EventLoop.inFlight s) (EventLoop.awaited s))
           states.
Proof.
  split; [reflexivity | ].
  destruct (EventLoop.trace 2 3 (EventLoop.start 2 3) Cases.shuffled)
    as [states |] eqn:Htrace; [| discriminate Htrace].
  exists states. split; [reflexivity | ]. split.
  - injection Htrace as <-. reflexivity.
  - exact (in_flight_requests_stay_within_the_group
             2 3 Cases.shuffled states eq_refl Htrace).
Defined.

(* ------------------------------------------------------------------ *)
(** *** What the sweeps append *)

(** One call of the batch scheduler all of whose requests are answered or
    fail. *)
Lemma one_batch (env : Env) (endpoint : string) (C N : nat) (w : World) :
  (0 < C)%nat ->
  allSettle env (dispatched w) N ->
  exists (v : value) (w' : World),
    testConcurrentConnections env endpoint C N w = (Return v, w') /\
    batchFor (endpoint, C, N) v /\
    tests (results w') = (tests (results w) ++ [v])%list /\
    dispatched w' = (dispatched w + N)%nat /\
    files w' = files w.
Proof.
  intros HC Hall.
  rewrite testConcurrentConnections_spec
    by (try exact HC; apply settles_when_all_settle; exact Hall).
  eexists. eexists. split; [reflexivity | ].
  cbn [results tests dispatched files].
  split; [eexists; eexists; reflexivity | ].
  repeat split; reflexivity.
Qed.

Lemma endpoints_spec (env : Env) (endpoints : list string) :
  forall w : World,
    allSettle env (dispatched w) (200 * List.length endpoints) ->
    exists (w' : World) (new : list value),
      foldM (fun (_ : unit) endpoint =>
               testConcurrentConnections env endpoint 50 200 ;;; ret tt)
            endpoints tt w
      = (Return tt, w') /\
      tests (results w') = (tests (results w) ++ new)%list /\
      Forall2 (fun t endpoint => batchFor (endpoint, 50%nat, 200%nat) t)
              new endpoints /\
      dispatched w' = (dispatched w + 200 * List.length endpoints)%nat /\
      files w' = files w.
Proof.
  induction endpoints as [| e es IH]; intros w Hall.
  - exists w, []. cbn [foldM List.length]. unfold ret.
    rewrite List.app_nil_r. repeat split; [constructor | lia].
  - cbn [List.length] in Hall.
    replace (200 * S (List.length es))%nat
      with (200 + 200 * List.length es)%nat in Hall by lia.
    apply allSettle_split in Hall. destruct Hall as [H1 H2].
    destruct (one_batch env e 50 200 w ltac:(lia) H1)
      as (v & w1 & Hrun & Hv & Ht & Hd & Hf).
    destruct (IH w1) as (w' & new & Hrun' & Ht' & HQ & Hd' & Hf');
      [rewrite Hd; exact H2 | ].
    exists w', (v :: new). split.
    { cbn [foldM]. rewrite (bind_return _ _ w w1 tt); [exact Hrun' | ].
      rewrite (bind_return _ _ w w1 v Hrun). reflexivity. }
    split; [rewrite Ht', Ht, <- List.app_assoc; reflexivity | ].
    split; [constructor; assumption | ].
    split; [cbn [List.length]; lia | congruence].
Qed.

Lemma batchFor_fields (endpoint : string) (C N : nat) (t : value) :
  batchFor (endpoint, C, N) t ->
  isBatch t = true /\
  member t "endpoint" = VString endpoint /\
  configurationField t "concurrency" = VNat C /\
  configurationField t "total_requests" = VNat N.
Proof. intros (D & rs & ->). repeat split. Qed.

Lemma batches_of_endpoints (C N : nat) (new : list value)
    (endpoints : list string) :
  Forall2 (fun t endpoint => batchFor (endpoint, C, N) t) new endpoints ->
  map (fun t => member t "endpoint") new = map VString endpoints /\
  Forall (fun t => isBatch t = true /\
                   configurationField t "concurrency" = VNat C /\
                   configurationField t "total_requests" = VNat N) new.
Proof.
  induction 1 as [| t e ts es Hte _ [IHmap IHall]];
    [split; [reflexivity | constructor] | ].
  destruct (batchFor_fields _ _ _ _ Hte) as (H1 & H2 & H3 & H4).
  split.
  - cbn [map]. rewrite IHmap, H2. reflexivity.
  - constructor; [repeat split; assumption | exact IHall].
Qed.

(** When each of the 1000 requests it makes is answered or fails,
    [testMultipleEndpoints] returns.  It appends to the report five batch
    entries, one per endpoint in the order users, posts, todos, albums,
    stats, each for 200 requests 50 at a time; it dispatches 1000 requests
    and writes no file. *)
Theorem multi_endpoint_sweep_appends_five_batches (env : Env) (w : World) :
  allSettle env (dispatched w) 1000 ->
  exists (w' : World) (new : list value),
    testMultipleEndpoints env w = (Return tt, w') /\
    tests (results w') = (tests (results w) ++ new)%list /\
    map (fun t => member t "endpoint") new
    = [VString "/api/users"; VString "/api/posts"; VString "/api/todos";
       VString "/api/albums"; VString "/api/stats"] /\
    Forall (fun t => isBatch t = true /\
                     configurationField t "concurrency" = VNat 50 /\
                     configurationField t "total_requests" = VNat 200) new /\
    dispatched w' = (dispatched w + 1000)%nat /\
    files w' = files w.
Proof.
  intros Hall.
  destruct (endpoints_spec env
              ["/api/users"; "/api/posts"; "/api/todos"; "/api/albums";
               "/api/stats"] w Hall)
    as (w' & new & Hrun & Ht & HQ & Hd & Hf).
  exists w', new. split; [exact Hrun | ]. split; [exact Ht | ].
  destruct (batches_of_endpoints _ _ _ _ HQ) as [Hmap Hbatches].
  split; [exact Hmap | ]. split; [exact Hbatches | ]. split; assumption.
Qed.

Lemma multi_endpoint_sweep_appends_five_batches_witness :
  allSettle (Scenarios.run Scenarios.oneReset [] Scenarios.writable)
    (dispatched (Cases.holding [])) 1000 /\
  exists (w' : World) (new : list value),
    testMultipleEndpoints
      (Scenarios.run Scenarios.oneReset [] Scenarios.writable)
      (Cases.holding [])
    = (Return tt, w') /\
    tests (results w') = new /\
    List.length new = 5%nat /\
    dispatched w' = 1000%nat /\
    files w' = [].
Proof.
  assert (Hall :
    allSettle (Scenarios.run Scenarios.oneReset [] Scenarios.writable)
      (dispatched (Cases.holding [])) 1000).
  { intros i _. cbn [network Scenarios.run]. unfold Scenarios.oneReset.
    destruct (_ =? 1)%nat; discriminate. }
  split; [exact Hall | ].
  destruct (multi_endpoint_sweep_appends_five_batches
              (Scenarios.run Scenarios.oneReset [] Scenarios.writable)
              (Cases.holding []) Hall)
    as (w' & new & Hrun & Ht & Hmap & _ & Hd & Hf).
  exists w', new. split; [exact Hrun | ]. split; [exact Ht | ].
  split; [| split; assumption].
  apply (f_equal (@List.length value)) in Hmap.
  rewrite length_map in Hmap. exact Hmap.
Defined.

(** The levels of the load sweep: for each level the batch, and the line
    derived from its entry. *)
Lemma levels_spec (env : Env) (levels : list nat) :
  Forall (fun load => 0 < load)%nat levels ->
  forall (loadResults : list value) (w : World),
    allSettle env (dispatched w)
      (list_sum (map (fun load => load * 5)%nat levels)) ->
    exists (w' : World) (new : list value),
      foldM (fun loadResults load =>
               result <- testConcurrentConnections env "/api/posts" load
                           (load * 5) ;;
               r <- prop result "results" ;;
               success_rate <- prop r "success_rate" ;;
               requests_per_second <- prop r "requests_per_second" ;;
               response_times <- prop r "response_times" ;;
               average <- prop response_times "average" ;;
               ret (loadResults ++
                    [VObject [("load_level", VNat load);
                              ("success_rate", success_rate);
                              ("requests_per_second", requests_per_second);
                              ("avg_response_time", average)]])%list)
            levels loadResults w
      = (Return
           (loadResults
            ++ map (fun p => levelOf (fst p) (snd p)) (combine levels new))%list,
         w') /\
      tests (results w') = (tests (results w) ++ new)%list /\
      Forall2 (fun t load => batchFor ("/api/posts", load, (load * 5)%nat) t)
              new levels /\
      dispatched w'
      = (dispatched w + list_sum (map (fun load => load * 5)%nat levels))%nat /\
      files w' = files w.
Proof.
  induction 1 as [| load levels Hload _ IH]; intros loadResults w Hall.
  - exists w, []. cbn [foldM map combine list_sum fold_right]. unfold ret.
    rewrite !List.app_nil_r. repeat split; [constructor | lia].
  - cbn [map list_sum fold_right] in Hall.
    apply allSettle_split in Hall. destruct Hall as [H1 H2].
    destruct (one_batch env "/api/posts" load (load * 5) w Hload H1)
      as (v & w1 & Hrun & Hv & Ht & Hd & Hf).
    destruct (IH (loadResults ++ [levelOf load v])%list w1)
      as (w' & new & Hrun' & Ht' & HQ & Hd' & Hf');
      [rewrite Hd; exact H2 | ].
    exists w', (v :: new). split.
    { cbn [foldM].
      rewrite (bind_return _ _ w w1 (loadResults ++ [levelOf load v])%list).
      - rewrite Hrun'. cbn [combine map fst snd].
        rewrite <- List.app_assoc. reflexivity.
      - rewrite (bind_return _ _ w w1 v Hrun).
        destruct Hv as (D & rs & ->). reflexivity. }
    split; [rewrite Ht', Ht, <- List.app_assoc; reflexivity | ].
    split; [constructor; assumption | ].
    split; [rewrite Hd', Hd, <- Nat.add_assoc; reflexivity | congruence].
Qed.

(** When each of the 1925 requests it makes is answered or fails,
    [testLoadIncrease] returns.  It appends five batch entries for
    /api/posts, at the concurrency levels 10, 25, 50, 100 and 200 in this
    order, each for five times as many requests as its level, then the entry
    of the sweep, which it returns: one line per level, holding the level
    and the success rate, the throughput and the average response time of
    the entry of its batch.  It dispatches 1925 requests and writes no
    file. *)
Theorem load_sweep_runs_five_levels (env : Env) (w : World) :
  allSettle env (dispatched w) 1925 ->
  exists (w' : World) (loadTest b1 b2 b3 b4 b5 : value),
    testLoadIncrease env w = (Return loadTest, w') /\
    tests (results w')
    = (tests (results w) ++ [b1; b2; b3; b4; b5; loadTest])%list /\
    Forall2 (fun t load =>
               isBatch t = true /\
               member t "endpoint" = VString "/api/posts" /\
               configurationField t "concurrency" = VNat load /\
               configurationField t "total_requests" = VNat (load * 5))
            [b1; b2; b3; b4; b5] [10; 25; 50; 100; 200]%nat /\
    member loadTest "test_name" = VString "Load Increase Test" /\
    member loadTest "load_levels"
    = VArray [levelOf 10 b1; levelOf 25 b2; levelOf 50 b3;
              levelOf 100 b4; levelOf 200 b5] /\
    dispatched w' = (dispatched w + 1925)%nat /\
    files w' = files w.
Proof.
  intros Hall.
  destruct (levels_spec env [10; 25; 50; 100; 200]%nat
              ltac:(repeat (constructor; [lia | ]); constructor) [] w Hall)
    as (w1 & new & Hrun & Ht & HQ & Hd & Hf).
  inversion HQ as [| b1 ? new1 ? Hb1 HQ1]; subst.
  inversion HQ1 as [| b2 ? new2 ? Hb2 HQ2]; subst.
  inversion HQ2 as [| b3 ? new3 ? Hb3 HQ3]; subst.
  inversion HQ3 as [| b4 ? new4 ? Hb4 HQ4]; subst.
  inversion HQ4 as [| b5 ? new5 ? Hb5 HQ5]; subst.
  inversion HQ5; subst.
  eexists. eexists. exists b1, b2, b3, b4, b5.
  split.
  { unfold testLoadIncrease. rewrite (bind_return _ _ _ _ _ Hrun).
    unfold bind, push_test, ret. reflexivity. }
  cbn [results tests dispatched files app map combine fst snd].
  split; [rewrite Ht, <- List.app_assoc; reflexivity | ].
  split.
  { eapply Forall2_impl; [| exact HQ].
    intros t load Ht'. apply batchFor_fields. exact Ht'. }
  split; [reflexivity | ]. split; [reflexivity | ].
  split; [exact Hd | exact Hf].
Qed.

Lemma load_sweep_runs_five_levels_witness :
  allSettle (Scenarios.run Scenarios.oneReset [] Scenarios.writable)
    (dispatched (Cases.holding [])) 1925 /\
  exists (w' : World) (loadTest b1 b2 b3 b4 b5 : value),
    testLoadIncrease
      (Scenarios.run Scenarios.oneReset [] Scenarios.writable)
      (Cases.holding [])
    = (Return loadTest, w') /\
    tests (results w') = [b1; b2; b3; b4; b5; loadTest] /\
    member loadTest "load_levels"
    = VArray [levelOf 10 b1; levelOf 25 b2; levelOf 50 b3;
              levelOf 100 b4; levelOf 200 b5] /\
    dispatched w' = 1925%nat.
Proof.
  assert (Hall :
    allSettle (Scenarios.run Scenarios.oneReset [] Scenarios.writable)
      (dispatched (Cases.holding [])) 1925).
  { intros i _. cbn [network Scenarios.run]. unfold Scenarios.oneReset.
    destruct (_ =? 1)%nat; discriminate. }
  split; [exact Hall | ].
  destruct (load_sweep_runs_five_levels
              (Scenarios.run Scenarios.oneReset [] Scenarios.writable)
              (Cases.holding []) Hall)
    as (w' & loadTest & b1 & b2 & b3 & b4 & b5 & Hrun & Ht & _ & _ & Hlevels
        & Hd & _).
  exists w', loadTest, b1, b2, b3, b4, b5.
  split; [exact Hrun | ]. split; [exact Ht | ].
  split; [exact Hlevels | exact Hd].
Defined.

(* ------------------------------------------------------------------ *)
(** *** What the sampling timer costs *)



(* ------------------------------------------------------------------ *)
(** *** The summary of the report *)

(** The filter of [generateReport] keeps the batch entries, in order. *)
Lemma named_filter (ts : list value) :
  Forall (fun t => nullish t = false) ts ->
  forall (kept : list value) (w : World),
    foldM (fun kept t =>
             test_name <- prop t "test_name" ;;
             ret (if strict_eq_string test_name
                                      "Concurrent Connections Test"
                  then kept ++ [t] else kept)%list)
          ts kept w
    = (Return (kept ++ filter isBatch ts)%list, w).
Proof.
  induction 1 as [| t ts Ht _ IH]; intros kept w.
  - cbn [foldM filter]. rewrite List.app_nil_r. reflexivity.
  - cbn [foldM filter]. unfold bind at 1. unfold prop. rewrite Ht.
    unfold bind, ret. unfold isBatch at 1.
    destruct (strict_eq_string (member t "test_name")
                               "Concurrent Connections Test").
    + rewrite IH, <- List.app_assoc. reflexivity.
    + apply IH.
Qed.

Lemma described_not_nullish (ts : list value) (stats : list (Z * Z * Z)) :
  described ts stats -> Forall (fun t => nullish t = false) ts.
Proof.
  induction 1 as [| t ts stat stats (_ & (Ht & _) & _) _ IH
                  | t ts stats (Ht & _) _ IH];
    constructor; assumption.
Qed.

Lemma described_batches (ts : list value) (stats : list (Z * Z * Z)) :
  described ts stats -> Forall2 batchEntry (filter isBatch ts) stats.
Proof.
  induction 1 as [| t ts stat stats Ht _ IH | t ts stats (_ & Ht) _ IH];
    cbn [filter].
  - constructor.
  - pose proof Ht as (-> & _). constructor; assumption.
  - rewrite Ht. exact IH.
Qed.

Lemma batches_carry (bs : list value) (stats : list (Z * Z * Z)) :
  Forall2 batchEntry bs stats -> Forall2 carries bs (map fst stats).
Proof.
  induction 1 as [| t [[rate rps] avg] bs stats (_ & Ht & _) _ IH];
    cbn [map]; constructor; assumption.
Qed.

Lemma sum_of_averages (bs : list value) (stats : list (Z * Z * Z)) :
  Forall2 batchEntry bs stats ->
  forall (a : Z) (w : World),
    foldM (fun sum test =>
             r <- prop test "results" ;;
             response_times <- prop r "response_times" ;;
             average <- prop response_times "average" ;;
             ret (add sum (of_integer (parseInt average))))
          bs (Fin (inject_Z a)) w
    = (Return (Fin (inject_Z (fold_left Z.add (map snd stats) a))), w).
Proof.
  induction 1 as [| t stat bs stats (_ & (Ht & Hr & _) & Hrt & Havg) _ IH];
    intros a w; [reflexivity | ].
  cbn [foldM map fold_left]. unfold bind at 1. unfold bind at 1.
  unfold prop at 1. rewrite Ht. unfold ret at 1.
  unfold bind at 1. unfold prop at 1. rewrite Hr. unfold ret at 1.
  unfold bind at 1. unfold prop at 1.
  fold (resultField t "response_times"). rewrite Hrt. unfold ret at 1.
  fold (responseTime t "average"). rewrite Havg.
  rewrite parseInt_milliseconds. cbn [of_integer]. rewrite add_integers.
  unfold ret at 1. apply IH.
Qed.

Lemma rating_of_carried (ts : list value) (stats : list (Z * Z)) (w : World) :
  Forall2 carries ts stats -> stats <> [] ->
  calculateScalabilityRating ts w =
  (Return (scalabilityRating (mean (map fst stats)) (mean (map snd stats))),
   w).
Proof.
  intros Hstats Hne. pose proof (Forall2_length Hstats) as Hlen.
  unfold calculateScalabilityRating.
  destruct stats as [| stat stats]; [congruence | ].
  destruct ts as [| t ts]; [discriminate Hlen | ].
  remember (stat :: stats) as ss eqn:Hss.
  remember (t :: ts) as ts' eqn:Hts.
  replace (List.length ts' =? 0)%nat with false by (subst ts'; reflexivity).
  unfold bind at 1. rewrite (total_rates ts' ss w Hstats).
  unfold bind at 1. rewrite (total_throughputs ts' ss w Hstats).
  change (of_nat (List.length ts')) with (of_Z (Z.of_nat (List.length ts'))).
  rewrite !div_positive by (subst ts'; cbn [List.length]; lia).
  rewrite !gt_above.
  change (Z.of_nat 95) with 95. change (Z.of_nat 800) with 800.
  change (Z.of_nat 90) with 90. change (Z.of_nat 500) with 500.
  change (Z.of_nat 80) with 80. change (Z.of_nat 200) with 200.
  rewrite Hlen.
  unfold scalabilityRating, mean. rewrite !length_map.
  destruct (above 95 _ && above 800 _); [reflexivity | ].
  destruct (above 90 _ && above 500 _); [reflexivity | ].
  destruct (above 80 _ && above 200 _); reflexivity.
Qed.

Lemma mean_rounded (xs : list Z) (n : nat) :
  n = List.length xs -> xs <> [] ->
  Math_round (div (of_Z (sum xs)) (of_nat n)) = Fin (Qfloor (mean xs + (1 # 2))).
Proof. intros -> Hne. apply average_formula, Hne. Qed.

Lemma mean_above (xs : list Z) (n k : nat) :
  n = List.length xs -> xs <> [] ->
  gt (div (of_Z (sum xs)) (of_nat n)) (of_nat k) = above (Z.of_nat k) (mean xs).
Proof.
  intros -> Hne. unfold of_nat at 1.
  fold (of_Z (Z.of_nat (List.length xs))).
  rewrite div_positive by (destruct xs; [congruence | simpl; lia]).
  apply gt_above.
Qed.

(** When the report holds at least one batch entry, and its batch entries
    carry finite statistics, [generateReport] sets the summary to: the
    number of all entries; the mean of the throughputs of the batch entries
    and the mean of their average response times, both rounded; Excellent
    for a mean throughput above 500, Good above 200, Needs Improvement
    otherwise; and the scalability rating of the batch entries.  The entries
    of the other sweeps count in the total only.  Nothing else changes. *)
Theorem summary_averages_the_batch_entries
    (w : World) (stats : list (Z * Z * Z)) :
  described (tests (results w)) stats ->
  stats <> [] ->
  generateReport w =
  (Return {| timestamp := timestamp (results w);
             tests := tests (results w);
             summary := summaryOf (List.length (tests (results w))) stats |},
   {| results :=
        {| timestamp := timestamp (results w);
           tests := tests (results w);
           summary := summaryOf (List.length (tests (results w))) stats |};
      stderr := stderr w; invocations := invocations w;
      dispatched := dispatched w; clockReads := clockReads w;
      files := files w;
      unanswered := unanswered w |}).
Proof.
  intros Hdesc Hne.
  pose proof (described_batches _ _ Hdesc) as Hbs.
  pose proof (Forall2_length Hbs) as Hlen.
  pose proof (batches_carry _ _ Hbs) as Hcarry.
  assert (Hrates : map fst (map fst stats) <> [])
    by (destruct stats; [congruence | discriminate]).
  assert (Hrps : map snd (map fst stats) <> [])
    by (destruct stats; [congruence | discriminate]).
  assert (Havg : map snd stats <> [])
    by (destruct stats; [congruence | discriminate]).
  unfold generateReport.
  unfold bind at 1. unfold get_results at 1.
  unfold bind at 1. unfold named.
  rewrite (named_filter _ (described_not_nullish _ _ Hdesc)).
  change ([] ++ filter isBatch (tests (results w)))%list
    with (filter isBatch (tests (results w))).
  replace (0 <? List.length (filter isBatch (tests (results w))))%nat
    with true
    by (symmetry; apply Nat.ltb_lt; rewrite Hlen;
        destruct stats; [congruence | cbn [List.length]; lia]).
  unfold bind at 1. unfold bind at 1.
  rewrite (total_throughputs _ _ w Hcarry).
  unfold bind at 1.
  change (of_nat 0) with (Fin (inject_Z 0)).
  rewrite (sum_of_averages _ _ Hbs 0 w).
  fold (sum (map snd stats)). fold (of_Z (sum (map snd stats))).
  unfold bind at 1.
  rewrite (rating_of_carried _ _ w Hcarry)
    by (destruct stats; [congruence | discriminate]).
  unfold set_summary, get_results.
  cbn [results stderr invocations dispatched clockReads files timestamp
       tests summary].
  rewrite !(mean_rounded _ _) by (rewrite ?length_map; assumption).
  rewrite !(mean_above _ _) by (rewrite ?length_map; assumption).
  unfold summaryOf. rewrite !map_map. cbn [integer_to_string].
  reflexivity.
Qed.

(** generateReport applied to a report of one batch of 180 requests that
    took 200 ms, with an average response time of 13 ms, and the entry of a
    resource sweep. *)
Lemma summary_averages_the_batch_entries_witness :
  summary
    (results
       (snd (generateReport
               (Cases.holding [Scenarios.borderline; resourceEntry]))))
  = [("total_tests", VNat 2);
     ("average_requests_per_second", VNumber (Fin 900));
     ("average_response_time", VString "13ms");
     ("overall_performance", VString "Excellent");
     ("scalability_rating", VString "Scalable")].
Proof.
  rewrite (summary_averages_the_batch_entries
             (Cases.holding [Scenarios.borderline; resourceEntry])
             [(95, 900, 13)]).
  - vm_compute. reflexivity.
  - apply described_batch.
    + repeat split; vm_compute; reflexivity.
    + apply described_other; [split; reflexivity | constructor].
  - discriminate.
Defined.

Lemma others_described (ts : list value) :
  Forall otherEntry ts -> described ts [].
Proof.
  induction 1 as [| t ts Ht _ IH]; [constructor | ].
  apply described_other; assumption.
Qed.

(** While the report holds no batch entry (a fresh tester, or one that ran
    other sweeps only), [generateReport] computes nothing: it returns the
    report as it is, summary included, and changes nothing. *)
Theorem report_without_batches_keeps_its_summary (w : World) :
  Forall otherEntry (tests (results w)) ->
  generateReport w = (Return (results w), w).
Proof.
  intros Hall. pose proof (others_described _ Hall) as Hdesc.
  pose proof (described_batches _ _ Hdesc) as Hbs.
  inversion Hbs as [Hnil | ]. 
  unfold generateReport.
  unfold bind at 1. unfold get_results at 1.
  unfold bind at 1. unfold named.
  rewrite (named_filter _ (described_not_nullish _ _ Hdesc)).
  rewrite <- Hnil. reflexivity.
Qed.

Lemma report_without_batches_keeps_its_summary_witness :
  generateReport (Cases.holding [resourceEntry])
  = (Return (results (Cases.holding [resourceEntry])),
     Cases.holding [resourceEntry]).
Proof.
  apply report_without_batches_keeps_its_summary.
  repeat constructor.
Defined.

Lemma sound_not_nullish (ts : list value) :
  Forall sound ts -> Forall (fun t => nullish t = false) ts.
Proof. apply Forall_impl. intros t ((H & _) & _). exact H. Qed.

Lemma sound_batches (ts : list value) :
  Forall sound ts -> Forall hasResults (filter isBatch ts).
Proof.
  induction 1 as [| t ts (_ & Ht) _ IH]; cbn [filter]; [constructor | ].
  destruct (isBatch t) eqn:Hb; [| exact IH].
  constructor; [apply Ht, Hb | exact IH].
Qed.

(** The sum of the average response times is NaN as soon as one of them does
    not start with a number. *)
Lemma response_times_NaN (ts : list value) :
  Forall hasResults ts ->
  forall (acc : number) (w : World),
    acc = NaN \/
    Exists (fun t => parseInt (responseTime t "average") = NaN) ts ->
    foldM (fun sum test =>
             r <- prop test "results" ;;
             response_times <- prop r "response_times" ;;
             average <- prop response_times "average" ;;
             ret (add sum (of_integer (parseInt average))))
          ts acc w
    = (Return NaN, w).
Proof.
  induction 1 as [| t ts (Ht & Hr & Hrt) _ IH]; intros acc w Hnan.
  - destruct Hnan as [-> | Hex]; [reflexivity | inversion Hex].
  - cbn [foldM]. unfold bind at 1. unfold bind at 1.
    unfold prop at 1. rewrite Ht. unfold ret at 1.
    unfold bind at 1. unfold prop at 1. rewrite Hr. unfold ret at 1.
    unfold bind at 1. unfold prop at 1.
    fold (resultField t "response_times"). rewrite Hrt. unfold ret at 1.
    fold (responseTime t "average"). unfold ret at 1.
    apply IH.
    destruct Hnan as [-> | Hex]; [left; reflexivity | ].
    inversion Hex as [? ? Hhere | ? ? Hlater]; subst.
    + left. rewrite Hhere. destruct acc; reflexivity.
    + right. exact Hlater.
Qed.

(** A batch none of whose requests was recorded (its endpoint was down, or
    it was run for no request) has the average response time NaNms in its
    entry.  One such entry in the report is enough for [generateReport],
    which still returns, to set the average response time of the summary to
    NaNms, whatever the other batches measured. *)
Theorem batch_without_outcomes_spoils_the_average
    (w : World) (endpoint : string) (C N : nat) (D : Z) :
  soundWorld w ->
  In (testResultOf endpoint C N D []) (tests (results w)) ->
  responseTime (testResultOf endpoint C N D []) "average" = VString "NaNms" /\
  exists (s : object),
    generateReport w =
    (Return {| timestamp := timestamp (results w);
               tests := tests (results w);
               summary := s |},
     {| results := {| timestamp := timestamp (results w);
                      tests := tests (results w);
                      summary := s |};
        stderr := stderr w; invocations := invocations w;
        dispatched := dispatched w; clockReads := clockReads w;
        files := files w;
        unanswered := unanswered w |}) /\
    member (VObject s) "average_response_time" = VString "NaNms".
Proof.
  intros Hw Hin. split; [reflexivity | ].
  pose proof (sound_batches _ Hw) as Hkept.
  assert (Hsilent : In (testResultOf endpoint C N D [])
                       (filter isBatch (tests (results w))))
    by (apply filter_In; split; [exact Hin | reflexivity]).
  unfold generateReport.
  unfold bind at 1. unfold get_results at 1.
  unfold bind at 1. unfold named.
  rewrite (named_filter _ (sound_not_nullish _ Hw)).
  change ([] ++ filter isBatch (tests (results w)))%list
    with (filter isBatch (tests (results w))).
  replace (0 <? List.length (filter isBatch (tests (results w))))%nat
    with true
    by (symmetry; apply Nat.ltb_lt;
        destruct (filter isBatch (tests (results w)));
        [destruct Hsilent | cbn [List.length]; lia]).
  destruct (returns_sum_of (fun x => of_integer (parseInt x))
              "requests_per_second" _ Hkept) as [totalRPS HRPS].
  destruct (returns_calculateScalabilityRating _ Hkept) as [rating Hrating].
  eexists.
  unfold bind at 1. unfold bind at 1. rewrite HRPS.
  unfold bind at 1.
  rewrite (response_times_NaN _ Hkept)
    by (right; apply Exists_exists; eexists; split;
        [exact Hsilent | reflexivity]).
  unfold bind at 1. rewrite Hrating.
  unfold set_summary, get_results.
  cbn [results stderr invocations dispatched clockReads files timestamp
       tests summary].
  split; reflexivity.
Qed.

Lemma batch_without_outcomes_spoils_the_average_witness :
  member
    (VObject
       (summary
          (results
             (snd (generateReport
                     (Cases.holding [Scenarios.borderline; Cases.silent]))))))
    "average_response_time"
  = VString "NaNms".
Proof.
  destruct (batch_without_outcomes_spoils_the_average
              (Cases.holding [Scenarios.borderline; Cases.silent])
              "/api/todos" 2 4 40) as (_ & s & Hrun & Hs).
  - repeat constructor; apply batch_entry_sound.
  - right. left. reflexivity.
  - rewrite Hrun. exact Hs.
Defined.

(* ------------------------------------------------------------------ *)
(** *** The whole run *)

(** Against a target that answers the preflight probe and answers or fails
    every request of the sweeps, and with a report file that can be written,
    the run ends normally: the three sweeps have dispatched 3225 requests
    and left 13 entries in the report, and the one file written,
    performance-results.txt, holds the rendering of the report the tester
    ends with, summary included. *)
Theorem run_saves_the_rendered_report
    (env : Env) (status elapsed : Z) (size : nat) :
  preflight env = Responds status elapsed size ->
  allSettle env 0 3225 ->
  (forall text, disk env "performance-results.txt" text = None) ->
  exists (w' : World) (text : string),
    runPerformanceTests env = (Return tt, w') /\
    List.length (tests (results w')) = 13%nat /\
    dispatched w' = 3225%nat /\
    formatReportAsText (results w') w' = (Return text, w') /\
    files w' = [("performance-results.txt", text)].
Proof.
  intros Hpre Hall Hdisk.
  destruct (run_returns env status elapsed size Hpre Hall)
    as (w' & Hrun & Hn & Hd & _ & text & before & Htext & Hfile).
  rewrite Hdisk in Hfile.
  exists w', text. split; [exact Hrun | ].
  split; [exact Hn | ]. split; [exact Hd | ].
  split; [apply Htext | apply Hfile].
Qed.

Lemma run_saves_the_rendered_report_witness :
  preflight
    (Scenarios.run Scenarios.oneReset [Scenarios.goodTick; Cases.busyTick]
       Scenarios.writable)
  = Responds 200 3 15 /\
  allSettle
    (Scenarios.run Scenarios.oneReset [Scenarios.goodTick; Cases.busyTick]
       Scenarios.writable) 0 3225 /\
  exists (w' : World) (text : string),
    runPerformanceTests
      (Scenarios.run Scenarios.oneReset [Scenarios.goodTick; Cases.busyTick]
         Scenarios.writable) = (Return tt, w') /\
    List.length (tests (results w')) = 13%nat /\
    dispatched w' = 3225%nat /\
    formatReportAsText (results w') w' = (Return text, w') /\
    files w' = [("performance-results.txt", text)].
Proof.
  assert (Hall :
    allSettle
      (Scenarios.run Scenarios.oneReset [Scenarios.goodTick; Cases.busyTick]
         Scenarios.writable) 0 3225).
  { intros i _. cbn [network Scenarios.run]. unfold Scenarios.oneReset.
    destruct (_ =? 1)%nat; discriminate. }
  split; [reflexivity | ]. split; [exact Hall | ].
  apply (run_saves_the_rendered_report
           (Scenarios.run Scenarios.oneReset
              [Scenarios.goodTick; Cases.busyTick] Scenarios.writable)
           200 3 15).
  - reflexivity.
  - exact Hall.
  - intros text. reflexivity.
Defined.

(** The exit code of a run.  It is 1 when the preflight probe ends in a
    transport error.  When the probe is answered, it is 0 as soon as every
    request of the sweeps and of the sampling timer is answered or fails,
    whatever the answers and whatever happens to the report file: no sweep
    ever reaches the handler that would end the run with exit code 1 after
    the preflight check.  As long as a request is left unanswered (the
    probe, a request of a sweep or one of the timer) the process does not
    exit. *)
Theorem exit_code_of_a_run (env : Env) :
  exit_code (runPerformanceTests env)
  = match preflight env with
    | Fails _ _ => Some 1
    | Hangs => None
    | Responds _ _ _ =>
        if (hanging env 0 3225
            + List.length (filter tickHangs (monitor env)) =? 0)%nat
        then Some 0 else None
    end.
Proof.
  destruct (preflight env) as [status elapsed size | message elapsed |]
    eqn:Hpre.
  - pose proof (run_outcome env status elapsed size Hpre) as Hrun.
    unfold exit_code.
    destruct (runPerformanceTests env) as [[[] | e | c |] w'];
      cbn beta iota in Hrun; [| destruct Hrun | destruct Hrun | ].
    + destruct Hrun as (_ & _ & Hu & _). cbn [fst snd]. rewrite Hu.
      reflexivity.
    + cbn [fst].
      destruct (hanging env 0 3225) as [| n] eqn:Hhang; [| reflexivity].
      contradiction (Hrun (hanging_zero env 0 3225 Hhang)).
  - unfold exit_code, runPerformanceTests, performanceTests.
    unfold bind at 1. unfold try_catch at 1. unfold bind at 1.
    unfold makeRequest at 1. rewrite Hpre. reflexivity.
  - unfold exit_code, runPerformanceTests, performanceTests.
    unfold bind at 1. unfold try_catch at 1. unfold bind at 1.
    unfold makeRequest at 1. rewrite Hpre. reflexivity.
Qed.

(* ------------------------------------------------------------------ *)
(** *** A request that is never answered *)

(** [makeRequest] sets no timeout.  A call of [testConcurrentConnections]
    with a positive concurrency does not return when, in one of its groups,
    a request is never answered and no request ends in a transport error:
    the loop waits for that group for ever. *)
Theorem unanswered_request_stalls_the_call
    (env : Env) (endpoint : string) (C N : nat) (w : World) (k i : nat) :
  (0 < C)%nat ->
  (k < groupCount C N)%nat ->
  In i (groupIds C N k) ->
  network env (dispatched w + i) = Hangs ->
  (forall j message elapsed,
      In j (groupIds C N k) ->
      network env (dispatched w + j) <> Fails message elapsed) ->
  fst (testConcurrentConnections env endpoint C N w) = Diverge.
Proof.
  intros HC Hk Hi Hhang Hnofail.
  apply (testConcurrentConnections_stalls env endpoint C N w k HC Hk).
  unfold groupSettles, groupPromises.
  assert (Hnone : first_rejection
                    (map (fun i => settle (network env (dispatched w + i)))
                         (groupIds C N k)) = None).
  { apply first_rejection_none. intros e t Hin.
    apply rejected_member in Hin.
    destruct Hin as (j & message & Hj & Hnet & _).
    exact (Hnofail j message t Hj Hnet). }
  rewrite Hnone. apply Bool.negb_false_iff, existsb_exists.
  exists (settle (network env (dispatched w + i))). split.
  - apply in_map_iff. exists i. split; [reflexivity | exact Hi].
  - rewrite Hhang. reflexivity.
Qed.

Lemma unanswered_request_stalls_the_call_witness :
  (0 < 2)%nat /\
  (1 < groupCount 2 4)%nat /\
  In 3%nat (groupIds 2 4 1) /\
  network (Scenarios.run (Cases.silentAt 3) [] Scenarios.writable)
    (dispatched (Cases.holding []) + 3) = Hangs /\
  (forall j message elapsed,
      In j (groupIds 2 4 1) ->
      network (Scenarios.run (Cases.silentAt 3) [] Scenarios.writable)
        (dispatched (Cases.holding []) + j) <> Fails message elapsed) /\
  fst (testConcurrentConnections
         (Scenarios.run (Cases.silentAt 3) [] Scenarios.writable)
         "/api/users" 2 4 (Cases.holding [])) = Diverge.
Proof.
  assert (Hnofail :
    forall j message elapsed,
      In j (groupIds 2 4 1) ->
      network (Scenarios.run (Cases.silentAt 3) [] Scenarios.writable)
        (dispatched (Cases.holding []) + j) <> Fails message elapsed).
  { intros j message elapsed _. cbn [network Scenarios.run].
    unfold Cases.silentAt. destruct (_ =? 3)%nat; discriminate. }
  split; [lia | ]. split; [vm_compute; lia | ].
  split; [right; left; reflexivity | ]. split; [reflexivity | ].
  split; [exact Hnofail | ].
  apply (unanswered_request_stalls_the_call
           (Scenarios.run (Cases.silentAt 3) [] Scenarios.writable)
           "/api/users" 2 4 (Cases.holding []) 1 3).
  - lia.
  - vm_compute. lia.
  - right; left; reflexivity.
  - reflexivity.
  - exact Hnofail.
Defined.

(* ------------------------------------------------------------------ *)
(** *** A batch too fast for the clock *)

(** The sum of the throughputs is NaN as soon as one of them is not read as
    a number. *)
Lemma throughputs_NaN (ts : list value) :
  Forall hasResults ts ->
  forall (acc : number) (w : World),
    acc = NaN \/
    Exists (fun t => parseInt (resultField t "requests_per_second") = NaN)
           ts ->
    foldM (fun sum test =>
             r <- prop test "results" ;;
             x <- prop r "requests_per_second" ;;
             ret (add sum (of_integer (parseInt x))))
          ts acc w
    = (Return NaN, w).
Proof.
  induction 1 as [| t ts (Ht & Hr & _) _ IH]; intros acc w Hnan.
  - destruct Hnan as [-> | Hex]; [reflexivity | inversion Hex].
  - cbn [foldM]. unfold bind at 1. unfold bind at 1.
    unfold prop at 1. rewrite Ht. unfold ret at 1.
    unfold bind at 1. unfold prop at 1. rewrite Hr. unfold ret at 1.
    fold (resultField t "requests_per_second"). unfold ret at 1.
    apply IH.
    destruct Hnan as [-> | Hex]; [left; reflexivity | ].
    inversion Hex as [? ? Hhere | ? ? Hlater]; subst.
    + left. rewrite Hhere. destruct acc; reflexivity.
    + right. exact Hlater.
Qed.

Lemma rating_without_throughput (ts : list value) (w : World) :
  Forall hasResults ts ->
  Exists (fun t => parseInt (resultField t "requests_per_second") = NaN) ts ->
  calculateScalabilityRating ts w = (Return "Limited Scalability", w).
Proof.
  intros Hall Hex. unfold calculateScalabilityRating.
  replace (List.length ts =? 0)%nat with false
    by (destruct ts; [inversion Hex | reflexivity]).
  destruct (returns_sum_of parseFloat "success_rate" ts Hall)
    as [totalSuccessRate Hrates].
  unfold bind at 1. rewrite Hrates.
  unfold bind at 1. unfold sum_of at 1.
  rewrite (throughputs_NaN ts Hall) by (right; exact Hex).
  change (div NaN (of_nat (List.length ts))) with (@NaN Q).
  change (gt (@NaN Q) (of_nat 800)) with false.
  change (gt (@NaN Q) (of_nat 500)) with false.
  change (gt (@NaN Q) (of_nat 200)) with false.
  rewrite !Bool.andb_false_r. reflexivity.
Qed.

(** A batch of at least one request whose loop gets past every group and
    during which the clock does not advance (it starts and ends within the
    same millisecond) reports a duration of 0ms and a throughput of
    Infinity.  [generateReport] reads that
    throughput back as NaN: whatever the other batches measured, the summary
    then has the average throughput NaN, the overall performance Needs
    Improvement and the rating Limited Scalability. *)
Theorem instant_batch_defeats_the_summary
    (env : Env) (endpoint : string) (C N : nat) (w : World) :
  (0 < C)%nat -> (0 < N)%nat ->
  everyGroupSettles env (dispatched w) C N ->
  soundWorld w ->
  clock env (S (clockReads w)) = clock env (clockReads w) ->
  exists (t : value) (w1 w2 : World),
    testConcurrentConnections env endpoint C N w = (Return t, w1) /\
    resultField t "total_duration" = VString "0ms" /\
    resultField t "requests_per_second" = VNumber PosInfinity /\
    generateReport w1 = (Return (results w2), w2) /\
    tests (results w2) = (tests (results w) ++ [t])%list /\
    lookup (summary (results w2)) "average_requests_per_second"
    = VNumber NaN /\
    lookup (summary (results w2)) "overall_performance"
    = VString "Needs Improvement" /\
    lookup (summary (results w2)) "scalability_rating"
    = VString "Limited Scalability".
Proof.
  intros HC HN Hsettle Hw Hclock.
  rewrite (testConcurrentConnections_spec env endpoint C N w HC Hsettle).
  rewrite Hclock, Z.sub_diag.
  set (t := testResultOf endpoint C N 0
              (recordedOutcomes env (dispatched w) C N)).
  assert (Hrps : resultField t "requests_per_second" = VNumber PosInfinity).
  { subst t. unfold testResultOf, resultField.
    cbn [member lookup String.eqb Ascii.eqb Bool.eqb].
    do 2 f_equal. unfold of_nat, of_Z, div, Qsign.
    cbn [Qnum inject_Z Z.compare].
    destruct N as [| n]; [lia | reflexivity]. }
  match goal with
  | |- context [(Return t, ?w0)] => set (w1 := w0)
  end.
  assert (Hw1 : soundWorld w1).
  { unfold soundWorld. subst w1. cbn [results tests].
    apply Forall_app. split; [exact Hw | ].
    constructor; [apply batch_entry_sound | constructor]. }
  pose proof (sound_batches _ Hw1) as Hkept.
  assert (Hin : Exists (fun t0 =>
                          parseInt (resultField t0 "requests_per_second")
                          = NaN)
                       (filter isBatch (tests (results w1)))).
  { apply Exists_exists. exists t. split.
    - apply filter_In. split; [| reflexivity].
      subst w1. cbn [results tests]. apply in_or_app. right. now left.
    - rewrite Hrps. reflexivity. }
  destruct (returns_response_times _ Hkept (of_nat 0))
    as [totalResponseTime HRT].
  exists t, w1. eexists.
  split; [reflexivity | ].
  split; [reflexivity | ].
  split; [exact Hrps | ].
  split.
  - unfold generateReport.
    unfold bind at 1. unfold get_results at 1.
    unfold bind at 1. unfold named.
    rewrite (named_filter _ (sound_not_nullish _ Hw1)).
    change ([] ++ filter isBatch (tests (results w1)))%list
      with (filter isBatch (tests (results w1))).
    replace (0 <? List.length (filter isBatch (tests (results w1))))%nat
      with true
      by (symmetry; apply Nat.ltb_lt;
          destruct (filter isBatch (tests (results w1)));
          [inversion Hin | cbn [List.length]; lia]).
    unfold bind at 1. unfold bind at 1. unfold sum_of at 1.
    rewrite (throughputs_NaN _ Hkept) by (right; exact Hin).
    unfold bind at 1. rewrite HRT.
    unfold bind at 1.
    rewrite (rating_without_throughput _ _ Hkept Hin).
    unfold set_summary, get_results.
    match goal with
    | |- (_, ?W) = (_, ?e) => unify e W
    end.
    reflexivity.
  - cbn [results tests summary]. repeat split.
Qed.

Lemma instant_batch_defeats_the_summary_witness :
  everyGroupSettles (Cases.frozen Scenarios.healthy)
    (dispatched (Cases.holding [Scenarios.borderline])) 2 3 /\
  exists (t : value) (w1 w2 : World),
    testConcurrentConnections (Cases.frozen Scenarios.healthy) "/api/posts"
      2 3 (Cases.holding [Scenarios.borderline]) = (Return t, w1) /\
    resultField t "total_duration" = VString "0ms" /\
    resultField t "requests_per_second" = VNumber PosInfinity /\
    generateReport w1 = (Return (results w2), w2) /\
    tests (results w2)
    = (tests (results (Cases.holding [Scenarios.borderline])) ++ [t])%list /\
    lookup (summary (results w2)) "average_requests_per_second"
    = VNumber NaN /\
    lookup (summary (results w2)) "overall_performance"
    = VString "Needs Improvement" /\
    lookup (summary (results w2)) "scalability_rating"
    = VString "Limited Scalability".
Proof.
  assert (Hsettle :
    everyGroupSettles (Cases.frozen Scenarios.healthy)
      (dispatched (Cases.holding [Scenarios.borderline])) 2 3).
  { apply settles_when_all_settle, healthy_settles. reflexivity. }
  split; [exact Hsettle | ].
  apply (instant_batch_defeats_the_summary
           (Cases.frozen Scenarios.healthy) "/api/posts" 2 3
           (Cases.holding [Scenarios.borderline])).
  - lia.
  - lia.
  - exact Hsettle.
  - repeat constructor; apply batch_entry_sound.
  - reflexivity.
Defined.

(* ------------------------------------------------------------------ *)
(** *** The statistics of an entry are consistent *)

Lemma sum_from_bounds (lo hi : Z) (xs : list Z) :
  (forall x, In x xs -> lo <= x <= hi) ->
  forall a,
    a + Z.of_nat (List.length xs) * lo <= fold_left Z.add xs a
    <= a + Z.of_nat (List.length xs) * hi.
Proof.
  induction xs as [| x xs IH]; intros Hall a.
  - cbn [fold_left List.length]. lia.
  - cbn [fold_left].
    pose proof (Hall x (or_introl eq_refl)) as Hx.
    pose proof (IH (fun y Hy => Hall y (or_intror Hy)) (a + x)) as Hrest.
    rewrite length_cons, Nat2Z.inj_succ. lia.
Qed.

Lemma positive_count (n : nat) :
  (0 < n)%nat -> (0 < inject_Z (Z.of_nat n))%Q.
Proof.
  intros Hn. change (inject_Z 0 < inject_Z (Z.of_nat n))%Q.
  rewrite <- Zlt_Qlt. lia.
Qed.

(** The mean of integers between [lo] and [hi] lies between them. *)
Lemma mean_bounds (lo hi : Z) (xs : list Z) :
  xs <> [] ->
  (forall x, In x xs -> lo <= x <= hi) ->
  (inject_Z lo <= mean xs <= inject_Z hi)%Q.
Proof.
  intros Hne Hall.
  pose proof (sum_from_bounds lo hi xs Hall 0) as Hsum.
  fold (sum xs) in Hsum.
  assert (Hlen : (0 < inject_Z (Z.of_nat (List.length xs)))%Q).
  { apply positive_count.
    destruct xs; [congruence | cbn [List.length]; lia]. }
  unfold mean. split.
  - apply Qle_shift_div_l; [exact Hlen | ].
    rewrite <- inject_Z_mult, <- Zle_Qle. lia.
  - apply Qle_shift_div_r; [exact Hlen | ].
    rewrite <- inject_Z_mult, <- Zle_Qle. lia.
Qed.

(** Rounding keeps a value between two integers between them. *)
Lemma round_bounds (lo hi : Z) (x : Q) :
  (inject_Z lo <= x <= inject_Z hi)%Q ->
  lo <= Qfloor (x + (1 # 2)) <= hi.
Proof.
  intros [Hlo Hhi]. split.
  - rewrite <- (Qfloor_Z lo). apply Qfloor_resp_le.
    apply Qle_trans with x; [exact Hlo | ].
    rewrite <- (Qplus_0_r x) at 1. apply Qplus_le_r. discriminate.
  - apply Z.lt_succ_r. rewrite Zlt_Qlt.
    apply Qle_lt_trans with (x + (1 # 2))%Q; [apply Qfloor_le | ].
    apply Qlt_le_trans with (x + 1)%Q;
      [apply Qplus_lt_r; reflexivity | ].
    unfold Z.succ. rewrite inject_Z_plus. apply Qplus_le_l. exact Hhi.
Qed.

(** The success rate: the quotient and the product are both rounded to
    double precision, and the percentage stays between 0 and 100. *)
Lemma success_rate_bounds (s N : nat) :
  (0 < N)%nat -> (s <= N)%nat ->
  exists p : Z,
    Math_round (fmul (fdiv (of_nat s) (of_nat N)) (of_nat 100)) = Fin p /\
    0 <= p <= 100 /\
    (s = N -> p = 100).
Proof.
  intros HN Hs. unfold fdiv, of_nat at 1 2.
  fold (of_Z (Z.of_nat s)). fold (of_Z (Z.of_nat N)).
  rewrite div_positive by lia. cbn [rounded].
  pose proof (positive_count N HN) as Hlen.
  destruct (binary64_bounds
              (Qred (inject_Z (Z.of_nat s) / inject_Z (Z.of_nat N))) 1)
    as (q & Hq & Hq0 & Hq1).
  { rewrite Qred_correct. apply Qle_shift_div_l; [exact Hlen | ].
    rewrite Qmult_0_l. change 0%Q with (inject_Z 0).
    rewrite <- Zle_Qle. lia. }
  { rewrite Qred_correct. apply Qle_shift_div_r; [exact Hlen | ].
    rewrite <- inject_Z_mult, <- Zle_Qle. lia. }
  { reflexivity. }
  rewrite Hq. unfold fmul, mul, of_nat. cbn [rounded].
  change (inject_Z (Z.of_nat 100)) with 100%Q in *.
  change (inject_Z 1) with 1%Q in Hq1.
  destruct (binary64_bounds (Qred (q * 100)) 100) as (q' & Hq' & H0 & H100).
  { rewrite Qred_correct. lra. }
  { rewrite Qred_correct. change (inject_Z 100) with 100%Q. lra. }
  { reflexivity. }
  rewrite Hq'. cbn [Math_round].
  exists (Qfloor (q' + (1 # 2))). split; [reflexivity | ]. split.
  - apply round_bounds. split; assumption.
  - intros ->.
    assert (Hone : binary64
                     (Qred (inject_Z (Z.of_nat N) / inject_Z (Z.of_nat N)))
                   = Fin 1%Q).
    { rewrite (binary64_comp _ 1%Q); [vm_compute; reflexivity | ].
      rewrite Qred_correct. field.
      intros H. rewrite H in Hlen. exact (Qlt_irrefl _ Hlen). }
    rewrite Hone in Hq. injection Hq as <-.
    vm_compute in Hq'. injection Hq' as <-. reflexivity.
Qed.

(** The entry of a batch of at least one request, run with a positive
    concurrency and produced once the loop has got past every group, is
    consistent: its success rate is a whole percentage between 0% and 100%,
    and it is 100% when every request was recorded as a success; when at
    least one outcome was recorded, the printed average response time lies
    between the printed minimum and maximum. *)
Theorem entry_statistics_are_consistent
    (env : Env) (endpoint : string) (C N : nat) (w : World) :
  (0 < C)%nat -> (0 < N)%nat ->
  everyGroupSettles env (dispatched w) C N ->
  exists (t : value) (w' : World) (p : Z),
    testConcurrentConnections env endpoint C N w = (Return t, w') /\
    resultField t "success_rate" = VString (Z_to_string p ++ "%") /\
    0 <= p <= 100 /\
    (resultField t "successful_requests" = VNat N -> p = 100) /\
    (recordedOutcomes env (dispatched w) C N <> [] ->
     exists lo avg hi : Z,
       responseTime t "minimum" = VString (Z_to_string lo ++ "ms") /\
       responseTime t "average" = VString (Z_to_string avg ++ "ms") /\
       responseTime t "maximum" = VString (Z_to_string hi ++ "ms") /\
       lo <= avg <= hi).
Proof.
  intros HC HN Hsettle.
  rewrite testConcurrentConnections_spec by assumption.
  set (rs := recordedOutcomes env (dispatched w) C N).
  assert (Hs : (List.length (filter success rs) <= N)%nat).
  { etransitivity; [apply filter_length_le | ].
    apply recordedOutcomes_length; exact HC. }
  destruct (success_rate_bounds _ N HN Hs) as (p & Hp & Hb & Hfull).
  eexists. eexists. exists p. split; [reflexivity | ].
  unfold responseTime, resultField, testResultOf.
  cbn [member lookup String.eqb Ascii.eqb Bool.eqb].
  rewrite Hp. cbn [integer_to_string].
  split; [reflexivity | ]. split; [exact Hb | ]. split.
  - intros Hall. apply VNat_inj in Hall. apply Hfull, Hall.
  - intros Hne.
    assert (Hds : map duration rs <> [])
      by (destruct rs; [congruence | discriminate]).
    destruct (Math_min_spec _ Hds) as (lo & Hmin & Hlo & Hleast).
    destruct (Math_max_spec _ Hds) as (hi & Hmax & Hhi & Hmost).
    exists lo, (Qfloor (mean (map duration rs) + (1 # 2))), hi.
    rewrite Hmin, Hmax, average_formula by exact Hds.
    split; [reflexivity | ]. split; [reflexivity | ].
    split; [reflexivity | ].
    apply round_bounds, mean_bounds; [exact Hds | ].
    intros x Hx. split; [apply Hleast | apply Hmost]; exact Hx.
Qed.

Lemma entry_statistics_are_consistent_witness :
  (0 < 2)%nat /\ (0 < 4)%nat /\
  everyGroupSettles (Scenarios.run Scenarios.oneReset [] Scenarios.writable)
    (dispatched (Cases.holding [])) 2 4 /\
  exists (t : value) (w' : World) (p : Z),
    testConcurrentConnections
      (Scenarios.run Scenarios.oneReset [] Scenarios.writable)
      "/api/users" 2 4 (Cases.holding []) = (Return t, w') /\
    resultField t "success_rate" = VString (Z_to_string p ++ "%") /\
    0 <= p <= 100 /\
    (resultField t "successful_requests" = VNat 4 -> p = 100) /\
    (recordedOutcomes
       (Scenarios.run Scenarios.oneReset [] Scenarios.writable)
       (dispatched (Cases.holding [])) 2 4 <> [] ->
     exists lo avg hi : Z,
       responseTime t "minimum" = VString (Z_to_string lo ++ "ms") /\
       responseTime t "average" = VString (Z_to_string avg ++ "ms") /\
       responseTime t "maximum" = VString (Z_to_string hi ++ "ms") /\
       lo <= avg <= hi).
Proof.
  assert (Hsettle :
    everyGroupSettles (Scenarios.run Scenarios.oneReset [] Scenarios.writable)
      (dispatched (Cases.holding [])) 2 4).
  { apply settles_when_all_settle. intros i _.
    cbn [network Scenarios.run]. unfold Scenarios.oneReset.
    destruct (_ =? 1)%nat; discriminate. }
  split; [lia | ]. split; [lia | ]. split; [exact Hsettle | ].
  apply (entry_statistics_are_consistent
           (Scenarios.run Scenarios.oneReset [] Scenarios.writable)
           "/api/users" 2 4 (Cases.holding [])); [lia | lia | exact Hsettle].
Defined.

(* ------------------------------------------------------------------ *)
(** *** What the rendering leaves out *)

(** Of an entry, [formatReportAsText] renders the name and the sections
    endpoint, configuration, results and load_levels; an entry that has none
    of these four is rendered as its heading alone, whatever else it holds.
    So the duration and the sample counts of the entry of the resource sweep
    never reach the text of the report. *)
Theorem rendering_skips_other_fields
    (text : string) (index : nat) (test : value) (w : World) :
  nullish test = false ->
  ToBoolean (member test "endpoint") = false ->
  ToBoolean (member test "configuration") = false ->
  ToBoolean (member test "results") = false ->
  ToBoolean (member test "load_levels") = false ->
  formatTest text (index, test) w =
  (Return
     ((((text ++ repeat_string "-" 60 ++ nl)
        ++ "TEST " ++ nat_to_string (index + 1) ++ ": "
        ++ ToString (member test "test_name") ++ nl)
       ++ repeat_string "-" 60 ++ nl)
      ++ nl),
   w).
Proof.
  intros Htest Hendpoint Hconfiguration Hresults Hlevels.
  unfold formatTest. unfold bind at 1. unfold prop at 1. rewrite Htest.
  unfold ret at 1.
  rewrite Hendpoint, Hconfiguration, Hresults, Hlevels.
  reflexivity.
Qed.

Lemma rendering_skips_other_fields_witness :
  formatTest "Report" (5%nat, resourceEntry) (Cases.holding [])
  = (Return
       ("Report"
        ++ repeat_string "-" 60 ++ nl
        ++ "TEST 6: Resource Usage Test" ++ nl
        ++ repeat_string "-" 60 ++ nl
        ++ nl),
     Cases.holding []).
Proof.
  rewrite (rendering_skips_other_fields "Report" 5 resourceEntry
             (Cases.holding [])); reflexivity.
Defined.

(* ------------------------------------------------------------------ *)
(** *** The login and registration pages *)



(** When a registration fails with an error that is an object, the page
    always ends up showing a message: the message of the server's response
    if there is one that is truthy, Registration failed otherwise (no
    response, no data, no message, or an empty one).  No alert is raised and
    the fields of the form are kept.  A later successful registration raises
    its alert but does not clear the message, which stays on the page. *)
Theorem register_error_is_never_cleared
    (err res : value) (page : Client.RegisterPage) (b : Client.Browser) :
  nullish err = false ->
  exists page' : Client.RegisterPage,
    Client.handleRegister (Client.Failed err) page b = Some (page', b) /\
    ToBoolean (Client.error page') = true /\
    Client.error page'
    = (if ToBoolean
            (Client.optional (Client.optional (member err "response") "data")
                             "message")
       then Client.optional (Client.optional (member err "response") "data")
                            "message"
       else VString "Registration failed") /\
    Client.email page' = Client.email page /\
    Client.password page' = Client.password page /\
    Client.handleRegister (Client.Fulfilled res) page' b
    = Some (page',
            Client.alert "Registration successful! Please login." b).
Proof.
  intros Herr. unfold Client.handleRegister, Client.read. rewrite Herr.
  eexists. split; [reflexivity | ].
  cbn [Client.error Client.email Client.password]. unfold Client.or_else.
  destruct (ToBoolean
              (Client.optional
                 (Client.optional (member err "response") "data") "message"))
    eqn:Hmessage.
  - repeat split. exact Hmessage.
  - repeat split.
Qed.

Lemma register_error_is_never_cleared_witness :
  exists page' : Client.RegisterPage,
    Client.handleRegister (Client.Failed Cases.refused) Cases.blankPage
      Cases.freshBrowser = Some (page', Cases.freshBrowser) /\
    Client.error page' = VString "Email already registered" /\
    Client.handleRegister (Client.Fulfilled VUndefined) page'
      Cases.freshBrowser
    = Some (page',
            Client.alert "Registration successful! Please login."
              Cases.freshBrowser).
Proof.
  destruct (register_error_is_never_cleared Cases.refused VUndefined
              Cases.blankPage Cases.freshBrowser eq_refl)
    as (page' & Hrun & _ & Herror & _ & _ & Hlater).
  exists page'. split; [exact Hrun | ]. split; [exact Herror | exact Hlater].
Defined.

(* ------------------------------------------------------------------ *)
(** *** Generating the report twice *)

(** The summary [generateReport] sets, if it sets one, depends on the
    entries of the report only. *)
Lemma generateReport_by_tests (ts : list value) :
  Forall sound ts ->
  exists s : option object,
    forall w : World,
      tests (results w) = ts ->
      generateReport w =
      (Return {| timestamp := timestamp (results w);
                 tests := ts;
                 summary := match s with
                            | Some s' => s'
                            | None => summary (results w)
                            end |},
       {| results := {| timestamp := timestamp (results w);
                        tests := ts;
                        summary := match s with
                                   | Some s' => s'
                                   | None => summary (results w)
                                   end |};
          stderr := stderr w; invocations := invocations w;
          dispatched := dispatched w; clockReads := clockReads w;
          files := files w;
          unanswered := unanswered w |}).
Proof.
  intros Hts.
  pose proof (sound_batches _ Hts) as Hkept.
  pose proof (sound_not_nullish _ Hts) as Hobjects.
  destruct (0 <? List.length (filter isBatch ts))%nat eqn:Hsome.
  - destruct (returns_sum_of (fun x => of_integer (parseInt x))
                "requests_per_second" _ Hkept) as [totalRPS HRPS].
    destruct (returns_response_times _ Hkept (of_nat 0))
      as [totalResponseTime HRT].
    destruct (returns_calculateScalabilityRating _ Hkept)
      as [rating Hrating].
    eexists (Some _). intros [[stamp entries s0] err inv disp reads fs] Hw.
    cbn [results tests] in Hw. subst entries.
    unfold generateReport.
    unfold bind at 1. unfold get_results at 1.
    unfold bind at 1. unfold named.
    cbn [results tests].
    rewrite (named_filter _ Hobjects).
    change ([] ++ filter isBatch ts)%list with (filter isBatch ts).
    rewrite Hsome.
    unfold bind at 1. unfold bind at 1. rewrite HRPS.
    unfold bind at 1. rewrite HRT.
    unfold bind at 1. rewrite Hrating.
    unfold set_summary, get_results.
    cbn [results stderr invocations dispatched clockReads files timestamp
         tests summary].
    reflexivity.
  - exists None. intros [[stamp entries s0] err inv disp reads fs] Hw.
    cbn [results tests] in Hw. subst entries.
    unfold generateReport.
    unfold bind at 1. unfold get_results at 1.
    unfold bind at 1. unfold named.
    cbn [results tests].
    rewrite (named_filter _ Hobjects).
    change ([] ++ filter isBatch ts)%list with (filter isBatch ts).
    rewrite Hsome. reflexivity.
Qed.

(** On a tester whose entries are those the sweeps append, generating the
    report a second time changes nothing and returns the same report: the
    summary printed by the run and the one saved to the file, which come
    from two calls, are the same. *)
Theorem generating_the_report_twice_changes_nothing (w : World) :
  soundWorld w ->
  exists w1 : World,
    generateReport w = (Return (results w1), w1) /\
    generateReport w1 = (Return (results w1), w1) /\
    tests (results w1) = tests (results w) /\
    timestamp (results w1) = timestamp (results w).
Proof.
  intros Hw.
  destruct (generateReport_by_tests _ Hw) as [s Hs].
  pose proof (Hs w eq_refl) as Hfirst.
  match type of Hfirst with
  | _ = (_, ?W) => exists W
  end.
  split; [exact Hfirst | ].
  split; [| split; reflexivity].
  rewrite Hs by reflexivity.
  cbn [results stderr invocations dispatched clockReads files timestamp
       tests summary].
  destruct s; reflexivity.
Qed.

Lemma generating_the_report_twice_changes_nothing_witness :
  exists w1 : World,
    generateReport (Cases.holding [Scenarios.borderline; resourceEntry])
    = (Return (results w1), w1) /\
    generateReport w1 = (Return (results w1), w1) /\
    tests (results w1) = [Scenarios.borderline; resourceEntry].
Proof.
  destruct (generating_the_report_twice_changes_nothing
              (Cases.holding [Scenarios.borderline; resourceEntry]))
    as (w1 & H1 & H2 & Ht & _).
  - constructor; [apply batch_entry_sound | ].
    constructor; [apply (resource_entry_sound 0) | constructor].
  - exists w1. split; [exact H1 | ]. split; [exact H2 | exact Ht].
Defined.
